(** * auto_market_reporter: the report markup, its generator and its parser

    A shallow embedding of [reports/generate_report.py] (functions [generate]
    and [get_latest_report_date]), of [tools/export_report_pdf.py] (the
    parser [parse_report] and, of the renderer, [esc], [short_url],
    [is_url], the list [data] of [kv_table] and the texts of the news
    paragraphs of [render_report_to_flow]), of
    [analysis/openai_summary.py] (the cache of summaries, [build_prompt] and
    [summarize]) and of [collector/fetch_prices.py] ([_call_alpha_vantage]
    and [fetch_last_n_days]), with the properties of the intermediate markup
    that the specification states and further properties of these functions.

    Python values are modelled as follows.
    - A [str] is the list of its Unicode code points, each an [N].
    - A [dict] with a fixed set of literal keys is a record; the [kv] dict
      of a section, which is filled key by key, is a [gmap string].
    - A Python exception is the [Raise] branch of [result].
    - A [float] is an exact rational ([Q]) in the texts that [generate]
      writes: their digits are those of the exact value. The range position
      is modelled a second time on the binary64 numbers, in [F64], with
      rounding to nearest, the infinities and NaN.
    - A table of the database with a unique key is a [gmap] from the key;
      the service of a network call is a function that gives its answers. *)

From Stdlib Require Import ZArith QArith Qround String Ascii List Lia
  DecimalPos.
From Stdlib Require SpecFloat.
From stdpp Require Import base tactics option list gmap strings sorting.
Import ListNotations.

Local Open Scope N_scope.

(** ** Python strings *)

Abbreviation pystr := (list N).

(** An ASCII literal as a Python string. *)
Definition lit (s : string) : pystr :=
  List.map N_of_ascii (list_ascii_of_string s).

Module Py.

(** [str.isspace] on one code point, which is also what [str.strip()]
    removes and what the regular expression class [\s] matches on [str]. *)
Definition is_space (c : N) : bool :=
  ((9 <=? c) && (c <=? 13)) || ((28 <=? c) && (c <=? 32))
  || (c =? 133) || (c =? 160) || (c =? 5760)
  || ((8192 <=? c) && (c <=? 8202))
  || (c =? 8232) || (c =? 8233) || (c =? 8239) || (c =? 8287)
  || (c =? 12288).

(** The line boundaries of [str.splitlines]. *)
Definition is_linebreak (c : N) : bool :=
  ((10 <=? c) && (c <=? 13)) || ((28 <=? c) && (c <=? 30))
  || (c =? 133) || (c =? 8232) || (c =? 8233).

Definition LF : N := 10.
Definition CR : N := 13.

(** [s.splitlines()]: [cur] is the line being read, in reverse. *)
Fixpoint splitlines_from (cur : pystr) (s : pystr) : list pystr :=
  match s with
  | [] => match cur with [] => [] | _ => [rev cur] end
  | c :: s' =>
      if c =? CR then
        match s' with
        | c' :: s'' =>
            if c' =? LF then rev cur :: splitlines_from [] s''
            else rev cur :: splitlines_from [] s'
        | [] => rev cur :: splitlines_from [] s'
        end
      else if is_linebreak c then rev cur :: splitlines_from [] s'
      else splitlines_from (c :: cur) s'
  end.

Definition splitlines (s : pystr) : list pystr := splitlines_from [] s.

(** ["\n".join(lines)] *)
Fixpoint join_nl (ls : list pystr) : pystr :=
  match ls with
  | [] => []
  | [l] => l
  | l :: rest => l ++ LF :: join_nl rest
  end.

Fixpoint startswith (p s : pystr) : bool :=
  match p, s with
  | [], _ => true
  | _ :: _, [] => false
  | a :: p', b :: s' => (a =? b) && startswith p' s'
  end.

Fixpoint lstrip (s : pystr) : pystr :=
  match s with
  | c :: s' => if is_space c then lstrip s' else s
  | [] => []
  end.

Definition rstrip (s : pystr) : pystr := rev (lstrip (rev s)).

(** [s.strip()] *)
Definition strip (s : pystr) : pystr := rstrip (lstrip s).

Fixpoint lstrip_nl (s : pystr) : pystr :=
  match s with
  | c :: s' => if c =? LF then lstrip_nl s' else s
  | [] => []
  end.

(** [s.rstrip("\n")] *)
Definition rstrip_nl (s : pystr) : pystr := rev (lstrip_nl (rev s)).

(** The text after the first [sep], if [sep] occurs: element [1] of
    [s.split(sep, 1)] when the list has one. *)
Fixpoint after_first (sep : N) (s : pystr) : option pystr :=
  match s with
  | [] => None
  | c :: s' => if c =? sep then Some s' else after_first sep s'
  end.

Fixpoint all_space_n (n : nat) (s : pystr) : option pystr :=
  match n, s with
  | O, _ => Some s
  | S n', c :: s' => if is_space c then all_space_n n' s' else None
  | S _, [] => None
  end.

(** The regular expression [^\s{n}-\s+] applied at the start of [s]:
    the text after the match, when there is one. *)
Definition bullet_rest (n : nat) (s : pystr) : option pystr :=
  match all_space_n n s with
  | Some (d :: c :: s') =>
      if (d =? 45) && is_space c then Some (lstrip s') else None
  | _ => None
  end.

(** [re.match(r"^\s{n}-\s+", s)] as a truth value. *)
Definition bullet_match (n : nat) (s : pystr) : bool :=
  match bullet_rest n s with Some _ => true | None => false end.

(** [re.sub] of the same pattern by the empty string: the pattern is
    anchored, so at most the match at the start is removed. *)
Definition bullet_sub (n : nat) (s : pystr) : pystr :=
  match bullet_rest n s with Some r => r | None => s end.

(** Equality of a code point with an ASCII letter, ignoring ASCII case. *)
Definition eq_nocase (c l : N) : bool :=
  (c =? l) || ((65 <=? c) && (c <=? 90) && (c + 32 =? l)).

Fixpoint startswith_nocase (p s : pystr) : bool :=
  match p, s with
  | [], _ => true
  | _ :: _, [] => false
  | a :: p', b :: s' => eq_nocase b a && startswith_nocase p' s'
  end.

Definition is_empty (s : pystr) : bool :=
  match s with [] => true | _ => false end.

(** A string that [splitlines] leaves in one piece. *)
Definition no_break (s : pystr) : Prop :=
  Forall (fun c => is_linebreak c = false) s.

End Py.

Export Py.

(** ** Exceptions *)

Inductive pyexn := IndexError | KeyError | TypeError.

Inductive result (A : Type) : Type :=
| Ok (a : A)
| Raise (e : pyexn).
Arguments Ok {A} a.
Arguments Raise {A} e.

Definition rbind {A B} (m : result A) (f : A -> result B) : result B :=
  match m with Ok a => f a | Raise e => Raise e end.

Notation "'let*' x ':=' m 'in' k" := (rbind m (fun x => k))
  (at level 10, x name, m at level 100, k at level 200, only parsing).

Definition rmap {A B} (f : A -> B) (m : result A) : result B :=
  let* x := m in Ok (f x).

(** [xs[1]] on the list returned by [s.split(":", 1)]. *)
Definition split_colon_1 (s : pystr) : result pystr :=
  match after_first 58 s with
  | Some r => Ok r
  | None => Raise IndexError
  end.

(** ** The parser of [tools/export_report_pdf.py] *)

Module Parser.

Record NewsItem := mkNews { line : pystr; summary : pystr; url : pystr }.

Record Section := mkSection {
  ticker : pystr;
  kv : gmap string pystr;
  news : list NewsItem;
  ai : pystr
}.

Record Report := mkReport {
  title : pystr;
  meta : pystr;
  sections : list Section
}.

(** The variable [mode]: [None], ["news"] or ["ai"]. *)
Inductive Mode := MNone | MNews | MAi.

(** The locals of the loop. [last_news] is [None] or an alias of one of
    the dicts in [current["news"]]: it is kept as the position of that
    dict in the list, and an assignment through it updates the list. *)
Record PState := mkState {
  report : Report;
  current : option Section;
  mode : Mode;
  last_news : option nat
}.

Definition P_H1 : pystr := Eval cbv in lit "# ".
Definition P_H2 : pystr := Eval cbv in lit "## ".
Definition P_H3 : pystr := Eval cbv in lit "### ".
Definition P_DATE : pystr := Eval cbv in lit "- Date:".
Definition P_CLOSE : pystr := Eval cbv in lit "- Close:".
Definition P_VOLUME : pystr := Eval cbv in lit "- Volume:".
Definition P_RANGE : pystr := Eval cbv in lit "- 20D Range:".
Definition P_NEWS : pystr := Eval cbv in lit "- News".
Definition P_AI_SUMMARY : pystr := Eval cbv in lit "- AI Summary:".
Definition P_SUMMARY : pystr := Eval cbv in lit "- Summary:".
Definition P_DASH : pystr := Eval cbv in lit "- ".
Definition P_HTTP : pystr := Eval cbv in lit "http://".
Definition P_HTTPS : pystr := Eval cbv in lit "https://".
Definition L_SUMMARY : pystr := Eval cbv in lit "summary:".

Definition is_url (s : pystr) : bool :=
  let s := strip s in
  startswith P_HTTP s || startswith P_HTTPS s.

(** [txt.lower().startswith("summary:")]. The only code points whose
    lowercase form contains one of the letters of ["summary:"] are these
    letters and their ASCII capitals, and the colon is its own lowercase,
    so the test is a comparison of the first eight code points of [txt]
    up to ASCII case. *)
Definition lower_startswith_summary (txt : pystr) : bool :=
  startswith_nocase L_SUMMARY txt.

Definition set_title (t : pystr) (r : Report) : Report :=
  mkReport t (meta r) (sections r).

Definition set_meta (m : pystr) (r : Report) : Report :=
  mkReport (title r) m (sections r).

(** [report["sections"].append(current)] under [if current:]. *)
Definition flush (r : Report) (cur : option Section) : Report :=
  match cur with
  | Some c => mkReport (title r) (meta r) (sections r ++ [c])
  | None => r
  end.

Definition set_kv (k : string) (v : pystr) (c : Section) : Section :=
  mkSection (ticker c) (<[k := v]> (kv c)) (news c) (ai c).

Definition set_news (ns : list NewsItem) (c : Section) : Section :=
  mkSection (ticker c) (kv c) ns (ai c).

Definition set_ai (a : pystr) (c : Section) : Section :=
  mkSection (ticker c) (kv c) (news c) a.

Definition set_summary (v : pystr) (n : NewsItem) : NewsItem :=
  mkNews (line n) v (url n).

Definition set_url (v : pystr) (n : NewsItem) : NewsItem :=
  mkNews (line n) (summary n) v.

(** A key/value line: [current["kv"][k] = line.split(":", 1)[1].strip()]. *)
Definition kv_line (st : PState) (cur : Section) (k : string) (l : pystr)
  : result PState :=
  let* v := split_colon_1 l in
  Ok (mkState (report st) (Some (set_kv k (strip v) cur)) (mode st)
              (last_news st)).

Definition is_news (m : Mode) : bool :=
  match m with MNews => true | _ => false end.

Definition is_ai (m : Mode) : bool :=
  match m with MAi => true | _ => false end.

(** One iteration of [for raw in lines]. *)
Definition step (st : PState) (raw : pystr) : result PState :=
  let l := rstrip_nl raw in
  if startswith P_H1 l then
    Ok (mkState (set_title (strip (drop 2 l)) (report st))
                (current st) (mode st) (last_news st))
  else if is_empty (meta (report st)) && startswith P_H2 l then
    Ok (mkState (set_meta (strip (drop 3 l)) (report st))
                (current st) (mode st) (last_news st))
  else if startswith P_H3 l then
    Ok (mkState (flush (report st) (current st))
                (Some (mkSection (strip (drop 4 l)) ∅ [] []))
                MNone None)
  else
    match current st with
    | None => Ok st
    | Some cur =>
        if startswith P_DATE l then kv_line st cur "date" l
        else if startswith P_CLOSE l then kv_line st cur "close" l
        else if startswith P_VOLUME l then kv_line st cur "volume" l
        else if startswith P_RANGE l then kv_line st cur "range" l
        else if startswith P_NEWS l then
          Ok (mkState (report st) (Some cur) MNews None)
        else if startswith P_AI_SUMMARY l || startswith P_SUMMARY l then
          Ok (mkState (report st) (Some cur) MAi (last_news st))
        else if is_news (mode st) && bullet_match 2 l then
          let txt := strip (bullet_sub 2 l) in
          Ok (mkState (report st)
                      (Some (set_news (news cur ++ [mkNews txt [] []]) cur))
                      (mode st) (Some (length (news cur))))
        else
          match (if is_news (mode st) && bullet_match 4 l
                 then last_news st else None) with
          | Some i =>
              let txt := strip (bullet_sub 4 l) in
              if lower_startswith_summary txt then
                let* v := split_colon_1 txt in
                Ok (mkState (report st)
                      (Some (set_news
                               (alter (set_summary (strip v)) i (news cur))
                               cur))
                      (mode st) (last_news st))
              else if is_url txt then
                Ok (mkState (report st)
                      (Some (set_news (alter (set_url txt) i (news cur))
                                      cur))
                      (mode st) (last_news st))
              else Ok st
          | None =>
              if is_ai (mode st) && bullet_match 2 l then
                let txt := strip (bullet_sub 2 l) in
                let a := if is_empty (ai cur) then txt
                         else ai cur ++ LF :: txt in
                Ok (mkState (report st) (Some (set_ai a cur)) (mode st)
                            (last_news st))
              else if is_ai (mode st) && negb (is_empty (strip l))
                      && negb (startswith P_DASH l) then
                Ok (mkState (report st)
                      (Some (set_ai (strip (ai cur ++ 32 :: strip l)) cur))
                      (mode st) (last_news st))
              else Ok st
          end
    end.

(** The whole loop. *)
Fixpoint run (st : PState) (ls : list pystr) : result PState :=
  match ls with
  | [] => Ok st
  | l :: ls' => let* st' := step st l in run st' ls'
  end.

Definition init : PState :=
  mkState (mkReport [] [] []) None MNone None.

(** The code after the loop: the open section is appended. *)
Definition finish (st : PState) : Report := flush (report st) (current st).

Definition parse_lines (ls : list pystr) : result Report :=
  rmap finish (run init ls).

Definition parse_report (md_text : pystr) : result Report :=
  parse_lines (splitlines md_text).

End Parser.

(** ** Number formatting *)

Module Fmt.

Fixpoint digits_of_uint (d : Decimal.uint) : pystr :=
  match d with
  | Decimal.Nil => []
  | Decimal.D0 d => 48 :: digits_of_uint d
  | Decimal.D1 d => 49 :: digits_of_uint d
  | Decimal.D2 d => 50 :: digits_of_uint d
  | Decimal.D3 d => 51 :: digits_of_uint d
  | Decimal.D4 d => 52 :: digits_of_uint d
  | Decimal.D5 d => 53 :: digits_of_uint d
  | Decimal.D6 d => 54 :: digits_of_uint d
  | Decimal.D7 d => 55 :: digits_of_uint d
  | Decimal.D8 d => 56 :: digits_of_uint d
  | Decimal.D9 d => 57 :: digits_of_uint d
  end.

(** The decimal digits of a natural number. *)
Definition digits (n : N) : pystr := digits_of_uint (N.to_uint n).

(** [|q| * 100] rounded to the nearest integer, ties to even. *)
Definition round_hundredths (q : Q) : N :=
  let a := (Z.abs (Qnum q) * 100)%Z in
  let d := Zpos (Qden q) in
  let fl := (a / d)%Z in
  let r := (a mod d)%Z in
  let up :=
    match (2 * r ?= d)%Z with
    | Lt => false
    | Gt => true
    | Eq => Z.odd fl
    end in
  Z.to_N (if up then fl + 1 else fl)%Z.

Definition two_digits (n : N) : pystr :=
  [48 + n / 10; 48 + n mod 10].

Definition unsigned_2f (q : Q) : pystr :=
  let h := round_hundredths q in
  digits (h / 100) ++ 46 :: two_digits (h mod 100).

(** [f"{q:.2f}"] *)
Definition fmt_2f (q : Q) : pystr :=
  (if (Qnum q <? 0)%Z then [45] else []) ++ unsigned_2f q.

(** [f"{q:+.2f}"] *)
Definition fmt_signed_2f (q : Q) : pystr :=
  (if (Qnum q <? 0)%Z then 45 else 43) :: unsigned_2f q.

(** A comma after every third digit of a reversed digit string. *)
Fixpoint commas (ds : pystr) : pystr :=
  match ds with
  | a :: b :: c :: ((_ :: _) as rest) => a :: b :: c :: 44 :: commas rest
  | _ => ds
  end.

(** [f"{z:,}"] *)
Definition fmt_comma (z : Z) : pystr :=
  (if (z <? 0)%Z then [45] else [])
    ++ rev (commas (rev (digits (Z.abs_N z)))).

End Fmt.

(** ** The generator of [reports/generate_report.py] *)

Module Gen.
Import Fmt.

(** A row of [SELECT ticker, date, close, volume FROM prices_daily]. The
    code tests [volume] and the closes of the 20-row window against
    [None], so both columns are nullable here. *)
Record PriceRow := mkPrice {
  p_ticker : pystr;
  p_date : pystr;
  p_close : option Q;
  p_volume : option Z
}.

(** A row of [SELECT published_at, headline, summary, source, url
    FROM news]; every column is nullable. *)
Record NewsRow := mkNewsRow {
  r_published_at : option pystr;
  r_headline : option pystr;
  r_summary : option pystr;
  r_source : option pystr;
  r_url : option pystr
}.

(** The store as [generate] reads it. [prices] is the result of the first
    query, ordered by ticker and then by date, newest first. A ticker has
    one row per date ([ON CONFLICT(ticker, date)] in
    [collector/fetch_prices.py]), so the rows of one ticker stand in
    [prices] in the order in which the 20-row window query returns them.
    [news_of t] is the result of the news query for [t] without its
    [LIMIT]. *)
Record Store := mkStore {
  prices : list PriceRow;
  news_of : pystr -> list NewsRow
}.

(** An element of [latest_map[ticker]]: [(str(date), float(close),
    int(volume) if volume is not None else 0)]. *)
Abbreviation Item := (pystr * Q * Z)%type.

(** An element of [news_items]. *)
Record NewsDict := mkNewsDict {
  published_at : pystr;
  source : pystr;
  headline : pystr;
  summary : pystr;
  url : pystr
}.

(** The keyword arguments of [summarize]. *)
Record SummArgs := mkArgs {
  a_report_date : pystr;
  a_ticker : pystr;
  a_d0 : pystr;
  a_d1 : pystr;
  a_c0 : Q;
  a_c1 : Q;
  a_pct : Q;
  a_volume : Z;
  a_range_low : Q;
  a_range_high : Q;
  a_range_pos : Q;
  a_news_items : list NewsDict
}.

(** What a call of the collaborator [summarize] does: it returns a text,
    or raises an [Exception] [e], of which [generate] uses [str(e)]. *)
Inductive Outcome :=
| Returned (text : pystr)
| Raised (msg : pystr).

Definition float_of (close : option Q) : result Q :=
  match close with
  | Some c => Ok c
  | None => Raise TypeError
  end.

(** The body of the first loop. [setdefault] leaves [items] under the key
    of the ticker, and the row is appended when [items] has less than two
    elements. *)
Definition add_row (latest_map : gmap pystr (list Item)) (r : PriceRow)
  : result (gmap pystr (list Item)) :=
  let items := default [] (latest_map !! p_ticker r) in
  if (length items <? 2)%nat then
    let* c := float_of (p_close r) in
    Ok (<[p_ticker r := items ++ [(p_date r, c, default 0%Z (p_volume r))]]>
          latest_map)
  else Ok (<[p_ticker r := items]> latest_map).

Fixpoint build (latest_map : gmap pystr (list Item)) (rows : list PriceRow)
  : result (gmap pystr (list Item)) :=
  match rows with
  | [] => Ok latest_map
  | r :: rows' =>
      let* m := add_row latest_map r in build m rows'
  end.

(** Comparison of two [str] values: code point by code point. *)
Fixpoint str_ltb (a b : pystr) : bool :=
  match a, b with
  | _, [] => false
  | [], _ :: _ => true
  | x :: a', y :: b' => (x <? y) || ((x =? y) && str_ltb a' b')
  end.

(** [max] of a list of strings whose first element is [x]. *)
Fixpoint str_max (x : pystr) (xs : list pystr) : pystr :=
  match xs with
  | [] => x
  | y :: ys => str_max (if str_ltb x y then y else x) ys
  end.

Fixpoint insert_sorted (x : pystr) (l : list pystr) : list pystr :=
  match l with
  | [] => [x]
  | y :: l' => if str_ltb y x then y :: insert_sorted x l' else x :: l
  end.

(** [sorted(keys)] for a list of distinct strings. *)
Definition sorted (l : list pystr) : list pystr :=
  foldr insert_sorted [] l.

Definition Qltb (a b : Q) : bool := negb (Qle_bool b a).

(** [max(x :: xs)] and [min(x :: xs)] on floats. *)
Fixpoint q_max (x : Q) (xs : list Q) : Q :=
  match xs with
  | [] => x
  | y :: ys => q_max (if Qltb x y then y else x) ys
  end.

Fixpoint q_min (x : Q) (xs : list Q) : Q :=
  match xs with
  | [] => x
  | y :: ys => q_min (if Qltb y x then y else x) ys
  end.

(** [(c1 - c0) / c0 * 100 if c0 else 0.0] *)
Definition pct_change (c0 c1 : Q) : Q :=
  if Qeq_bool c0 0 then 0%Q else ((c1 - c0) / c0 * 100)%Q.

(** [closes_20]: the closes of the 20 newest rows that are not [None]. *)
Definition closes_20 (db : Store) (t : pystr) : list Q :=
  omap p_close
    (take 20 (List.filter (fun r => bool_decide (p_ticker r = t))
                          (prices db))).

(** [(low_20, high_20, range_pos)] *)
Definition range_20 (c1 : Q) (closes : list Q) : Q * Q * Q :=
  match closes with
  | x :: xs =>
      let high_20 := q_max x xs in
      let low_20 := q_min x xs in
      (low_20, high_20,
       if negb (Qeq_bool high_20 low_20)
       then ((c1 - low_20) / (high_20 - low_20))%Q else (1 # 2)%Q)
  | [] => (c1, c1, (1 # 2)%Q)
  end.

Definition S_TITLE : pystr := Eval cbv in lit "# Daily Market Report (".
Definition S_H3 : pystr := Eval cbv in lit "### ".
Definition S_DATE : pystr := Eval cbv in lit "- Date: ".
Definition S_CLOSE : pystr := Eval cbv in lit "- Close: ".
Definition S_VOLUME : pystr := Eval cbv in lit "- Volume: ".
Definition S_LATEST : pystr := Eval cbv in lit "- Latest: ".
Definition S_BAR_CLOSE : pystr := Eval cbv in lit " | Close: ".
Definition S_BAR_VOL : pystr := Eval cbv in lit " | Vol: ".
Definition S_BAR : pystr := Eval cbv in lit " | ".
Definition S_NEWS : pystr := Eval cbv in lit "- News (headline + summary):".
Definition S_NO_NEWS : pystr := Eval cbv in lit "  - (no recent news)".
Definition S_BULLET2 : pystr := Eval cbv in lit "  - ".
Definition S_BULLET4 : pystr := Eval cbv in lit "    - ".
Definition S_NEWS_SUMMARY : pystr := Eval cbv in lit "    - Summary: ".
Definition S_RANGE_LOW : pystr := Eval cbv in lit "- 20D Range: low ".
Definition S_HIGH : pystr := Eval cbv in lit ", high ".
Definition S_POSITION : pystr := Eval cbv in lit ", position ".
Definition S_SUMMARY : pystr := Eval cbv in lit "- Summary:".
Definition S_NEED_2 : pystr :=
  Eval cbv in lit "  - (need at least 2 trading days of price data)".
Definition S_ERROR : pystr := Eval cbv in lit "  - (Error: ".
(** [" → "], with the arrow U+2192. *)
Definition S_ARROW : pystr := [32; 8594; 32].
Definition S_LPAREN : pystr := Eval cbv in lit " (".
Definition S_PCT_RPAREN : pystr := Eval cbv in lit "%)".
Definition S_RPAREN : pystr := Eval cbv in lit ")".

Section Generate.

(** [datetime.now().strftime("%Y-%m-%d")] *)
Variable today : pystr.

(** [datetime.fromisoformat(s.replace("Z", "+00:00"))
    .strftime("%Y-%m-%d %H:%M")], or [None] when this raises. *)
Variable iso_minutes : pystr -> option pystr.

(** The collaborator of [analysis/openai_summary.py]. *)
Variable summarize : SummArgs -> Outcome.

(** The normalisation of [published_at]. *)
Definition norm_published (p : option pystr) : pystr :=
  let s := default [] p in
  if is_empty s then s
  else match iso_minutes s with
       | Some short => short
       | None => s
       end.

Definition news_dict (r : NewsRow) : NewsDict :=
  mkNewsDict (norm_published (r_published_at r))
             (strip (default [] (r_source r)))
             (strip (default [] (r_headline r)))
             (strip (default [] (r_summary r)))
             (strip (default [] (r_url r))).

(** The lines appended for one news row. *)
Definition news_lines (n : NewsDict) : list pystr :=
  [S_BULLET2 ++ published_at n ++ S_BAR ++ source n ++ S_BAR
     ++ headline n]
  ++ (if is_empty (summary n) then [] else [S_NEWS_SUMMARY ++ summary n])
  ++ (if is_empty (url n) then [] else [S_BULLET4 ++ url n]).

Definition news_block (news_items : list NewsDict) : list pystr :=
  match news_items with
  | [] => [S_NO_NEWS]
  | _ => concat (List.map news_lines news_items)
  end.

Definition range_line (low_20 high_20 range_pos : Q) : pystr :=
  S_RANGE_LOW ++ fmt_2f low_20 ++ S_HIGH ++ fmt_2f high_20
    ++ S_POSITION ++ fmt_2f range_pos.

(** [d0], [c0] and [pct] after the test [len(items) >= 2], where [rest]
    is [items[1:]]: without a second item they are [d1], [c1] and [None]. *)
Definition prior (d1 : pystr) (c1 : Q) (rest : list Item)
  : pystr * Q * option Q :=
  match rest with
  | (d0, c0, _) :: _ => (d0, c0, Some (pct_change c0 c1))
  | [] => (d1, c1, None)
  end.

(** The lines of the [- Date], [- Close] and [- Volume] group, or the
    [- Latest] line. *)
Definition head_lines (d1 : pystr) (c1 : Q) (v1 : Z) (rest : list Item)
  : list pystr :=
  match rest with
  | (d0, c0, _) :: _ =>
      [S_DATE ++ d0 ++ S_ARROW ++ d1;
       S_CLOSE ++ fmt_2f c0 ++ S_ARROW ++ fmt_2f c1
         ++ S_LPAREN ++ fmt_signed_2f (pct_change c0 c1) ++ S_PCT_RPAREN;
       S_VOLUME ++ fmt_comma v1]
  | [] =>
      [S_LATEST ++ d1 ++ S_BAR_CLOSE ++ fmt_2f c1
         ++ S_BAR_VOL ++ fmt_comma v1]
  end.

(** The lines under [- Summary:]. *)
Definition narrative_lines (pct : option Q) (args : Q -> SummArgs)
  : list pystr :=
  match pct with
  | None => [S_NEED_2]
  | Some p =>
      match summarize (args p) with
      | Returned ai_summary => [S_BULLET2 ++ ai_summary]
      | Raised msg => [S_ERROR ++ msg ++ S_RPAREN]
      end
  end.

(** [news_items] for a ticker. *)
Definition news_items_of (db : Store) (ticker : pystr) : list NewsDict :=
  List.map news_dict (take 3 (news_of db ticker)).

(** The arguments of the call of [summarize] for a ticker. *)
Definition summarize_args (db : Store) (report_date ticker d1 : pystr)
           (c1 : Q) (v1 : Z) (rest : list Item) (pct : Q) : SummArgs :=
  let '(d0, c0, _) := prior d1 c1 rest in
  let '(low_20, high_20, range_pos) := range_20 c1 (closes_20 db ticker) in
  mkArgs report_date ticker d0 d1 c0 c1 pct v1 low_20 high_20 range_pos
         (news_items_of db ticker).

(** The lines of one iteration of [for ticker in sorted(...)], once
    [items[0]] is [(d1, c1, v1)]. *)
Definition block_lines (db : Store) (report_date ticker d1 : pystr)
           (c1 : Q) (v1 : Z) (rest : list Item) : list pystr :=
  let '(low_20, high_20, range_pos) := range_20 c1 (closes_20 db ticker) in
  [S_H3 ++ ticker]
    ++ head_lines d1 c1 v1 rest
    ++ [S_NEWS] ++ news_block (news_items_of db ticker)
    ++ [range_line low_20 high_20 range_pos]
    ++ [S_SUMMARY]
    ++ narrative_lines (snd (prior d1 c1 rest))
         (summarize_args db report_date ticker d1 c1 v1 rest)
    ++ [[]].

(** One iteration of [for ticker in sorted(latest_map.keys())]. *)
Definition ticker_block (db : Store) (report_date ticker : pystr)
           (items : list Item) : result (list pystr) :=
  match items with
  | [] => Raise IndexError
  | (d1, c1, v1) :: rest =>
      Ok (block_lines db report_date ticker d1 c1 v1 rest)
  end.

(** [latest_map[ticker]] *)
Definition getitem (latest_map : gmap pystr (list Item)) (t : pystr)
  : result (list Item) :=
  match latest_map !! t with
  | Some items => Ok items
  | None => Raise KeyError
  end.

(** [max(all_latest_dates) if all_latest_dates else now]. The maximum
    does not depend on the order in which the dict is traversed. *)
Definition report_date_of (latest_map : gmap pystr (list Item)) : pystr :=
  let all_latest_dates :=
    omap (fun kv => match snd kv with
                    | (d, _, _) :: _ => Some d
                    | [] => None
                    end) (map_to_list latest_map) in
  match all_latest_dates with
  | d :: ds => str_max d ds
  | [] => today
  end.

Fixpoint blocks (db : Store) (latest_map : gmap pystr (list Item))
         (report_date : pystr) (tickers : list pystr)
  : result (list pystr) :=
  match tickers with
  | [] => Ok []
  | t :: ts =>
      let* items := getitem latest_map t in
      let* b := ticker_block db report_date t items in
      let* bs := blocks db latest_map report_date ts in
      Ok (b ++ bs)
  end.

(** The list [lines] at the end of [generate]. *)
Definition report_lines (db : Store) : result (list pystr * pystr) :=
  let* latest_map := build ∅ (prices db) in
  let report_date := report_date_of latest_map in
  let* bs := blocks db latest_map report_date
                    (sorted (List.map fst (map_to_list latest_map))) in
  Ok ((S_TITLE ++ report_date ++ S_RPAREN ++ [LF]) :: bs, report_date).

(** [generate]: the text written to the report file, and the report
    date. *)
Definition generate (db : Store) : result (pystr * pystr) :=
  let* r := report_lines db in
  Ok (join_nl (fst r), snd r).

End Generate.

End Gen.

(** ** The range position in binary64 *)

Module F64.
Local Open Scope Z_scope.

(** A Python [float], an IEEE 754 binary64 number. Every finite binary64
    number is a whole multiple of the least positive one, [2^-1074]: a
    finite value is held as that multiple, so [Fin k] is [k * 2^-1074].
    The sign of a zero is not kept: the code below compares and divides,
    both zeros compare equal and a division by either raises. *)
Inductive float :=
| Fin (units : Z)
| Inf (negative : bool)
| NaN.

(** [1.0] and [0.5] in units of [2^-1074]. *)
Definition ONE : Z := 2 ^ 1074.
Definition HALF : Z := 2 ^ 1073.

(** The least magnitude, in units, that rounds to an infinity, [2^1024],
    and the greatest binary64 number, [(2^53 - 1) * 2^971]. *)
Definition OVERFLOW : Z := 2 ^ 2098.
Definition MAXFIN : Z := (2 ^ 53 - 1) * 2 ^ 2045.

(** The integer part of the binary logarithm of [a / d], for positive [a]
    and [d]. *)
Definition ilog2 (a d : Z) : Z :=
  let k := Z.log2 a - Z.log2 d in
  if (if 0 <=? k then d * 2 ^ k <=? a else d <=? a * 2 ^ (- k))
  then k else k - 1.

(** The integer nearest to [a / b], for positive [b]; a tie goes to the
    even one. *)
Definition rne (a b : Z) : Z :=
  let q := a / b in
  match 2 * (a mod b) ?= b with
  | Lt => q
  | Gt => q + 1
  | Eq => if Z.even q then q else q + 1
  end.

(** [a / d] units, for positive [a] and [d], rounded to a significand of
    53 bits: below [2^53] units the step is one unit (the subnormal numbers
    and the first binade), above it the step is [2^s]. *)
Definition round_mag (a d : Z) : Z :=
  let s := Z.max (ilog2 a d - 52) 0 in
  rne a (d * 2 ^ s) * 2 ^ s.

(** The binary64 number nearest to [n / d] units, for positive [d]:
    round to nearest, ties to even, and an infinity from [2^1024] on. *)
Definition round_units (n d : Z) : float :=
  if n =? 0 then Fin 0
  else
    let k := round_mag (Z.abs n) d in
    if OVERFLOW <=? k then Inf (n <? 0) else Fin (Z.sgn n * k).

(** The binary64 number that a stored number reads as: itself when it is
    a binary64 number, the nearest one otherwise. *)
Definition of_Q (q : Q) : float :=
  round_units (Qnum q * ONE) (Zpos (Qden q)).

(** [x - y] *)
Definition fsub (x y : float) : float :=
  match x, y with
  | NaN, _ | _, NaN => NaN
  | Inf a, Inf b => if Bool.eqb a b then NaN else Inf a
  | Inf a, Fin _ => Inf a
  | Fin _, Inf b => Inf (negb b)
  | Fin a, Fin b => round_units (a - b) 1
  end.

(** [x / y]; [None] stands for the [ZeroDivisionError] that Python raises
    when [y] is a zero. *)
Definition fdiv (x y : float) : option float :=
  match y with
  | Fin 0 => None
  | NaN => Some NaN
  | Inf b =>
      match x with
      | Fin _ => Some (Fin 0)
      | _ => Some NaN
      end
  | Fin b =>
      match x with
      | NaN => Some NaN
      | Inf a => Some (Inf (xorb a (b <? 0)))
      | Fin a => Some (round_units (Z.sgn b * a * ONE) (Z.abs b))
      end
  end.

(** [x < y] *)
Definition fltb (x y : float) : bool :=
  match x, y with
  | NaN, _ | _, NaN => false
  | Inf a, Inf b => a && negb b
  | Inf a, Fin _ => a
  | Fin _, Inf b => negb b
  | Fin a, Fin b => a <? b
  end.

(** [x != y] *)
Definition fneb (x y : float) : bool :=
  match x, y with
  | NaN, _ | _, NaN => true
  | Inf a, Inf b => negb (Bool.eqb a b)
  | Fin a, Fin b => negb (a =? b)
  | _, _ => true
  end.

(** [max(x :: xs)] and [min(x :: xs)]: the first greatest and the first
    least element. *)
Fixpoint f_max (x : float) (xs : list float) : float :=
  match xs with
  | [] => x
  | y :: ys => f_max (if fltb x y then y else x) ys
  end.

Fixpoint f_min (x : float) (xs : list float) : float :=
  match xs with
  | [] => x
  | y :: ys => f_min (if fltb y x then y else x) ys
  end.

(** [(low_20, high_20, range_pos)] as lines 113 to 119 of
    [reports/generate_report.py] compute them. *)
Definition range_20 (c1 : float) (closes_20 : list float)
  : option (float * float * float) :=
  match closes_20 with
  | x :: xs =>
      let high_20 := f_max x xs in
      let low_20 := f_min x xs in
      if fneb high_20 low_20 then
        match fdiv (fsub c1 low_20) (fsub high_20 low_20) with
        | Some range_pos => Some (low_20, high_20, range_pos)
        | None => None
        end
      else Some (low_20, high_20, Fin HALF)
  | [] => Some (c1, c1, Fin HALF)
  end.

(** The range of a ticker: [c1] is [float(close)] of its newest row and
    [closes] are the closes of the window. *)
Definition range_of (c1 : Q) (closes : list Q)
  : option (float * float * float) :=
  range_20 (of_Q c1) (List.map of_Q closes).

(** A number and a number between 0 and 1. *)
Definition is_finite (x : float) : Prop :=
  match x with Fin _ => True | _ => False end.

Definition in_unit (x : float) : Prop :=
  match x with Fin k => 0 <= k <= ONE | _ => False end.

(** A number of [Floats.SpecFloat], the specification of IEEE 754
    arithmetic of the Standard Library, as a float of this model, and the
    binary64 number of that specification nearest to a whole number. *)
Definition of_spec (x : SpecFloat.spec_float) : float :=
  match x with
  | SpecFloat.S754_zero _ => Fin 0
  | SpecFloat.S754_infinity s => Inf s
  | SpecFloat.S754_nan => NaN
  | SpecFloat.S754_finite s m e =>
      Fin ((if s then -1 else 1) * Zpos m * 2 ^ (e + 1074))
  end.

Definition b64 (n : Z) : SpecFloat.spec_float :=
  SpecFloat.binary_normalize 53 1024 n 0 false.

(** The order of the floats that are numbers or infinities. *)
Definition not_nan (x : float) : Prop := x <> NaN.

Definition fle (x y : float) : Prop :=
  match x, y with
  | Fin a, Fin b => a <= b
  | Inf true, _ => y <> NaN
  | _, Inf false => x <> NaN
  | _, _ => False
  end.

(** A stored close that is not negative and reads as a number. *)
Definition plain_close (c : Q) : Prop :=
  (0 <= c)%Q /\ is_finite (of_Q c).

End F64.

(** * Vocabulary of the properties *)

Module Spec.
Import Fmt Parser.

(** ** Words for the parser *)

(** The title that the last [# ] line of [ls] gives. *)
Definition last_title (ls : list pystr) : pystr :=
  match last (List.filter (startswith P_H1) ls) with
  | Some l => strip (drop 2 l)
  | None => []
  end.

(** The title as the first [# ] line of [ls] gives it. *)
Definition first_title (ls : list pystr) : pystr :=
  match List.filter (startswith P_H1) ls with
  | l :: _ => strip (drop 2 l)
  | [] => []
  end.

(** The first text that is not empty among the [## ] lines of [ls]. *)
Definition first_meta (ls : list pystr) : pystr :=
  match List.filter (fun m => negb (is_empty m))
          (List.map (fun l => strip (drop 3 l))
             (List.filter (startswith P_H2) ls)) with
  | m :: _ => m
  | [] => []
  end.

(** The lines of [ls] that stand before its first [### ] line. *)
Fixpoint before_sections (ls : list pystr) : list pystr :=
  match ls with
  | [] => []
  | l :: ls' => if startswith P_H3 l then [] else l :: before_sections ls'
  end.

(** The meta line as the first [## ] line before any [### ] line gives
    it. *)
Definition meta_before_sections (ls : list pystr) : pystr :=
  match List.filter (startswith P_H2) (before_sections ls) with
  | l :: _ => strip (drop 3 l)
  | [] => []
  end.

(** The symbols that the [### ] lines of [ls] declare, in order. *)
Definition declared (ls : list pystr) : list pystr :=
  List.map (fun l => strip (drop 4 l)) (List.filter (startswith P_H3) ls).

(** Every section of a report is the last one of its symbol. *)
Definition last_declared_wins (r : Report) : Prop :=
  forall s, In s (sections r) ->
    last (List.filter (fun s' => bool_decide (ticker s' = ticker s))
            (sections r)) = Some s.

(** The sections of a state: the closed ones and the open one. *)
Definition all_sections (st : PState) : list Section :=
  sections (report st) ++ option_list (current st).

(** A line on which every test of the parser for the shape of a line
    fails: no header, no key/value prefix, no block header, no bullet. *)
Definition unknown_shape (l : pystr) : bool :=
  negb (startswith P_H1 l) && negb (startswith P_H2 l)
  && negb (startswith P_H3 l) && negb (startswith P_DATE l)
  && negb (startswith P_CLOSE l) && negb (startswith P_VOLUME l)
  && negb (startswith P_RANGE l) && negb (startswith P_NEWS l)
  && negb (startswith P_AI_SUMMARY l) && negb (startswith P_SUMMARY l)
  && negb (bullet_match 2 l) && negb (bullet_match 4 l).

(** The last test of the loop: a line that narrative mode takes as the
    continuation of a wrapped paragraph. *)
Definition continuation (l : pystr) : bool :=
  negb (is_empty (strip l)) && negb (startswith P_DASH l).

(** The mode in which the parser is after the lines [ls]. *)
Definition mode_after (ls : list pystr) : Mode :=
  match run init ls with
  | Ok st => mode st
  | Raise _ => MNone
  end.

(** ** Words for the generator *)

Import Gen.

(** The price rows of a ticker, newest first. *)
Definition rows_of (db : Store) (t : pystr) : list PriceRow :=
  List.filter (fun r => bool_decide (p_ticker r = t)) (prices db).

(** A price row that carries a close. *)
Definition has_close (r : PriceRow) : Prop := p_close r <> None.


(** The item that the first loop of [generate] makes of a row. *)
Definition item_of (r : PriceRow) : option Item :=
  match p_close r with
  | Some c => Some (p_date r, c, default 0%Z (p_volume r))
  | None => None
  end.

(** [latest_map] holds, for every ticker with rows, the items of its two
    newest rows, and no other key. *)
Definition latest_of (db : Store) (m : gmap pystr (list Item)) : Prop :=
  forall t, match rows_of db t with
            | [] => m !! t = None
            | rs => exists items, m !! t = Some items
                      /\ List.map Some items = List.map item_of (take 2 rs)
            end.

(** [latest_map] after the first loop, when the loop ends. *)
Definition latest_map_of (db : Store) : gmap pystr (list Item) :=
  match build ∅ (prices db) with
  | Ok m => m
  | Raise _ => ∅
  end.

(** The keys of [latest_map] in the order of the second loop. *)
Definition tickers_of (m : gmap pystr (list Item)) : list pystr :=
  sorted (List.map fst (map_to_list m)).

(** The lines of the iteration of the second loop for the ticker [t]. *)
Definition block_of (iso_minutes : pystr -> option pystr)
           (summarize : SummArgs -> Outcome) (db : Store)
           (m : gmap pystr (list Item)) (report_date t : pystr)
  : list pystr :=
  match m !! t with
  | Some ((d1, c1, v1) :: rest) =>
      block_lines iso_minutes summarize db report_date t d1 c1 v1 rest
  | _ => []
  end.

(** The lines [block] stand together in [lines]. *)
Definition has_block (lines block : list pystr) : Prop :=
  exists pre post, lines = pre ++ block ++ post.

(** The position of the first line of [lines] that starts with [p]. *)
Fixpoint index_of (p : pystr) (lines : list pystr) : option nat :=
  match lines with
  | [] => None
  | l :: ls => if startswith p l then Some O else S <$> index_of p ls
  end.

(** The order of the grammar of the specification: the [- Volume:] line,
    then the [- 20D Range:] line, then the [- News] line. *)
Definition grammar_order (lines : list pystr) : Prop :=
  exists i j k,
    index_of Parser.P_VOLUME lines = Some i
    /\ index_of Parser.P_RANGE lines = Some j
    /\ index_of Parser.P_NEWS lines = Some k
    /\ (i < j)%nat /\ (j < k)%nat.

(** ** The model of a report and its well-formed values *)

Definition T_TITLE : pystr := Eval cbv in lit "Daily Market Report (".
Definition T_NO_NEWS : pystr := Eval cbv in lit "(no recent news)".
Definition T_NEED_2 : pystr :=
  Eval cbv in lit "(need at least 2 trading days of price data)".
Definition T_ERROR : pystr := Eval cbv in lit "(Error: ".
Definition T_LOW : pystr := Eval cbv in lit "low ".

Definition U_SUMMARY : pystr := Eval cbv in lit "Summary:".

(** The report section of the data model of the specification (its
    section 3): a symbol, key/value display strings, news display items and
    a narrative. [generate] builds no such value and writes the lines at
    once; the model of a section holds the texts that [generate] writes
    after the markers of the grammar. *)
Definition model_news (n : NewsDict) : Parser.NewsItem :=
  Parser.mkNews
    (published_at n ++ S_BAR ++ source n ++ S_BAR ++ headline n)
    (summary n) (url n).

Definition range_text (rng : Q * Q * Q) : pystr :=
  T_LOW ++ fmt_2f (fst (fst rng)) ++ S_HIGH ++ fmt_2f (snd (fst rng))
    ++ S_POSITION ++ fmt_2f (snd rng).

Definition model_kv (d1 : pystr) (c1 : Q) (v1 : Z) (rest : list Item)
           (rng : Q * Q * Q) : gmap string pystr :=
  match rest with
  | (d0, c0, _) :: _ =>
      <["range" := range_text rng]>
        (<["volume" := fmt_comma v1]>
           (<["close" := fmt_2f c0 ++ S_ARROW ++ fmt_2f c1 ++ S_LPAREN
                           ++ fmt_signed_2f (pct_change c0 c1)
                           ++ S_PCT_RPAREN]>
              (<["date" := d0 ++ S_ARROW ++ d1]> ∅)))
  | [] => <["range" := range_text rng]> ∅
  end.

Definition model_ai (summarize : SummArgs -> Outcome) (pct : option Q)
           (args : Q -> SummArgs) : pystr :=
  match pct with
  | None => T_NEED_2
  | Some p =>
      match summarize (args p) with
      | Returned text => text
      | Raised msg => T_ERROR ++ msg ++ S_RPAREN
      end
  end.

Definition model_section (iso_minutes : pystr -> option pystr)
           (summarize : SummArgs -> Outcome) (db : Store)
           (m : gmap pystr (list Item)) (rd t : pystr) : Parser.Section :=
  match m !! t with
  | Some ((d1, c1, v1) :: rest) =>
      Parser.mkSection t
        (model_kv d1 c1 v1 rest (range_20 c1 (closes_20 db t)))
        (List.map model_news (news_items_of iso_minutes db t))
        (model_ai summarize (snd (prior d1 c1 rest))
           (summarize_args iso_minutes db rd t d1 c1 v1 rest))
  | _ => Parser.mkSection t ∅ [] []
  end.

(** Whitespace normalisation of a section: [strip] on every text. *)
Definition normalize_news (n : Parser.NewsItem) : Parser.NewsItem :=
  Parser.mkNews (strip (Parser.line n)) (strip (Parser.summary n))
                (strip (Parser.url n)).

Definition normalize (s : Parser.Section) : Parser.Section :=
  Parser.mkSection (strip (Parser.ticker s)) (strip <$> Parser.kv s)
                   (List.map normalize_news (Parser.news s))
                   (strip (Parser.ai s)).

(** A section without news gets the item of the line
    [(no recent news)]. *)
Definition with_placeholder (s : Parser.Section) : Parser.Section :=
  match Parser.news s with
  | [] => Parser.set_news [Parser.mkNews T_NO_NEWS [] []] s
  | _ => s
  end.

(** What the parser gets back of the section of a ticker. *)
Definition recovered (iso_minutes : pystr -> option pystr)
           (summarize : SummArgs -> Outcome) (db : Store)
           (m : gmap pystr (list Item)) (rd t : pystr) : Parser.Section :=
  normalize (with_placeholder (model_section iso_minutes summarize db m rd t)).

(** Field values that the line grammar can carry: no line break in a
    text, and a url that is empty or starts with [http://] or
    [https://]. *)
Definition wf_news (n : NewsDict) : Prop :=
  no_break (published_at n) /\ no_break (source n) /\ no_break (headline n)
  /\ no_break (summary n) /\ no_break (url n)
  /\ (url n = [] \/ Parser.is_url (url n) = true).

Definition wf_outcome (o : Outcome) : Prop :=
  match o with
  | Returned text => no_break text
  | Raised msg => no_break msg
  end.

Definition wf_block (iso_minutes : pystr -> option pystr)
           (summarize : SummArgs -> Outcome) (db : Store) (rd t : pystr)
           (items : list Item) : Prop :=
  match items with
  | (d1, c1, v1) :: rest =>
      no_break d1 /\
      match rest with
      | (d0, c0, _) :: _ =>
          no_break d0
          /\ wf_outcome
               (summarize (summarize_args iso_minutes db rd t d1 c1 v1 rest
                                          (pct_change c0 c1)))
      | [] => True
      end
  | [] => True
  end.

Definition well_formed (today : pystr) (iso_minutes : pystr -> option pystr)
           (summarize : SummArgs -> Outcome) (db : Store)
           (m : gmap pystr (list Item)) : Prop :=
  no_break today /\
  forall t items, m !! t = Some items ->
    no_break t
    /\ Forall wf_news (news_items_of iso_minutes db t)
    /\ wf_block iso_minutes summarize db (report_date_of today m) t items.





(** C2 as the specification states it, on the binary64 numbers of the
    code: the position lies between 0 and 1 when the high and the low of
    the window differ, and is 0.5 when they are equal. *)
Definition range_bounds_as_stated : Prop :=
  forall db m t d1 c1 v1 rest,
    build ∅ (prices db) = Ok m ->
    m !! t = Some ((d1, c1, v1) :: rest) ->
    exists low_20 high_20 range_pos,
      F64.range_of c1 (closes_20 db t) = Some (low_20, high_20, range_pos)
      /\ (high_20 <> low_20 -> F64.in_unit range_pos)
      /\ (high_20 = low_20 -> range_pos = F64.Fin F64.HALF).




(** ** Sample texts, stores and collaborators *)

Definition text_two_titles : pystr :=
  Eval cbv in lit "# A" ++ LF :: lit "# B".
Definition text_late_meta : pystr :=
  Eval cbv in lit "### X" ++ LF :: lit "## late".
Definition text_same_symbol : pystr :=
  Eval cbv in lit "### A" ++ LF :: lit "- Date: 1" ++ LF :: lit "### A"
                ++ LF :: lit "- Date: 2".
Definition text_narrative : pystr :=
  Eval cbv in lit "### A" ++ LF :: lit "- Summary:" ++ LF :: lit "  - x".
Definition text_next_block : pystr := Eval cbv in lit "### B".
Definition line_plain : pystr := Eval cbv in lit "foo".
Definition line_latest : pystr := Eval cbv in lit "- Latest: 1".

(** A store with two price rows of one ticker and no news. *)
Definition store_acme : Store :=
  mkStore
    [mkPrice (lit "ACME") (lit "2026-01-11") (Some (21 # 2)%Q)
             (Some 100000%Z);
     mkPrice (lit "ACME") (lit "2026-01-10") (Some (10 # 1)%Q) (Some 90000%Z)]
    (fun _ => []).

(** A store with one price row. *)
Definition store_single : Store :=
  mkStore
    [mkPrice (lit "ACME") (lit "2026-01-11") (Some (21 # 2)%Q)
             (Some 100000%Z)]
    (fun _ => []).

(** A store in which the prior close of [ZED] is zero. *)
Definition store_zero : Store :=
  mkStore
    [mkPrice (lit "ACME") (lit "2026-01-11") (Some (21 # 2)%Q)
             (Some 100000%Z);
     mkPrice (lit "ACME") (lit "2026-01-10") (Some (10 # 1)%Q) (Some 90000%Z);
     mkPrice (lit "ZED") (lit "2026-01-11") (Some (3 # 1)%Q) None;
     mkPrice (lit "ZED") (lit "2026-01-10") (Some 0%Q) (Some 7%Z)]
    (fun _ => []).

(** A store with two price rows and one news row of one ticker. *)
Definition store_news : Store :=
  mkStore
    [mkPrice (lit "ACME") (lit "2026-01-11") (Some (21 # 2)%Q)
             (Some 100000%Z);
     mkPrice (lit "ACME") (lit "2026-01-10") (Some (10 # 1)%Q) (Some 90000%Z)]
    (fun t =>
       if bool_decide (t = lit "ACME") then
         [mkNewsRow (Some (lit "2026-01-11T09:30:00"))
                    (Some (lit " Acme beats estimates "))
                    (Some (lit "Revenue up 12%: guidance raised"))
                    (Some (lit "Wire"))
                    (Some (lit "https://example.com/acme"))]
       else []).

(** A collaborator that fails for [ZED] and one that never fails. *)
Definition summarize_zed_fails (a : SummArgs) : Outcome :=
  if bool_decide (a_ticker a = lit "ZED") then Raised (lit "boom")
  else Returned (lit "Quiet session.").

Definition summarize_fine (a : SummArgs) : Outcome :=
  Returned (lit "Quiet session.").





(** A store with the closes [1e308] and [-1e308]. *)
Definition store_extreme : Store :=
  mkStore
    [mkPrice (lit "ACME") (lit "2026-01-11") (Some (Qmake (10 ^ 308) 1))
             (Some 100000%Z);
     mkPrice (lit "ACME") (lit "2026-01-10") (Some (Qmake (- 10 ^ 308) 1))
             (Some 90000%Z)]
    (fun _ => []).



(** A collaborator whose narrative has two lines. *)
Definition summarize_two_lines (a : SummArgs) : Outcome :=
  Returned (lit "Quiet session." ++ LF :: lit "### Outlook").

Definition iso_never (s : pystr) : option pystr := None.

Definition today_sample : pystr := Eval cbv in lit "2026-11-03".

End Spec.

(** ** Further methods of [str] *)

Module StrOps.

(** [s.replace(old, new)] for a pattern [old] that is not empty: the
    occurrences are taken from the left and do not overlap. [skip] counts
    the code points of a replaced occurrence that are still to be passed. *)
Fixpoint replace_from (old new : pystr) (skip : nat) (s : pystr) : pystr :=
  match s with
  | [] => []
  | c :: r =>
      match skip with
      | S k => replace_from old new k r
      | O =>
          if startswith old s
          then new ++ replace_from old new (length old - 1) r
          else c :: replace_from old new 0 r
      end
  end.

(** [s.replace(old, new)]; with an empty [old], [new] is put before every
    code point and at the end. *)
Definition replace (old new s : pystr) : pystr :=
  match old with
  | [] => new ++ flat_map (fun c => c :: new) s
  | _ :: _ => replace_from old new 0 s
  end.

(** [sub in s] *)
Fixpoint contains (sub s : pystr) : bool :=
  startswith sub s
  || match s with
     | [] => false
     | _ :: s' => contains sub s'
     end.

(** [s[i:]] *)
Definition slice_from (i : Z) (s : pystr) : pystr :=
  if (0 <=? i)%Z then drop (Z.to_nat i) s
  else drop (Z.to_nat (Z.of_nat (length s) + i)) s.

End StrOps.

(** ** The renderer of [tools/export_report_pdf.py] *)

Module Render.
Import Parser Fmt StrOps.

Definition E_AMP : pystr := Eval cbv in lit "&amp;".
Definition E_LT : pystr := Eval cbv in lit "&lt;".
Definition E_GT : pystr := Eval cbv in lit "&gt;".

(** [esc]: the three replacements, in the order of the code. *)
Definition esc (s : pystr) : pystr :=
  replace [62] E_GT (replace [60] E_LT (replace [38] E_AMP s)).

(** What [esc] puts for one code point. *)
Definition esc_char (c : N) : pystr :=
  if c =? 38 then E_AMP else if c =? 60 then E_LT
  else if c =? 62 then E_GT else [c].

(** The longest prefix without a slash, and what follows it. *)
Fixpoint until_slash (s : pystr) : pystr * pystr :=
  match s with
  | [] => ([], [])
  | c :: s' =>
      if c =? 47 then ([], s)
      else let '(d, p) := until_slash s' in (c :: d, p)
  end.

(** What the regular expression accepts after the slash of the path, up
    to the end anchor: a text without a newline, or with one newline that
    is its last code point. *)
Fixpoint dot_star_end (s : pystr) : bool :=
  match s with
  | [] => true
  | c :: s' => if c =? LF then is_empty s' else dot_star_end s'
  end.

(** The [re.match] of [short_url]: group 2 of the match, when there is
    one. The pattern is anchored at both ends and asks for a scheme,
    [http://] or [https://], then one or more code points other than a
    slash (group 2, greedy), then optionally a slash and code points other
    than a newline. Group 2 is thus every code point up to the first slash;
    what is left is empty, or a slash and a text that the rest accepts. *)
Definition url_domain (url : pystr) : option pystr :=
  let rest :=
    if startswith P_HTTP url then Some (drop 7 url)
    else if startswith P_HTTPS url then Some (drop 8 url)
    else None in
  match rest with
  | None => None
  | Some r =>
      let '(domain, path) := until_slash r in
      if is_empty domain then None
      else match path with
           | [] => Some domain
           | _ :: q => if dot_star_end q then Some domain else None
           end
  end.

(** The ellipsis U+2026. *)
Definition ELLIPSIS : N := 8230.

(** The first 60 code points of [url], and an ellipsis when [url] has
    more. *)
Definition cut_60 (url : pystr) : pystr :=
  take 60 url ++ (if (60 <? length url)%nat then [ELLIPSIS] else []).

(** [short_url(url, keep_tail)] *)
Definition short_url (url : pystr) (keep_tail : Z) : pystr :=
  let url := strip url in
  if is_empty url then []
  else
    match url_domain url with
    | None => cut_60 url
    | Some domain =>
        let tail :=
          if (keep_tail <? Z.of_nat (length url))%Z
          then slice_from (- keep_tail) url else url in
        domain ++ ELLIPSIS :: tail
    end.

(** The keys of the dict that [build_styles] returns. *)
Inductive Style :=
| St_title | St_meta | St_ticker | St_body | St_small | St_news_head
| St_news_item | St_news_summary | St_ai_head | St_ai_text.

(** A cell of a table, a text. *)
Inductive Cell :=
| CText (s : pystr).

(** A call of [Paragraph], as the text and the style that the renderer
    passes to it. The text is markup that reportlab reads when it builds
    the paragraph; that reading is no part of this model, which holds the
    calls that the code makes and the texts that it passes. *)
#[warnings="-register-all"] Inductive Flowable :=
| Paragraph (text : pystr) (style : Style).

Definition L_DATE : pystr := Eval cbv in lit "Date".
Definition L_CLOSE : pystr := Eval cbv in lit "Close".
Definition L_VOLUME : pystr := Eval cbv in lit "Volume".
Definition L_RANGE : pystr := Eval cbv in lit "20D Range".
Definition L_DOT : pystr := Eval cbv in lit ". ".
Definition L_I : pystr := Eval cbv in lit "<i>".
Definition L_I_END : pystr := Eval cbv in lit "</i>".
Definition L_LINK : pystr := Eval cbv in lit "<link href=".
Definition L_LINK_END : pystr := Eval cbv in lit "</link>".

(** The black square U+25A0 that the renderer removes. *)
Definition SQUARE : N := 9632.

(** [kv.get(k)] as the condition of an [if]: the value, when the key is
    there and its text is not empty. *)
Definition get_truthy (kv : gmap string pystr) (k : string) : option pystr :=
  match kv !! k with
  | Some v => if is_empty v then None else Some v
  | None => None
  end.

(** The list [data] that [kv_table] fills before it calls [Table]. *)
Definition kv_rows (kv : gmap string pystr) : list (list Cell) :=
  (match get_truthy kv "date" with
   | Some v => [[CText L_DATE; CText (esc v)]]
   | None => []
   end)
  ++ (match get_truthy kv "close" with
      | Some v => [[CText L_CLOSE; CText (esc v)]]
      | None => []
      end)
  ++ (match get_truthy kv "volume" with
      | Some v => [[CText L_VOLUME; CText (esc v)]]
      | None => []
      end)
  ++ (match get_truthy kv "range" with
      | Some v => [[CText L_RANGE; CText (esc (replace [SQUARE] [] v))]]
      | None => []
      end).

(** The text of the link of a news item with the stripped url [url]: the
    value of the f-string of line 371, with [show] of line 369. *)
Definition link_markup (url : pystr) : pystr :=
  L_LINK ++ [34] ++ esc url ++ [34; 62] ++ esc (short_url url 10)
    ++ L_LINK_END.

(** The calls of [Paragraph] for the news item number [i], in the order of
    the body of the loop of lines 354 to 373. *)
Definition news_paragraphs (i : N) (it : NewsItem) : list Flowable :=
  let head := replace [SQUARE] [] (replace [84] [32] (line it)) in
  let summ := strip (summary it) in
  let url := strip (url it) in
  [Paragraph (digits i ++ L_DOT ++ esc head) St_news_item]
  ++ (if is_empty summ then []
      else [Paragraph (L_I ++ esc summ ++ L_I_END) St_news_summary])
  ++ (if is_empty url then []
      else [Paragraph (link_markup url) St_news_summary]).

End Render.

(** ** Words for the values that the parser stores *)

Module Clean.
Import Parser.

(** A text without whitespace at its ends. *)
Definition stripped (s : pystr) : Prop := strip s = s.

(** A text that is empty or passes [is_url]. *)
Definition url_or_empty (s : pystr) : Prop := s = [] \/ is_url s = true.

(** The keys that the parser writes into [kv]. *)
Definition KEYS : list string := ["date"; "close"; "volume"; "range"]%string.

Definition clean_news (n : NewsItem) : Prop :=
  stripped (line n) /\ stripped (summary n) /\ stripped (url n)
  /\ url_or_empty (url n).

Definition clean_kv (kv : gmap string pystr) : Prop :=
  forall k v, kv !! k = Some v -> In k KEYS /\ stripped v.

Definition clean_section (s : Section) : Prop :=
  stripped (ticker s) /\ clean_kv (kv s) /\ Forall clean_news (news s).

Definition clean_report (r : Report) : Prop :=
  stripped (title r) /\ stripped (meta r)
  /\ Forall clean_section (sections r).

(** The invariant of the loop of [parse_report]. *)
Definition clean_state (st : PState) : Prop :=
  clean_report (report st)
  /\ match current st with
     | Some c => clean_section c
     | None => True
     end.

End Clean.

(** ** The narrative and its cache, [analysis/openai_summary.py] *)

Module Summ.
Import Fmt Gen StrOps.

(** [sep.join(parts)] *)
Fixpoint join (sep : pystr) (parts : list pystr) : pystr :=
  match parts with
  | [] => []
  | [p] => p
  | p :: rest => p ++ sep ++ join sep rest
  end.

(** The key of a row of [ai_summaries]: [(report_date, ticker, model)].
    The table has one row per key: the insertion of [save_summary] names
    these three columns in its [ON CONFLICT] clause. *)
Abbreviation Key := (pystr * pystr * pystr)%type.

(** The columns [summary], which may hold [NULL], and [created_at]. *)
Record CacheRow := mkCacheRow {
  c_summary : option pystr;
  c_created_at : pystr
}.

Abbreviation Cache := (gmap Key CacheRow).

(** [get_cached_summary]: [row[0] if row else None] *)
Definition get_cached_summary (tbl : Cache) (report_date ticker model : pystr)
  : option pystr :=
  match tbl !! (report_date, ticker, model) with
  | Some row => c_summary row
  | None => None
  end.

(** [save_summary]; [now] is the value of [_now_iso()]. *)
Definition save_summary (now : pystr) (tbl : Cache)
           (report_date ticker model summary : pystr) : Cache :=
  <[(report_date, ticker, model) := mkCacheRow (Some summary) now]> tbl.

(** [clear_ai_cache] *)
Definition clear_ai_cache (tbl : Cache) (report_date : pystr) : Cache :=
  filter (fun kv : Key * CacheRow => fst (fst (fst kv)) <> report_date) tbl.

Definition F_NO_NEWS : pystr :=
  Eval cbv in lit "(No recent company news content was provided.)".
Definition F_NEWS : pystr := Eval cbv in lit "[News ".
Definition F_BRACKET : pystr := Eval cbv in lit "]".
Definition F_TIME : pystr := Eval cbv in lit "Time: ".
Definition F_SOURCE : pystr := Eval cbv in lit "Source: ".
Definition F_HEADLINE : pystr := Eval cbv in lit "Headline: ".
Definition F_SUMMARY : pystr := Eval cbv in lit "Summary: ".
Definition F_URL : pystr := Eval cbv in lit "URL: ".
Definition F_UNKNOWN : pystr := Eval cbv in lit "(unknown)".
Definition F_MISSING : pystr := Eval cbv in lit "(missing)".

(** A line of a block: the label and the value, or the label and the
    text [other] when the value is empty. *)
Definition labelled (label value other : pystr) : pystr :=
  label ++ (if is_empty value then other else value).

(** The list [block] of the item number [i]. *)
Definition news_block_lines (i : N) (it : NewsDict) : list pystr :=
  [F_NEWS ++ digits i ++ F_BRACKET;
   labelled F_TIME (strip (published_at it)) F_UNKNOWN;
   labelled F_SOURCE (strip (source it)) F_UNKNOWN;
   labelled F_HEADLINE (strip (headline it)) F_MISSING;
   labelled F_SUMMARY (strip (summary it)) F_MISSING;
   labelled F_URL (strip (url it)) F_MISSING].

(** The list [blocks], for [enumerate(news_items, start=i)]. *)
Fixpoint news_blocks (i : N) (news_items : list NewsDict) : list pystr :=
  match news_items with
  | [] => []
  | it :: rest => join [LF] (news_block_lines i it) :: news_blocks (i + 1) rest
  end.

(** [_format_news_items] *)
Definition _format_news_items (news_items : option (list NewsDict)) : pystr :=
  match news_items with
  | None | Some [] => F_NO_NEWS
  | Some items => join [LF; LF] (news_blocks 1 items)
  end.

Definition R_NOT_PROVIDED : pystr :=
  Eval cbv in lit "20-trading-day context: (not provided)".
Definition R_CONTEXT : pystr := Eval cbv in lit "20-trading-day context:".
Definition R_LOW : pystr := Eval cbv in lit "- Range low: ".
Definition R_HIGH : pystr := Eval cbv in lit "- Range high: ".
Definition R_POS : pystr :=
  Eval cbv in lit "- Current position in range (0=low, 1=high): ".

(** The text of the prompt before the ticker, from the newline that opens
    the literal. *)
Definition PROMPT_HEAD : pystr := Eval cbv in
  [LF] ++
  lit "You are writing a concise daily market brief. Your job is to summarize *possible* drivers of the price move using ONLY:" ++
  [LF] ++
  lit "1) the provided price/volume data," ++ [LF] ++
  lit "2) the provided news headlines + summaries." ++ [LF] ++
  [LF] ++
  lit "Hard rules:" ++ [LF] ++
  lit "- Do NOT browse the web." ++ [LF] ++
  lit "- Do NOT invent catalysts not supported by the provided news content." ++
  [LF] ++
  lit "- Only use news that is directly relevant to the company" ++ [8217] ++
  lit "s business, products, earnings, regulation, or industry conditions." ++
  [LF] ++
  lit "- Ignore news that is generic market commentary, macro news, or not clearly related to this specific company." ++
  [LF] ++
  lit "- If the provided news does not clearly explain the move, explicitly say:" ++
  [LF] ++
  lit "  " ++ [34] ++ lit "No clear catalyst found in provided news." ++
  [34] ++ [LF] ++
  lit "- Prefer saying " ++ [34] ++ lit "No clear catalyst found" ++ [34] ++
  lit " rather than speculating." ++ [34] ++ [LF] ++
  [LF] ++
  lit "Stock: ".

(** The text of the prompt after the news, up to the newline that closes
    the literal. *)
Definition PROMPT_TAIL : pystr := Eval cbv in
  [LF] ++
  [LF] ++
  lit "Write 3" ++ [8211] ++ lit "6 sentences:" ++ [LF] ++
  lit "- Sentence 1: what happened (move + where it sits in the 20D range if available)." ++
  [LF] ++
  lit "- Sentence 2" ++ [8211] ++
  lit "4: connect the move to the provided news summaries (quote/paraphrase specifics)." ++
  [LF] ++
  lit "- Sentence 5: mention uncertainty if evidence is weak." ++ [LF] ++
  lit "- Final: " ++ [34] ++ lit "Watch next: ..." ++ [34] ++
  lit " (earnings/guidance/product/regulatory/etc.), but NO price prediction." ++
  [LF].

Definition PROMPT_MOVE : pystr := Eval cbv in [LF] ++ lit "Move: ".
Definition PROMPT_TO : pystr := Eval cbv in lit " -> ".
Definition PROMPT_CLOSE : pystr := Eval cbv in [LF] ++ lit "Close: ".
Definition PROMPT_VOLUME : pystr :=
  Eval cbv in lit "%)" ++ [LF] ++ lit "Volume (latest day): ".
Definition PROMPT_NEWS : pystr :=
  Eval cbv in [LF] ++ [LF] ++ lit "Provided news content:" ++ [LF].

(** The arguments of [build_prompt]. *)
Record PromptArgs := mkPrompt {
  b_ticker : pystr;
  b_d0 : pystr;
  b_d1 : pystr;
  b_c0 : Q;
  b_c1 : Q;
  b_pct : Q;
  b_volume : Z;
  b_range_low : option Q;
  b_range_high : option Q;
  b_range_pos : option Q;
  b_news_items : option (list NewsDict);
  b_headlines : option (list pystr)
}.

(** The news item that [build_prompt] makes of a headline. *)
Definition of_headline (h : pystr) : NewsDict := mkNewsDict [] [] h [] [].

(** [range_text] *)
Definition prompt_range (a : PromptArgs) : pystr :=
  match b_range_low a, b_range_high a, b_range_pos a with
  | Some low, Some high, Some pos =>
      R_CONTEXT ++ [LF] ++ R_LOW ++ fmt_2f low ++ [LF]
        ++ R_HIGH ++ fmt_2f high ++ [LF] ++ R_POS ++ fmt_2f pos
  | _, _, _ => R_NOT_PROVIDED
  end.

(** [news_items] after the first statement of [build_prompt]. *)
Definition prompt_news (a : PromptArgs) : option (list NewsDict) :=
  match b_news_items a, b_headlines a with
  | None, Some hs => Some (List.map of_headline hs)
  | items, _ => items
  end.

(** [build_prompt] *)
Definition build_prompt (a : PromptArgs) : pystr :=
  strip (PROMPT_HEAD ++ b_ticker a
           ++ PROMPT_MOVE ++ b_d0 a ++ PROMPT_TO ++ b_d1 a
           ++ PROMPT_CLOSE ++ fmt_2f (b_c0 a) ++ PROMPT_TO ++ fmt_2f (b_c1 a)
           ++ S_LPAREN ++ fmt_signed_2f (b_pct a)
           ++ PROMPT_VOLUME ++ fmt_comma (b_volume a)
           ++ [LF; LF] ++ prompt_range a
           ++ PROMPT_NEWS ++ _format_news_items (prompt_news a)
           ++ PROMPT_TAIL).

Section Summarize.

(** The constant [MODEL]. *)
Variable MODEL : pystr.

(** The request to the service: for a model and a prompt it gives the
    text [resp.choices[0].message.content], or raises. *)
Variable complete : pystr -> pystr -> Outcome.

(** The value of [_now_iso()] at the call of [save_summary]. *)
Variable now : pystr.

(** [summarize]: the table after the call, and what the call does. A
    cached text counts when it is not empty ([if cached:]). *)
Definition summarize (tbl : Cache) (report_date : pystr) (a : PromptArgs)
  : Cache * Outcome :=
  match get_cached_summary tbl report_date (b_ticker a) MODEL with
  | Some (c :: cs) => (tbl, Returned (c :: cs))
  | _ =>
      match complete MODEL (build_prompt a) with
      | Returned content =>
          let text := strip content in
          (save_summary now tbl report_date (b_ticker a) MODEL text,
           Returned text)
      | Raised msg => (tbl, Raised msg)
      end
  end.

End Summarize.

(** What [summarize] makes of the answer of the service when it asks. *)
Definition answered (o : Outcome) : Outcome :=
  match o with
  | Returned content => Returned (strip content)
  | Raised msg => Raised msg
  end.

(** The arguments with which [generate] calls [summarize]. *)
Definition prompt_args (a : SummArgs) : PromptArgs :=
  mkPrompt (a_ticker a) (a_d0 a) (a_d1 a) (a_c0 a) (a_c1 a) (a_pct a)
           (a_volume a) (Some (a_range_low a)) (Some (a_range_high a))
           (Some (a_range_pos a)) (Some (a_news_items a)) None.

(** ** Sample calls *)

Definition model_sample : pystr := Eval cbv in lit "gpt-5-mini".
Definition now_sample : pystr := Eval cbv in lit "2026-01-12T08:00:00+00:00".
Definition date_sample : pystr := Eval cbv in lit "2026-01-11".

Definition args_sample : PromptArgs :=
  mkPrompt (lit "ACME") (lit "2026-01-10") (lit "2026-01-11")
           (10 # 1)%Q (21 # 2)%Q (5 # 1)%Q 100000%Z
           (Some (10 # 1)%Q) (Some (21 # 2)%Q) (Some (1 # 1)%Q)
           (Some []) None.

(** A service that answers with a text, and one that answers with
    blanks. *)
Definition complete_text (model prompt : pystr) : Outcome :=
  Returned (lit " Quiet session. ").

Definition complete_blank (model prompt : pystr) : Outcome :=
  Returned (lit "  ").

(** A table that holds a summary for the sample call. *)
Definition cache_sample : Cache :=
  save_summary now_sample ∅ date_sample (lit "ACME") model_sample
               (lit "Quiet session.").

End Summ.

(** ** Sorted lists of strings *)

Module Order.
Import Gen.

(** Strictly ascending, in the order of the code points. *)
Definition ascending : list pystr -> Prop :=
  StronglySorted (fun a b => str_ltb a b = true).

(** Strictly descending. *)
Definition descending : list pystr -> Prop :=
  StronglySorted (fun a b => str_ltb b a = true).

End Order.

(** ** The price collector, [collector/fetch_prices.py] *)

Module Prices.
Import StrOps Gen.

(** [l[:n]] *)
Definition slice_to {A} (n : Z) (l : list A) : list A :=
  if (0 <=? n)%Z then take (Z.to_nat n) l
  else take (Z.to_nat (Z.of_nat (length l) + n)) l.

(** The JSON object of an answer of the service, by the keys that the
    code reads: the value under [Time Series (Daily)], an object from
    dates to objects of strings, when this key is there, and the strings
    under [Information] and [Note]. *)
Record Data := mkData {
  time_series : option (gmap pystr (gmap pystr pystr));
  information : option pystr;
  note : option pystr
}.

(** What the function does besides returning: it sends requests and
    sleeps. The printed messages are left out. *)
Inductive Event :=
| EvRequest
| EvSleep (seconds : N).

Definition T_PER_DAY : pystr := Eval cbv in lit "per day".
Definition T_DAILY : pystr := Eval cbv in lit "daily".

(** A value as the condition of an [if], or as the left operand of
    [or]: it counts when it is there and not empty. *)
Definition truthy (v : option pystr) : option pystr :=
  match v with
  | Some (c :: s) => Some (c :: s)
  | _ => None
  end.

(** [data.get("Information") or data.get("Note")], under [if info:] *)
Definition info_of (data : Data) : option pystr :=
  match truthy (information data) with
  | Some info => Some info
  | None => truthy (note data)
  end.

(** The loop [for attempt in range(max_retries)] from the attempt number
    [attempt] on, with [left] attempts to go. [request k] is the answer to
    the request number [k]; every attempt sends one request. *)
Fixpoint call_from (request : nat -> Data) (attempt left : nat)
  : list Event * option Data :=
  match left with
  | O => ([], None)
  | S left' =>
      let data := request attempt in
      match time_series data with
      | Some _ => ([EvRequest], Some data)
      | None =>
          match info_of data with
          | Some info =>
              if contains T_PER_DAY info || contains T_DAILY info
              then ([EvRequest], None)
              else
                let wait := 60 * (N.of_nat attempt + 1) in
                let '(events, r) := call_from request (S attempt) left' in
                (EvRequest :: EvSleep wait :: events, r)
          | None => ([EvRequest], None)
          end
      end
  end.

(** [_call_alpha_vantage(ticker, max_retries)] *)
Definition _call_alpha_vantage (request : nat -> Data) (max_retries : nat)
  : list Event * option Data :=
  call_from request 0 max_retries.

(** The number of requests and the seconds of sleep in a list of
    events. *)
Fixpoint requests_sent (events : list Event) : nat :=
  match events with
  | [] => O
  | EvRequest :: rest => S (requests_sent rest)
  | EvSleep _ :: rest => requests_sent rest
  end.

Fixpoint slept (events : list Event) : N :=
  match events with
  | [] => 0
  | EvRequest :: rest => slept rest
  | EvSleep s :: rest => s + slept rest
  end.

(** An answer after which the loop sleeps and tries again: no time
    series, and a note that names neither [per day] nor [daily]. *)
Definition rate_limited (data : Data) : bool :=
  match time_series data, info_of data with
  | None, Some info =>
      negb (contains T_PER_DAY info || contains T_DAILY info)
  | _, _ => false
  end.

(** The events of [k] attempts that each end in a sleep, from the attempt
    number [i] on. *)
Fixpoint retries (i k : nat) : list Event :=
  match k with
  | O => []
  | S k' =>
      EvRequest :: EvSleep (60 * (N.of_nat i + 1)) :: retries (S i) k'
  end.

(** The exceptions of [fetch_last_n_days]. *)
Inductive exn := AttributeError | KeyError | ValueError.

(** A record of [fetch_last_n_days]. *)
Record PriceRecord := mkRecord {
  f_ticker : pystr;
  f_date : pystr;
  f_open : Q;
  f_high : Q;
  f_low : Q;
  f_close : Q;
  f_volume : Z;
  f_source : pystr
}.

Definition K_OPEN : pystr := Eval cbv in lit "1. open".
Definition K_HIGH : pystr := Eval cbv in lit "2. high".
Definition K_LOW : pystr := Eval cbv in lit "3. low".
Definition K_CLOSE : pystr := Eval cbv in lit "4. close".
Definition K_VOLUME : pystr := Eval cbv in lit "5. volume".
Definition T_ALPHAVANTAGE : pystr := Eval cbv in lit "alphavantage".

Section Fetch.

(** [float(s)] and [int(s)] on a string: the number, or [None] when the
    call raises [ValueError]. *)
Variable float_of_str : pystr -> option Q.
Variable int_of_str : pystr -> option Z.

(** [float(x[k])] *)
Definition float_at (x : gmap pystr pystr) (k : pystr) : exn + Q :=
  match x !! k with
  | None => inl KeyError
  | Some s =>
      match float_of_str s with
      | Some q => inr q
      | None => inl ValueError
      end
  end.

(** [int(x[k])] *)
Definition int_at (x : gmap pystr pystr) (k : pystr) : exn + Z :=
  match x !! k with
  | None => inl KeyError
  | Some s =>
      match int_of_str s with
      | Some z => inr z
      | None => inl ValueError
      end
  end.

(** The dict that is appended for the date [d]; the values are computed
    in the order of the keys of the literal. *)
Definition record_of (ticker : pystr) (ts : gmap pystr (gmap pystr pystr))
           (d : pystr) : exn + PriceRecord :=
  match ts !! d with
  | None => inl KeyError
  | Some x =>
      match float_at x K_OPEN with
      | inl e => inl e
      | inr o =>
      match float_at x K_HIGH with
      | inl e => inl e
      | inr h =>
      match float_at x K_LOW with
      | inl e => inl e
      | inr l =>
      match float_at x K_CLOSE with
      | inl e => inl e
      | inr c =>
      match int_at x K_VOLUME with
      | inl e => inl e
      | inr v => inr (mkRecord ticker d o h l c v T_ALPHAVANTAGE)
      end end end end end
  end.

(** The loop [for d in dates]. *)
Fixpoint records_of (ticker : pystr) (ts : gmap pystr (gmap pystr pystr))
         (dates : list pystr) : exn + list PriceRecord :=
  match dates with
  | [] => inr []
  | d :: rest =>
      match record_of ticker ts d with
      | inl e => inl e
      | inr r =>
          match records_of ticker ts rest with
          | inl e => inl e
          | inr rs => inr (r :: rs)
          end
      end
  end.

(** [sorted(ts.keys(), reverse=True)[:n]] *)
Definition newest_dates (ts : gmap pystr (gmap pystr pystr)) (n : Z)
  : list pystr :=
  slice_to n (rev (sorted (List.map fst (map_to_list ts)))).

(** [fetch_last_n_days(ticker, n)]: the events of the call of
    [_call_alpha_vantage], which has the default [max_retries] of 3, and
    the records or the exception. *)
Definition fetch_last_n_days (request : nat -> Data) (ticker : pystr)
           (n : Z) : list Event * (exn + list PriceRecord) :=
  let '(events, data) := _call_alpha_vantage request 3 in
  (events,
   match data with
   | None => inl AttributeError
   | Some data =>
       let ts := default ∅ (time_series data) in
       if bool_decide (ts = ∅) then inr []
       else records_of ticker ts (newest_dates ts n)
   end).

End Fetch.

(** ** Sample answers *)

Definition data_rate_limit : Data :=
  mkData None None (Some (lit "Thank you for using our service: 5 calls per minute")).

Definition data_quota : Data :=
  mkData None (Some (lit "The limit is 25 requests per day")) None.

Definition data_one_day : Data :=
  mkData (Some {[ lit "2026-01-11" :=
                    {[ K_OPEN := lit "10.0"; K_HIGH := lit "11.0";
                       K_LOW := lit "9.5"; K_CLOSE := lit "10.5";
                       K_VOLUME := lit "100000" ]} ]})
         None None.

(** Number parsers for the strings of the sample. *)
Definition float_sample (s : pystr) : option Q :=
  if bool_decide (s = lit "10.0") then Some (10 # 1)%Q
  else if bool_decide (s = lit "11.0") then Some (11 # 1)%Q
  else if bool_decide (s = lit "9.5") then Some (19 # 2)%Q
  else if bool_decide (s = lit "10.5") then Some (21 # 2)%Q
  else None.

Definition int_sample (s : pystr) : option Z :=
  if bool_decide (s = lit "100000") then Some 100000%Z else None.

End Prices.

(** ** The date of the newest price row *)

Module Latest.
Import Gen Spec.

(** [get_latest_report_date]: the value of [SELECT MAX(date) FROM
    prices_daily], which is [None] for a table without rows. The dates are
    texts, compared as the code points of their characters. *)
Definition get_latest_report_date (db : Store) : option pystr :=
  match List.map p_date (prices db) with
  | [] => None
  | d :: ds => Some (str_max d ds)
  end.

(** The rows of every ticker stand newest first, as [ORDER BY ticker,
    date DESC] returns them: no row has a date before the date of a row
    after it. *)
Definition newest_first (db : Store) : Prop :=
  forall t, StronglySorted (fun a b => str_ltb a b = false)
              (List.map p_date (rows_of db t)).

(** A store without rows, and one whose only row has no close. *)
Definition store_empty : Store := mkStore [] (fun _ => []).


End Latest.

(** * Properties *)

(** ** Strings *)

Section StringFacts.

Lemma startswith_app (p s : pystr) : startswith p (p ++ s) = true.
Proof.
  induction p as [|a p IH]; simpl; [done|].
  by rewrite N.eqb_refl, IH.
Qed.

Lemma startswith_true (p s : pystr) :
  startswith p s = true <-> exists r, s = p ++ r.
Proof.
  split.
  - revert s. induction p as [|a p IH]; intros s H; simpl in *.
    + by exists s.
    + destruct s as [|b s]; [done|].
      apply andb_true_iff in H as [Hab Hps].
      apply N.eqb_eq in Hab as ->.
      destruct (IH _ Hps) as [r ->]. by exists r.
  - intros [r ->]. apply startswith_app.
Qed.

(** A prefix with a colon leaves something after the first colon. *)
Lemma after_first_startswith (p s : pystr) :
  startswith p s = true -> In 58 p -> is_Some (after_first 58 s).
Proof.
  revert s. induction p as [|a p IH]; intros s H Hin; [done|].
  destruct s as [|b s]; [done|]. simpl in *.
  apply andb_true_iff in H as [Hab Hps].
  apply N.eqb_eq in Hab as ->.
  destruct (N.eqb_spec b 58) as [->|Hne]; [by eexists|].
  destruct Hin as [->|Hin]; [done|]. by apply IH.
Qed.

Lemma eq_nocase_colon (c : N) : eq_nocase c 58 = true -> c = 58.
Proof.
  unfold eq_nocase. intros H.
  apply orb_true_iff in H as [H|H]; [by apply N.eqb_eq|].
  apply andb_true_iff in H as [H1 H2].
  apply andb_true_iff in H1 as [H0 H1].
  apply N.leb_le in H0. apply N.eqb_eq in H2. lia.
Qed.

Lemma after_first_startswith_nocase (p s : pystr) :
  startswith_nocase p s = true -> In 58 p -> is_Some (after_first 58 s).
Proof.
  revert s. induction p as [|a p IH]; intros s H Hin; [done|].
  destruct s as [|b s]; [done|]. simpl in *.
  apply andb_true_iff in H as [Hab Hps].
  destruct (N.eqb_spec b 58) as [->|Hne]; [by eexists|].
  destruct Hin as [->|Hin]; [|by apply IH].
  by apply eq_nocase_colon in Hab.
Qed.

Lemma split_colon_1_startswith (p s : pystr) :
  startswith p s = true -> In 58 p -> exists v, split_colon_1 s = Ok v.
Proof.
  intros H Hin. unfold split_colon_1.
  destruct (after_first_startswith p s H Hin) as [v ->]. by exists v.
Qed.

Lemma is_linebreak_CR c : (c =? CR) = true -> is_linebreak c = true.
Proof. intros H%N.eqb_eq. by subst. Qed.

Lemma splitlines_from_line l : forall cur rest,
  no_break l ->
  splitlines_from cur (l ++ LF :: rest) = (rev cur ++ l) :: splitlines_from [] rest.
Proof.
  induction l as [|c l IH]; intros cur rest Hl.
  - simpl. by rewrite app_nil_r.
  - inversion Hl as [|? ? Hc Hl']; subst. simpl.
    destruct (c =? CR) eqn:E; [apply is_linebreak_CR in E; congruence|].
    rewrite Hc, IH by done. simpl. by rewrite <- app_assoc.
Qed.

Lemma splitlines_from_last l : forall cur,
  no_break l ->
  splitlines_from cur l = match rev cur ++ l with [] => [] | s => [s] end.
Proof.
  induction l as [|c l IH]; intros cur Hl.
  - simpl. rewrite app_nil_r. destruct cur as [|a cur]; [done|].
    simpl. destruct (rev cur ++ [a]) eqn:E; [|done]. by destruct (rev cur).
  - inversion Hl as [|? ? Hc Hl']; subst. simpl.
    destruct (c =? CR) eqn:E; [apply is_linebreak_CR in E; congruence|].
    rewrite Hc, IH by done. simpl. by rewrite <- app_assoc.
Qed.

Lemma splitlines_from_cons cur c s :
  splitlines_from cur (c :: s) =
    if c =? CR then
      match s with
      | c' :: s'' =>
          if c' =? LF then rev cur :: splitlines_from [] s''
          else rev cur :: splitlines_from [] s
      | [] => rev cur :: splitlines_from [] s
      end
    else if is_linebreak c then rev cur :: splitlines_from [] s
    else splitlines_from (c :: cur) s.
Proof. done. Qed.

Lemma splitlines_from_app_nl_len n : forall a cur rest,
  (length a <= n)%nat ->
  splitlines_from cur (a ++ LF :: rest)
  = splitlines_from cur (a ++ [LF]) ++ splitlines_from [] rest.
Proof.
  induction n as [|n IH]; intros a cur rest Hn.
  - destruct a; [done|simpl in Hn; lia].
  - destruct a as [|c a]; [done|]. simpl in Hn.
    rewrite <- !app_comm_cons, !splitlines_from_cons.
    destruct (c =? CR).
    + destruct a as [|c' a].
      * done.
      * rewrite <- !app_comm_cons. simpl in Hn. destruct (c' =? LF).
        -- rewrite (IH a) by lia. done.
        -- rewrite !app_comm_cons, (IH (c' :: a)) by (simpl; lia). done.
    + destruct (is_linebreak c).
      * rewrite (IH a) by lia. done.
      * rewrite (IH a) by lia. done.
Qed.

Lemma splitlines_app_nl a rest :
  splitlines (a ++ LF :: rest) = splitlines (a ++ [LF]) ++ splitlines rest.
Proof. apply (splitlines_from_app_nl_len (length a)). lia. Qed.

Lemma splitlines_from_no_break_len n : forall s cur,
  (length s <= n)%nat -> no_break cur ->
  Forall no_break (splitlines_from cur s).
Proof.
  assert (Hnil : forall cur, no_break cur -> Forall no_break (splitlines_from cur [])).
  { intros cur Hcur. simpl. destruct cur; [constructor|].
    repeat constructor. by apply Forall_rev. }
  induction n as [|n IH]; intros s cur Hn Hcur.
  - destruct s; [|simpl in Hn; lia]. by apply Hnil.
  - destruct s as [|c s]; [by apply Hnil|]. simpl in Hn.
    assert (Hrev : no_break (rev cur)) by by apply Forall_rev.
    rewrite splitlines_from_cons.
    destruct (c =? CR).
    + destruct s as [|c' s]; simpl in Hn.
      * constructor; [done|]. apply Hnil; constructor.
      * destruct (c' =? LF); (constructor; [done|]);
          apply IH; simpl; try lia; constructor.
    + destruct (is_linebreak c) eqn:E.
      * constructor; [done|]. apply IH; [lia|constructor].
      * apply IH; [lia|]. by constructor.
Qed.

Lemma splitlines_no_break s : Forall no_break (splitlines s).
Proof. apply (splitlines_from_no_break_len (length s)); [lia|constructor]. Qed.

Lemma lstrip_nl_id s : match s with c :: _ => c <> LF | [] => True end -> lstrip_nl s = s.
Proof. destruct s as [|c s]; [done|]. simpl. intros H. by destruct (N.eqb_spec c LF). Qed.

Lemma rstrip_nl_no_break l : no_break l -> rstrip_nl l = l.
Proof.
  intros H. unfold rstrip_nl. rewrite lstrip_nl_id; [apply rev_involutive|].
  apply Forall_rev in H. destruct (rev l) as [|c r]; [done|].
  inversion H; subst. intros ->. done.
Qed.

Lemma splitlines_from_prefix p : forall cur b,
  no_break p -> splitlines_from cur (p ++ b) = splitlines_from (rev p ++ cur) b.
Proof.
  induction p as [|c p IH]; intros cur b Hp; [done|].
  inversion Hp as [|? ? Hc Hp']; subst.
  rewrite <- app_comm_cons, splitlines_from_cons.
  destruct (c =? CR) eqn:E; [apply is_linebreak_CR in E; congruence|].
  rewrite Hc, IH by done. simpl. by rewrite <- app_assoc.
Qed.

Lemma splitlines_from_nonempty b : forall cur,
  cur <> [] -> exists l0 rest, splitlines_from cur b = (rev cur ++ l0) :: rest.
Proof.
  induction b as [|c b IH]; intros cur Hcur.
  - exists [], []. simpl. rewrite app_nil_r. by destruct cur.
  - rewrite splitlines_from_cons.
    destruct (c =? CR).
    { destruct b as [|c' b]; [|destruct (c' =? LF)];
        eexists [], _; by rewrite app_nil_r. }
    destruct (is_linebreak c).
    { eexists [], _; by rewrite app_nil_r. }
    destruct (IH (c :: cur)) as (l0 & rest & ->); [done|].
    exists (c :: l0), rest. simpl. by rewrite <- app_assoc.
Qed.

Lemma lstrip_app a b :
  lstrip (a ++ b) = match lstrip a with [] => lstrip b | r => r ++ b end.
Proof.
  induction a as [|c a IH]; simpl; [by destruct (lstrip b)|].
  destruct (is_space c); [apply IH|done].
Qed.

Lemma lstrip_idemp s : lstrip (lstrip s) = lstrip s.
Proof.
  induction s as [|c s IH]; simpl; [done|].
  destruct (is_space c) eqn:E; [done|]. simpl. by rewrite E.
Qed.

Lemma rstrip_cons c s :
  rstrip (c :: s) =
    if is_space c && is_empty (rstrip s) then [] else c :: rstrip s.
Proof.
  unfold rstrip. simpl. rewrite lstrip_app.
  destruct (lstrip (rev s)) as [|x r] eqn:E; simpl.
  - destruct (is_space c); done.
  - rewrite rev_app_distr. simpl.
    replace (is_empty (rev r ++ [x])) with false by (by destruct (rev r)).
    by rewrite andb_false_r.
Qed.

Lemma rstrip_nil : rstrip [] = [].
Proof. done. Qed.

Lemma lstrip_rstrip s : lstrip (rstrip s) = rstrip (lstrip s).
Proof.
  induction s as [|c s IH]; [done|].
  rewrite rstrip_cons. simpl lstrip at 2.
  destruct (is_space c) eqn:E; simpl.
  - destruct (rstrip s) as [|x r] eqn:Er; simpl.
    + by rewrite <- IH.
    + rewrite E. by rewrite <- IH.
  - by rewrite E, rstrip_cons, E.
Qed.

Lemma rstrip_idemp s : rstrip (rstrip s) = rstrip s.
Proof.
  unfold rstrip. by rewrite rev_involutive, lstrip_idemp.
Qed.

Lemma strip_lstrip s : strip (lstrip s) = strip s.
Proof. unfold strip. by rewrite lstrip_idemp. Qed.

Lemma strip_rstrip s : strip (rstrip s) = strip s.
Proof. unfold strip. by rewrite lstrip_rstrip, rstrip_idemp. Qed.

Lemma strip_idemp s : strip (strip s) = strip s.
Proof. unfold strip at 2. by rewrite strip_rstrip, strip_lstrip. Qed.

Lemma strip_space s : strip (32 :: s) = strip s.
Proof. done. Qed.

(** [strip] after a prefix whose first and last characters are not
    spaces. *)
Lemma rstrip_app_keep p x :
  (match rev p with c :: _ => is_space c = false | [] => False end) ->
  rstrip (p ++ x) = p ++ rstrip x.
Proof.
  intros Hp. unfold rstrip. rewrite rev_app_distr, lstrip_app.
  destruct (rev p) as [|c r] eqn:E; [done|].
  assert (Hl : lstrip (c :: r) = c :: r) by (simpl; by rewrite Hp).
  destruct (lstrip (rev x)) as [|y l]; rewrite ?Hl.
  - rewrite <- E, rev_involutive. simpl. by rewrite app_nil_r.
  - rewrite rev_app_distr, <- E, rev_involutive. done.
Qed.

Lemma no_break_app a b : no_break a -> no_break b -> no_break (a ++ b).
Proof. apply Forall_app_2. Qed.

Lemma no_break_lstrip s : no_break s -> no_break (lstrip s).
Proof.
  induction 1 as [|c s Hc Hs IH]; simpl; [constructor|].
  destruct (is_space c); [done|by constructor].
Qed.

Lemma no_break_strip s : no_break s -> no_break (strip s).
Proof.
  intros H. unfold strip, rstrip.
  by apply Forall_rev, no_break_lstrip, Forall_rev, no_break_lstrip.
Qed.

End StringFacts.

(** ** Formatted numbers hold no line break *)

Module FmtFacts.
Import Fmt.

Lemma digits_of_uint_no_break d : no_break (digits_of_uint d).
Proof. induction d; simpl; by constructor. Qed.

Lemma digits_no_break n : no_break (digits n).
Proof. apply digits_of_uint_no_break. Qed.

Lemma is_linebreak_ascii c : 30 < c -> c < 133 -> is_linebreak c = false.
Proof.
  intros H1 H2. unfold is_linebreak.
  repeat match goal with
  | |- context [?a <=? ?b] => destruct (N.leb_spec a b)
  | |- context [?a =? ?b] => destruct (N.eqb_spec a b)
  end; simpl; try done; lia.
Qed.

Lemma two_digits_no_break n : n < 100 -> no_break (two_digits n).
Proof.
  intros H. unfold two_digits.
  assert (n / 10 < 10) by (apply N.Div0.div_lt_upper_bound; lia).
  assert (n mod 10 < 10) by (apply N.mod_lt; lia).
  generalize dependent (n / 10). generalize dependent (n mod 10).
  intros a Ha b Hb.
  constructor; [apply is_linebreak_ascii; lia|].
  constructor; [apply is_linebreak_ascii; lia|constructor].
Qed.

Lemma unsigned_2f_no_break q : no_break (unsigned_2f q).
Proof.
  unfold unsigned_2f. apply no_break_app; [apply digits_no_break|].
  constructor; [done|]. apply two_digits_no_break.
  apply N.mod_lt. lia.
Qed.

Lemma fmt_2f_no_break q : no_break (fmt_2f q).
Proof.
  unfold fmt_2f. apply no_break_app; [|apply unsigned_2f_no_break].
  destruct (_ <? _)%Z; by repeat constructor.
Qed.

Lemma fmt_signed_2f_no_break q : no_break (fmt_signed_2f q).
Proof.
  unfold fmt_signed_2f. constructor; [|apply unsigned_2f_no_break].
  by destruct (_ <? _)%Z.
Qed.

Lemma commas_step a b c d ds :
  commas (a :: b :: c :: d :: ds) = a :: b :: c :: 44 :: commas (d :: ds).
Proof. done. Qed.

Lemma commas_no_break_len n : forall ds,
  (length ds <= n)%nat -> no_break ds -> no_break (commas ds).
Proof.
  induction n as [|n IH]; intros ds Hn Hds.
  - destruct ds; [done|simpl in Hn; lia].
  - destruct ds as [|a [|b [|c [|d ds]]]]; try done.
    inversion Hds as [|? ? Ha Hds1]; subst.
    inversion Hds1 as [|? ? Hb Hds2]; subst.
    inversion Hds2 as [|? ? Hc Hds3]; subst.
    rewrite commas_step. repeat (constructor; [done|]).
    apply IH; [simpl in *; lia|done].
Qed.

Lemma fmt_comma_no_break z : no_break (fmt_comma z).
Proof.
  unfold fmt_comma. apply no_break_app.
  - destruct (_ <? _)%Z; by repeat constructor.
  - apply Forall_rev. eapply commas_no_break_len; [done|].
    apply Forall_rev, digits_no_break.
Qed.

End FmtFacts.

Arguments startswith : simpl never.
Arguments strip : simpl never.
Arguments rstrip_nl : simpl never.
Arguments bullet_match : simpl never.
Arguments bullet_sub : simpl never.
Arguments Parser.is_url : simpl never.
Arguments Parser.lower_startswith_summary : simpl never.
Arguments split_colon_1 : simpl never.

(** ** The steps of the parser *)

Module ParserFacts.
Import Parser Spec.

Lemma flush_title r c : title (flush r c) = title r.
Proof. by destruct c. Qed.

Lemma flush_meta r c : meta (flush r c) = meta r.
Proof. by destruct c. Qed.

Lemma flush_sections r c : sections (flush r c) = sections r ++ option_list c.
Proof. destruct c; simpl; [done|by rewrite app_nil_r]. Qed.

Lemma run_app a : forall st b,
  run st (a ++ b) = rbind (run st a) (fun st' => run st' b).
Proof.
  induction a as [|l a IH]; intros st b; simpl; [done|].
  destruct (step st l) as [st'|e]; simpl; [apply IH|done].
Qed.

(** A line header excludes the two shorter ones. *)
Lemma H1_not_H2 l : startswith P_H1 l = true -> startswith P_H2 l = false.
Proof. intros [r ->]%startswith_true. done. Qed.

Lemma H1_not_H3 l : startswith P_H1 l = true -> startswith P_H3 l = false.
Proof. intros [r ->]%startswith_true. done. Qed.

Lemma H2_not_H3 l : startswith P_H2 l = true -> startswith P_H3 l = false.
Proof. intros [r ->]%startswith_true. done. Qed.

Ltac step_cases H :=
  unfold step, kv_line, rbind in H;
  repeat case_match; simplify_eq/=.

Lemma step_title st l st' :
  step st l = Ok st' ->
  title (report st') =
    if startswith P_H1 (rstrip_nl l) then strip (drop 2 (rstrip_nl l))
    else title (report st).
Proof. intros H. step_cases H; rewrite ?flush_title; done. Qed.

Lemma step_meta st l st' :
  step st l = Ok st' ->
  meta (report st') =
    if startswith P_H1 (rstrip_nl l) then meta (report st)
    else if is_empty (meta (report st)) && startswith P_H2 (rstrip_nl l)
         then strip (drop 3 (rstrip_nl l))
         else meta (report st).
Proof. intros H. step_cases H; rewrite ?flush_meta; done. Qed.

Lemma step_tickers st l st' :
  step st l = Ok st' ->
  List.map ticker (all_sections st') =
    List.map ticker (all_sections st) ++
    (if startswith P_H1 (rstrip_nl l) then []
     else if is_empty (meta (report st)) && startswith P_H2 (rstrip_nl l)
          then []
          else if startswith P_H3 (rstrip_nl l)
               then [strip (drop 4 (rstrip_nl l))] else []).
Proof.
  intros H. unfold all_sections. destruct st as [rep cur m ln].
  step_cases H; rewrite ?flush_sections, ?app_nil_r; try done.
  all: rewrite ?List.map_app; simpl; try done.
  all: try (rewrite <- ?app_assoc; done).
Qed.

Lemma run_title ls : forall st st',
  Forall no_break ls -> run st ls = Ok st' ->
  title (report st') =
    match last (List.filter (startswith P_H1) ls) with
    | Some l => strip (drop 2 l)
    | None => title (report st)
    end.
Proof.
  induction ls as [|l ls IH]; intros st st' Hnb Hrun; simpl in *.
  - by simplify_eq.
  - inversion Hnb as [|? ? Hl Hls]; subst.
    destruct (step st l) as [st1|] eqn:Hstep; [|done]. simpl in Hrun.
    rewrite (IH _ _ Hls Hrun), (step_title _ _ _ Hstep).
    rewrite (rstrip_nl_no_break _ Hl).
    destruct (startswith P_H1 l); simpl; [|done].
    rewrite last_cons. by destruct (last _).
Qed.

Lemma run_meta ls : forall st st',
  Forall no_break ls -> run st ls = Ok st' ->
  meta (report st') =
    if is_empty (meta (report st)) then first_meta ls else meta (report st).
Proof.
  induction ls as [|l ls IH]; intros st st' Hnb Hrun; simpl in *.
  - simplify_eq. unfold first_meta. simpl. by destruct (meta _).
  - inversion Hnb as [|? ? Hl Hls]; subst.
    destruct (step st l) as [st1|] eqn:Hstep; [|done]. simpl in Hrun.
    rewrite (IH _ _ Hls Hrun), (step_meta _ _ _ Hstep).
    rewrite (rstrip_nl_no_break _ Hl). unfold first_meta. simpl.
    destruct (startswith P_H1 l) eqn:E1.
    { by rewrite (H1_not_H2 _ E1). }
    destruct (startswith P_H2 l) eqn:E2; simpl.
    + destruct (is_empty (meta (report st))) eqn:Em; simpl; [|by rewrite Em].
      by destruct (is_empty (strip (drop 3 l))).
    + by rewrite andb_false_r.
Qed.

Lemma run_tickers ls : forall st st',
  Forall no_break ls -> run st ls = Ok st' ->
  List.map ticker (all_sections st') =
    List.map ticker (all_sections st) ++ declared ls.
Proof.
  induction ls as [|l ls IH]; intros st st' Hnb Hrun; simpl in *.
  - simplify_eq. by rewrite app_nil_r.
  - inversion Hnb as [|? ? Hl Hls]; subst.
    destruct (step st l) as [st1|] eqn:Hstep; [|done]. simpl in Hrun.
    rewrite (IH _ _ Hls Hrun), (step_tickers _ _ _ Hstep).
    rewrite (rstrip_nl_no_break _ Hl), <- app_assoc. f_equal.
    unfold declared. simpl.
    destruct (startswith P_H1 l) eqn:E1.
    { by rewrite (H1_not_H3 _ E1). }
    destruct (startswith P_H2 l) eqn:E2.
    { rewrite (H2_not_H3 _ E2). by destruct (_ && _). }
    rewrite andb_false_r. by destruct (startswith P_H3 l).
Qed.

Lemma finish_sections st : sections (finish st) = all_sections st.
Proof. apply flush_sections. Qed.

Lemma step_unknown st l :
  no_break l -> unknown_shape l = true ->
  continuation l = false \/ mode st <> MAi ->
  step st l = Ok st.
Proof.
  intros Hnb Hu Hc. unfold unknown_shape in Hu.
  repeat (apply andb_true_iff in Hu as [Hu ?]).
  repeat match goal with H : negb _ = true |- _ =>
    apply negb_true_iff in H end.
  unfold step. rewrite (rstrip_nl_no_break _ Hnb).
  repeat match goal with H : _ = false |- _ => rewrite H end.
  rewrite ?andb_false_r. simpl.
  destruct st as [rep [cur|] m ln]; simpl in *; [|done].
  destruct Hc as [Hc|Hc].
  - unfold continuation in Hc. rewrite <- andb_assoc, Hc.
    by rewrite andb_false_r.
  - by destruct m.
Qed.

Lemma step_sections_prefix st l st' :
  step st l = Ok st' -> sections (report st) `prefix_of` sections (report st').
Proof.
  intros H. destruct st as [rep cur m ln].
  step_cases H; try done; rewrite ?flush_sections; by eexists.
Qed.

Lemma run_sections_prefix ls : forall st st',
  run st ls = Ok st' -> sections (report st) `prefix_of` sections (report st').
Proof.
  induction ls as [|l ls IH]; intros st st' Hrun; simpl in *.
  - by simplify_eq.
  - destruct (step st l) as [st1|] eqn:Hstep; [|done]. simpl in Hrun.
    etrans; [by eapply step_sections_prefix|by eapply IH].
Qed.

Lemma step_header st l :
  no_break l -> startswith P_H3 l = true ->
  exists st', step st l = Ok st' /\ sections (report st') = all_sections st.
Proof.
  intros Hnb H3. unfold step. rewrite (rstrip_nl_no_break _ Hnb), H3.
  destruct (startswith P_H1 l) eqn:E1.
  { apply H1_not_H3 in E1. congruence. }
  destruct (startswith P_H2 l) eqn:E2.
  { apply H2_not_H3 in E2. congruence. }
  rewrite andb_false_r. eexists. split; [done|]. simpl.
  apply flush_sections.
Qed.

End ParserFacts.

(** ** The parser is total *)

Module ParserTotal.
Import Parser.

Lemma kv_line_ok st cur k l p :
  startswith p l = true -> In 58 p -> exists st', kv_line st cur k l = Ok st'.
Proof.
  intros H Hin. unfold kv_line.
  destruct (split_colon_1_startswith p l H Hin) as [v ->].
  simpl. eauto.
Qed.

Lemma step_ok st l : exists st', step st l = Ok st'.
Proof.
  unfold step.
  destruct (startswith P_H1 _); [eauto|].
  destruct (_ && startswith P_H2 _); [eauto|].
  destruct (startswith P_H3 _); [eauto|].
  destruct (current st) as [cur|]; [|eauto].
  destruct (startswith P_DATE _) eqn:Hd;
    [apply (kv_line_ok _ _ _ _ _ Hd); vm_compute; tauto|].
  destruct (startswith P_CLOSE _) eqn:Hc;
    [apply (kv_line_ok _ _ _ _ _ Hc); vm_compute; tauto|].
  destruct (startswith P_VOLUME _) eqn:Hv;
    [apply (kv_line_ok _ _ _ _ _ Hv); vm_compute; tauto|].
  destruct (startswith P_RANGE _) eqn:Hr;
    [apply (kv_line_ok _ _ _ _ _ Hr); vm_compute; tauto|].
  destruct (startswith P_NEWS _); [eauto|].
  destruct (_ || _); [eauto|].
  destruct (is_news (mode st) && bullet_match 2 _); [eauto|].
  destruct (if is_news (mode st) && bullet_match 4 _ then _ else _) as [i|].
  - destruct (lower_startswith_summary _) eqn:Hs.
    + unfold split_colon_1.
      destruct (after_first_startswith_nocase _ _ Hs) as [v ->];
        [vm_compute; tauto|]. simpl. eauto.
    + destruct (is_url _); eauto.
  - destruct (is_ai (mode st) && bullet_match 2 _); [eauto|].
    destruct (_ && _); eauto.
Qed.

Lemma run_ok ls : forall st, exists st', run st ls = Ok st'.
Proof.
  induction ls as [|l ls IH]; intros st; simpl; [eauto|].
  destruct (step_ok st l) as [st' ->]. simpl. apply IH.
Qed.

End ParserTotal.

(** C8. For every input string [parse_report] returns a report: no branch
    of the parser raises, whatever the text holds. *)
Theorem parse_report_total (md_text : pystr) :
  exists r : Parser.Report, Parser.parse_report md_text = Ok r.
Proof.
  unfold Parser.parse_report, Parser.parse_lines.
  destruct (ParserTotal.run_ok (splitlines md_text) Parser.init) as [st ->].
  simpl. eauto.
Qed.

(** ** The first loop of the generator and the range *)

Module GenFacts.
Import Fmt Gen Spec.

Lemma build_snoc rows : forall m0 r,
  build m0 (rows ++ [r]) = rbind (build m0 rows) (fun m => add_row m r).
Proof.
  induction rows as [|x rows IH]; intros m0 r; simpl.
  - by destruct (add_row m0 r).
  - destruct (add_row m0 x) as [m1|]; simpl; [apply IH|done].
Qed.

Lemma filter_ticker_snoc t rows r :
  List.filter (fun r => bool_decide (p_ticker r = t)) (rows ++ [r]) =
  List.filter (fun r => bool_decide (p_ticker r = t)) rows
    ++ (if bool_decide (p_ticker r = t) then [r] else []).
Proof. rewrite List.filter_app. done. Qed.

Lemma build_latest_rows rows : forall m,
  build ∅ rows = Ok m ->
  forall t,
    match List.filter (fun r => bool_decide (p_ticker r = t)) rows with
    | [] => m !! t = None
    | rs => exists items, m !! t = Some items
              /\ List.map Some items = List.map item_of (take 2 rs)
    end.
Proof.
  induction rows as [|r rows IH] using rev_ind; intros m' Hb.
  - simpl in Hb. simplify_eq. intros t. apply lookup_empty.
  - rewrite build_snoc in Hb.
    destruct (build ∅ rows) as [m|] eqn:Hm; [|done]. simpl in Hb.
    specialize (IH m eq_refl). pose proof (IH (p_ticker r)) as Hk.
    unfold add_row in Hb. intros t. rewrite filter_ticker_snoc.
    set (rs := List.filter _ rows) in Hk.
    destruct (decide (p_ticker r = t)) as [<-|Hne].
    2:{ rewrite bool_decide_eq_false_2, app_nil_r by done.
        specialize (IH t).
        destruct (_ <? _)%nat; [destruct (p_close r); [|done]|];
          simpl in Hb; simplify_eq; by rewrite lookup_insert_ne. }
    rewrite bool_decide_eq_true_2 by done. fold rs.
    destruct rs as [|x rs'].
    + rewrite Hk in Hb. simpl in Hb.
      destruct (p_close r) as [c|] eqn:Hc; [|done]. simpl in Hb.
      simplify_eq. eexists. rewrite lookup_insert_eq. split; [done|].
      simpl. unfold item_of. by rewrite Hc.
    + destruct Hk as (items & Hk & Hitems). rewrite Hk in Hb.
      assert (Hlen : length items = Nat.min 2 (length (x :: rs'))).
      { rewrite <- (length_map Some items), Hitems, length_map, length_take.
        done. }
      simpl in Hb. destruct rs' as [|y rs'].
      * destruct items as [|i [|j items]]; simpl in Hlen; try lia.
        simpl in Hb. destruct (p_close r) as [c|] eqn:Hc; [|done].
        simpl in Hb. simplify_eq. eexists. rewrite lookup_insert_eq.
        split; [done|]. simpl in *. unfold item_of at 2. rewrite Hc.
        by rewrite Hitems.
      * destruct items as [|i [|j [|k items]]]; simpl in Hlen; try lia.
        simpl in Hb. simplify_eq. exists [i; j].
        rewrite lookup_insert_eq. split; [done|]. simpl in *. congruence.
Qed.

(** After the first loop of [generate], [latest_map] holds the two newest
    rows of every ticker. *)
Lemma build_latest db m : build ∅ (prices db) = Ok m -> latest_of db m.
Proof. intros H t. by apply build_latest_rows. Qed.

(** With a close in each row the first loop ends. *)
Lemma build_total rows : forall m0,
  Forall has_close rows -> exists m, build m0 rows = Ok m.
Proof.
  induction rows as [|r rows IH]; intros m0 Hall; simpl; [eauto|].
  inversion Hall as [|? ? Hr Hrows]; subst. unfold add_row.
  unfold has_close in Hr. destruct (p_close r); [|done].
  destruct (_ <? _)%nat; simpl; by apply IH.
Qed.

Lemma latest_first db m t i rest :
  latest_of db m -> m !! t = Some (i :: rest) ->
  exists r rs, rows_of db t = r :: rs /\ item_of r = Some i.
Proof.
  intros Hl Hm. specialize (Hl t).
  destruct (rows_of db t) as [|r rs]; [congruence|].
  destruct Hl as (items & Hi & Hmap). simplify_eq. simpl in Hmap.
  exists r, rs. split; [done|]. by simplify_eq.
Qed.



Lemma closes_20_first db t r rs c1 :
  rows_of db t = r :: rs -> p_close r = Some c1 ->
  closes_20 db t = c1 :: omap p_close (take 19 rs).
Proof.
  unfold closes_20, rows_of. intros -> Hc. simpl. by rewrite Hc.
Qed.

Lemma In_insert_sorted x y l : In y (insert_sorted x l) <-> y = x \/ In y l.
Proof.
  induction l as [|z l IH]; simpl; [intuition congruence|].
  destruct (str_ltb z x); simpl; rewrite ?IH; intuition congruence.
Qed.

Lemma In_sorted y l : In y (sorted l) <-> In y l.
Proof.
  induction l as [|x l IH]; simpl; [done|].
  rewrite In_insert_sorted, IH. intuition congruence.
Qed.

Lemma In_tickers_of m t : In t (tickers_of m) <-> is_Some (m !! t).
Proof.
  unfold tickers_of. rewrite In_sorted, in_map_iff. split.
  - intros ([k v] & <- & Hin). simpl.
    apply list_elem_of_In, elem_of_map_to_list in Hin. by eexists.
  - intros [v Hv]. exists (t, v). split; [done|].
    by apply list_elem_of_In, elem_of_map_to_list.
Qed.

(** Every list of [latest_map] has a first item. *)
Lemma latest_nonempty db m t items :
  latest_of db m -> m !! t = Some items -> items <> [].
Proof.
  intros Hl Hm. specialize (Hl t).
  destruct (rows_of db t) as [|r rs]; [congruence|].
  destruct Hl as (items' & Hi & Hmap). simplify_eq.
  intros ->. simpl in Hmap. done.
Qed.

Section Blocks.
Variable today : pystr.
Variable iso_minutes : pystr -> option pystr.
Variable summarize : SummArgs -> Outcome.

Lemma blocks_ok db m rd ts :
  latest_of db m -> (forall t, In t ts -> is_Some (m !! t)) ->
  blocks iso_minutes summarize db m rd ts
  = Ok (concat (List.map (block_of iso_minutes summarize db m rd) ts)).
Proof.
  intros Hl. induction ts as [|t ts IH]; intros Hts; simpl; [done|].
  destruct (Hts t) as [items Hi]; [by left|].
  unfold getitem, block_of at 1. rewrite Hi. simpl.
  pose proof (latest_nonempty _ _ _ _ Hl Hi) as Hne.
  destruct items as [|[[d1 c1] v1] rest]; [done|]. simpl.
  rewrite IH by (intros; apply Hts; by right). done.
Qed.

(** When the first loop ends, [generate] ends, and its lines are the
    title line and the blocks of the tickers in sorted order. *)
Lemma report_lines_ok db m :
  build ∅ (prices db) = Ok m ->
  report_lines today iso_minutes summarize db
  = Ok ((S_TITLE ++ report_date_of today m ++ S_RPAREN ++ [LF])
          :: concat (List.map (block_of iso_minutes summarize db m
                                  (report_date_of today m))
                       (tickers_of m)),
        report_date_of today m).
Proof.
  intros Hb. unfold report_lines. rewrite Hb. simpl.
  fold (tickers_of m).
  rewrite (blocks_ok db m _ (tickers_of m)); [done|by apply build_latest|].
  intros t. by apply In_tickers_of.
Qed.


(** The block of a ticker of [latest_map] stands in the lines of the
    report. *)
Lemma report_has_block db m t :
  build ∅ (prices db) = Ok m -> is_Some (m !! t) ->
  exists lines rd,
    report_lines today iso_minutes summarize db = Ok (lines, rd)
    /\ rd = report_date_of today m
    /\ has_block lines (block_of iso_minutes summarize db m rd t).
Proof.
  intros Hb Ht. rewrite (report_lines_ok _ _ Hb). do 2 eexists.
  split; [done|]. split; [done|].
  apply In_tickers_of, in_split in Ht as (ts1 & ts2 & ->).
  rewrite List.map_app, concat_app. simpl.
  eexists (_ :: _), _. by rewrite <- app_comm_cons.
Qed.

End Blocks.


Lemma block_lines_pair iso_minutes summarize db rd t d1 c1 v1 d0 c0 v0 rest :
  block_lines iso_minutes summarize db rd t d1 c1 v1 ((d0, c0, v0) :: rest) =
  [S_H3 ++ t;
   S_DATE ++ d0 ++ S_ARROW ++ d1;
   S_CLOSE ++ fmt_2f c0 ++ S_ARROW ++ fmt_2f c1
     ++ S_LPAREN ++ fmt_signed_2f (pct_change c0 c1) ++ S_PCT_RPAREN;
   S_VOLUME ++ fmt_comma v1;
   S_NEWS]
  ++ news_block (news_items_of iso_minutes db t)
  ++ [range_line (fst (fst (range_20 c1 (closes_20 db t))))
                 (snd (fst (range_20 c1 (closes_20 db t))))
                 (snd (range_20 c1 (closes_20 db t)));
      S_SUMMARY]
  ++ narrative_lines summarize (Some (pct_change c0 c1))
       (summarize_args iso_minutes db rd t d1 c1 v1 ((d0, c0, v0) :: rest))
  ++ [[]].
Proof.
  unfold block_lines. by destruct (range_20 _ _) as [[lo hi] pos].
Qed.

Lemma latest_pair db m t r1 r0 rs :
  build ∅ (prices db) = Ok m -> rows_of db t = r1 :: r0 :: rs ->
  exists c1 c0,
    p_close r1 = Some c1 /\ p_close r0 = Some c0
    /\ m !! t = Some [(p_date r1, c1, default 0%Z (p_volume r1));
                      (p_date r0, c0, default 0%Z (p_volume r0))].
Proof.
  intros Hb Hrows.
  pose proof (build_latest _ _ Hb t) as Hl. rewrite Hrows in Hl.
  destruct Hl as (items & Hm & Hmap). simpl in Hmap.
  destruct items as [|i [|j [|k items]]]; simplify_eq.
  simpl in Hmap. unfold item_of in *.
  destruct (p_close r1) as [c1|]; [|done].
  destruct (p_close r0) as [c0|]; [|done].
  injection Hmap as -> ->. by exists c1, c0.
Qed.


Lemma news_lines_indent n l :
  In l (news_lines n) -> exists r, l = 32 :: r.
Proof.
  unfold news_lines. intros H.
  apply in_app_or in H as [H|H]; [|apply in_app_or in H as [H|H]].
  - destruct H as [<-|[]]. by eexists.
  - destruct (is_empty _); [done|]. destruct H as [<-|[]]. by eexists.
  - destruct (is_empty _); [done|]. destruct H as [<-|[]]. by eexists.
Qed.

Lemma news_block_indent ns l :
  In l (news_block ns) -> exists r, l = 32 :: r.
Proof.
  unfold news_block. destruct ns as [|n ns].
  - intros [<-|[]]. by eexists.
  - intros (ls & Hls & Hl)%in_concat.
    apply in_map_iff in Hls as (x & <- & _). by eapply news_lines_indent.
Qed.

Lemma index_of_skip p ls rest :
  (forall l, In l ls -> startswith p l = false) ->
  index_of p (ls ++ rest) = (fun i => length ls + i)%nat <$> index_of p rest.
Proof.
  induction ls as [|l ls IH]; intros H; simpl.
  - by destruct (index_of p rest).
  - rewrite (H l) by (by left). rewrite IH by (intros; apply H; by right).
    by destruct (index_of p rest).
Qed.

Lemma index_of_cons_false p l ls :
  startswith p l = false -> index_of p (l :: ls) = S <$> index_of p ls.
Proof. intros H. simpl. by rewrite H. Qed.

Lemma index_of_cons_true p l ls :
  startswith p l = true -> index_of p (l :: ls) = Some O.
Proof. intros H. simpl. by rewrite H. Qed.

Lemma news_block_not_dash ns l p :
  In l (news_block ns) -> startswith (45 :: p) l = false.
Proof. intros [r ->]%news_block_indent. done. Qed.

(** The tickers of the report are the tickers that have a price row. *)
Lemma tickers_of_rows db m t :
  latest_of db m -> In t (tickers_of m) <-> rows_of db t <> [].
Proof.
  intros Hl. rewrite In_tickers_of. specialize (Hl t).
  destruct (rows_of db t) as [|r rs].
  - rewrite Hl. split; [by intros [? ?]|done].
  - destruct Hl as (items & -> & _). split; [done|by eexists].
Qed.


End GenFacts.

(** ** Rounding to binary64 is monotone *)

Module F64Facts.
Import F64.
Local Open Scope Z_scope.

Lemma rne_mono (a b a' b' : Z) :
  0 < b -> 0 < b' -> a * b' <= a' * b -> rne a b <= rne a' b'.
Proof.
  intros Hb Hb' H. unfold rne.
  pose proof (Z.div_mod a b ltac:(lia)) as Ea.
  pose proof (Z.mod_pos_bound a b Hb) as Ra.
  pose proof (Z.div_mod a' b' ltac:(lia)) as Ea'.
  pose proof (Z.mod_pos_bound a' b' Hb') as Ra'.
  set (q := a / b) in *. set (r := a mod b) in *.
  set (q' := a' / b') in *. set (r' := a' mod b') in *.
  assert (Hq : q <= q').
  { destruct (Z.le_gt_cases q q') as [|Hgt]; [done|]. exfalso.
    assert (b * b' * (q' + 1) <= b * b' * q)
      by (apply Z.mul_le_mono_nonneg_l; nia).
    assert (r' * b < b' * b) by (apply Z.mul_lt_mono_pos_r; lia).
    assert (0 <= r * b') by nia.
    rewrite Ea, Ea' in H. nia. }
  destruct (Z.eq_dec q q') as [Heq|Hne].
  - rewrite <- Heq in *. clear Heq.
    assert (Hr : r * b' <= r' * b) by nia.
    destruct (Z.compare_spec (2 * r) b), (Z.compare_spec (2 * r') b');
      destruct (Z.even q); try lia; nia.
  - destruct (2 * r ?= b), (2 * r' ?= b');
      destruct (Z.even q), (Z.even q'); lia.
Qed.

Lemma rne_exact (n b : Z) : 0 < b -> rne (n * b) b = n.
Proof.
  intros Hb. unfold rne. rewrite Z.div_mul, Z.mod_mul by lia.
  change (2 * 0) with 0. by destruct (Z.compare_spec 0 b); try lia.
Qed.

Lemma rne_le (a b n : Z) : 0 < b -> a <= n * b -> rne a b <= n.
Proof.
  intros Hb H. rewrite <- (rne_exact n b Hb). apply rne_mono; nia.
Qed.

Lemma rne_ge (a b n : Z) : 0 < b -> n * b <= a -> n <= rne a b.
Proof.
  intros Hb H. rewrite <- (rne_exact n b Hb). apply rne_mono; nia.
Qed.

(** [ilog2 a d] is below [j] exactly when [a / d] is below [2^j]. *)
Lemma ilog2_lt (a d j : Z) :
  0 < a -> 0 < d -> 0 <= j -> (ilog2 a d < j <-> a < d * 2 ^ j).
Proof.
  intros Ha Hd Hj. unfold ilog2.
  pose proof (Z.log2_spec a Ha) as [La Ua].
  pose proof (Z.log2_spec d Hd) as [Ld Ud].
  pose proof (Z.log2_nonneg a) as Na. pose proof (Z.log2_nonneg d) as Nd.
  set (la := Z.log2 a) in *. set (ld := Z.log2 d) in *.
  rewrite Z.pow_succ_r in Ua, Ud by lia.
  assert (HJ : 0 < 2 ^ j) by (apply Z.pow_pos_nonneg; lia).
  assert (HLd : 0 < 2 ^ ld) by (apply Z.pow_pos_nonneg; lia).
  destruct (Z.leb_spec 0 (la - ld)) as [Hk|Hk].
  - assert (Ek : 2 ^ la = 2 ^ ld * 2 ^ (la - ld)).
    { rewrite <- Z.pow_add_r by lia. f_equal. lia. }
    assert (HK : 0 < 2 ^ (la - ld)) by (apply Z.pow_pos_nonneg; lia).
    destruct (Z.leb_spec (d * 2 ^ (la - ld)) a) as [T|T].
    + split; intros H.
      * assert (2 * 2 ^ (la - ld) <= 2 ^ j).
        { rewrite <- Z.pow_succ_r by lia. apply Z.pow_le_mono_r; lia. }
        nia.
      * destruct (Z.lt_ge_cases (la - ld) j) as [|Hge]; [done|].
        assert (2 ^ j <= 2 ^ (la - ld)) by (apply Z.pow_le_mono_r; lia).
        nia.
    + split; intros H.
      * assert (2 ^ (la - ld) <= 2 ^ j) by (apply Z.pow_le_mono_r; lia).
        nia.
      * destruct (Z.lt_ge_cases (la - ld - 1) j) as [|Hge]; [done|].
        assert (2 * 2 ^ j <= 2 ^ (la - ld)).
        { rewrite <- Z.pow_succ_r by lia. apply Z.pow_le_mono_r; lia. }
        nia.
  - assert (Ek : 2 ^ ld = 2 ^ la * 2 ^ (ld - la)).
    { rewrite <- Z.pow_add_r by lia. f_equal. lia. }
    assert (2 * 1 <= 2 ^ (ld - la)).
    { change (2 * 1) with (2 ^ 1). apply Z.pow_le_mono_r; lia. }
    assert (HLa : 0 < 2 ^ la) by (apply Z.pow_pos_nonneg; lia).
    assert (a < d) by nia.
    assert (a < d * 2 ^ j) by nia.
    destruct (d <=? a * 2 ^ (- (la - ld))); split; intros; lia.
Qed.

Lemma ilog2_ge (a d j : Z) :
  0 < a -> 0 < d -> 0 <= j -> (j <= ilog2 a d <-> d * 2 ^ j <= a).
Proof.
  intros Ha Hd Hj. pose proof (ilog2_lt a d j Ha Hd Hj). lia.
Qed.

(** The significand of a rounded magnitude has at most 53 bits, or the
    magnitude is the next power of two. *)
Lemma round_mag_nonneg (a d : Z) : 0 < a -> 0 < d -> 0 <= round_mag a d.
Proof.
  intros Ha Hd. unfold round_mag.
  set (s := Z.max (ilog2 a d - 52) 0).
  assert (0 < 2 ^ s) by (apply Z.pow_pos_nonneg; lia).
  assert (0 <= rne a (d * 2 ^ s)) by (apply rne_ge; lia).
  lia.
Qed.

Lemma round_mag_mono (a d a' d' : Z) :
  0 < a -> 0 < d -> 0 < a' -> 0 < d' ->
  a * d' <= a' * d -> round_mag a d <= round_mag a' d'.
Proof.
  intros Ha Hd Ha' Hd' H. unfold round_mag.
  set (e := ilog2 a d). set (e' := ilog2 a' d').
  set (s := Z.max (e - 52) 0). set (s' := Z.max (e' - 52) 0).
  assert (Hs : 0 < 2 ^ s) by (apply Z.pow_pos_nonneg; lia).
  assert (Hs' : 0 < 2 ^ s') by (apply Z.pow_pos_nonneg; lia).
  destruct (Z.lt_trichotomy s s') as [Hlt|[Heq|Hgt]].
  - (* the step grows: a power of two lies between the two values *)
    assert (He' : 53 <= e') by lia.
    assert (Hee : e < e') by lia.
    assert (Es' : s' = e' - 52) by lia.
    assert (Ua : a < d * 2 ^ e') by (apply ilog2_lt; lia).
    assert (La' : d' * 2 ^ e' <= a') by (apply ilog2_ge; [lia..|]; fold e'; lia).
    assert (P1 : 2 ^ e' = 2 ^ (e' - s) * 2 ^ s).
    { rewrite <- Z.pow_add_r by lia. f_equal. lia. }
    assert (P2 : 2 ^ e' = 2 ^ 52 * 2 ^ s').
    { rewrite <- Z.pow_add_r by lia. f_equal. lia. }
    assert (rne a (d * 2 ^ s) <= 2 ^ (e' - s)) by (apply rne_le; nia).
    assert (2 ^ 52 <= rne a' (d' * 2 ^ s')) by (apply rne_ge; nia).
    nia.
  - rewrite <- Heq.
    assert (rne a (d * 2 ^ s) <= rne a' (d' * 2 ^ s)) by (apply rne_mono; nia).
    nia.
  - (* the step cannot shrink *)
    exfalso.
    assert (He : 53 <= e) by lia.
    assert (Hee : e' < e) by lia.
    assert (Ua' : a' < d' * 2 ^ e) by (apply ilog2_lt; lia).
    assert (La : d * 2 ^ e <= a) by (apply ilog2_ge; [lia..|]; fold e; lia).
    assert (0 < 2 ^ e) by (apply Z.pow_pos_nonneg; lia).
    nia.
Qed.

Lemma round_mag_one : round_mag 1 1 = 1.
Proof. vm_compute. reflexivity. Qed.

Lemma round_mag_ONE : round_mag ONE 1 = ONE.
Proof. vm_compute. reflexivity. Qed.

Lemma ONE_lt_OVERFLOW : ONE < OVERFLOW.
Proof. vm_compute. reflexivity. Qed.

Lemma ONE_pos : 0 < ONE.
Proof. vm_compute. reflexivity. Qed.

(** The rounding of a positive number. *)
Lemma round_units_pos (n d : Z) :
  0 < n -> 0 < d ->
  (round_units n d = Inf false /\ OVERFLOW <= round_mag n d)
  \/ (round_units n d = Fin (round_mag n d) /\ round_mag n d < OVERFLOW).
Proof.
  intros Hn Hd. unfold round_units.
  destruct (Z.eqb_spec n 0) as [|_]; [lia|].
  rewrite Z.abs_eq by lia.
  destruct (Z.leb_spec OVERFLOW (round_mag n d)).
  - left. split; [|done]. by destruct (Z.ltb_spec n 0); [lia|].
  - right. split; [|done]. rewrite Z.sgn_pos by lia. f_equal. lia.
Qed.

(** The significand of a rounded magnitude. *)
Lemma significand_bounds (a d : Z) :
  0 < a -> 0 < d ->
  let s := Z.max (ilog2 a d - 52) 0 in
  rne a (d * 2 ^ s) <= 2 ^ 53 /\ (0 < s -> 2 ^ 52 <= rne a (d * 2 ^ s)).
Proof.
  intros Ha Hd s.
  assert (Hs : 0 < 2 ^ s) by (apply Z.pow_pos_nonneg; lia).
  split.
  - assert (U : a < d * 2 ^ (53 + s)) by (apply ilog2_lt; lia).
    rewrite Z.pow_add_r in U by lia. apply rne_le; nia.
  - intros Hpos.
    assert (L : d * 2 ^ (52 + s) <= a) by (apply ilog2_ge; lia).
    rewrite Z.pow_add_r in L by lia. apply rne_ge; nia.
Qed.

Lemma OVERFLOW_eq : OVERFLOW = 2 ^ 53 * 2 ^ 2045.
Proof. vm_compute. reflexivity. Qed.

Lemma round_mag_MAXFIN : round_mag MAXFIN 1 = MAXFIN.
Proof. vm_compute. reflexivity. Qed.

Lemma MAXFIN_lt_OVERFLOW : 0 < MAXFIN < OVERFLOW.
Proof. vm_compute. split; reflexivity. Qed.

(** No binary64 number lies between the greatest one and [2^1024]. *)
Lemma round_mag_le_MAXFIN (a d : Z) :
  0 < a -> 0 < d -> round_mag a d < OVERFLOW -> round_mag a d <= MAXFIN.
Proof.
  intros Ha Hd. pose proof (significand_bounds a d Ha Hd) as [U L].
  unfold round_mag, MAXFIN. rewrite OVERFLOW_eq.
  set (s := Z.max (ilog2 a d - 52) 0) in *.
  set (m := rne a (d * 2 ^ s)) in *.
  assert (Hm : 0 <= m) by (apply rne_ge; [|lia]; apply Z.mul_pos_pos;
                           [lia|apply Z.pow_pos_nonneg; lia]).
  assert (P52 : 2 ^ 53 = 2 * 2 ^ 52) by reflexivity.
  assert (H52 : 0 < 2 ^ 52) by reflexivity.
  set (B := 2 ^ 52) in *. rewrite P52 in *. clearbody B.
  assert (HP : 0 < 2 ^ 2045) by (apply Z.pow_pos_nonneg; lia).
  assert (HS : 0 < 2 ^ s) by (apply Z.pow_pos_nonneg; lia).
  destruct (Z.lt_trichotomy s 2045) as [Hlt|[Heq|Hgt]].
  - intros _.
    assert (2 * 2 ^ s <= 2 ^ 2045).
    { rewrite <- Z.pow_succ_r by lia. apply Z.pow_le_mono_r; lia. }
    clearbody m. set (P := 2 ^ 2045) in *. clearbody P.
    set (S := 2 ^ s) in *. clearbody S.
    assert (m * S <= 2 * B * S) by nia.
    assert (2 * B * S <= B * P) by nia.
    assert (B * P <= (2 * B - 1) * P) by nia.
    lia.
  - rewrite Heq. clearbody m. set (P := 2 ^ 2045) in *. clearbody P.
    intros Hlt. assert (m < 2 * B) by nia. nia.
  - intros Hlt. exfalso. specialize (L ltac:(lia)).
    assert (2 * 2 ^ 2045 <= 2 ^ s).
    { rewrite <- Z.pow_succ_r by lia. apply Z.pow_le_mono_r; lia. }
    clearbody m. set (P := 2 ^ 2045) in *. clearbody P.
    set (S := 2 ^ s) in *. clearbody S.
    assert (B * S <= m * S) by nia.
    assert (B * (2 * P) <= B * S) by nia.
    lia.
Qed.

(** ** Subtraction and division *)

Lemma fsub_fin (a b : Z) : fsub (Fin a) (Fin b) = round_units (a - b) 1.
Proof. reflexivity. Qed.

(** The difference of two numbers in order is not negative, and it is
    not zero when they differ. *)
Lemma fsub_ordered (a b : Z) :
  b <= a ->
  fsub (Fin a) (Fin b) = Inf false
  \/ exists k, fsub (Fin a) (Fin b) = Fin k /\ 0 <= k /\ (b < a -> 1 <= k).
Proof.
  intros H. rewrite fsub_fin.
  destruct (Z.eq_dec a b) as [->|Hne].
  - right. exists 0. rewrite Z.sub_diag. split; [done|]. lia.
  - destruct (round_units_pos (a - b) 1) as [[E _]|[E _]]; [lia..| |].
    + by left.
    + right. eexists. split; [exact E|].
      pose proof (round_mag_mono 1 1 (a - b) 1). rewrite round_mag_one in *.
      lia.
Qed.

Lemma fsub_mono (a a' b k' : Z) :
  b <= a -> a <= a' ->
  fsub (Fin a') (Fin b) = Fin k' ->
  exists k, fsub (Fin a) (Fin b) = Fin k /\ 0 <= k <= k'.
Proof.
  intros Hb Ha. rewrite !fsub_fin. intros E'.
  destruct (Z.eq_dec a b) as [->|Hne].
  - exists 0. rewrite Z.sub_diag. split; [done|].
    destruct (Z.eq_dec a' b) as [->|Hne'].
    + rewrite Z.sub_diag in E'. injection E' as <-. lia.
    + destruct (round_units_pos (a' - b) 1) as [[E _]|[E _]]; [lia..| |];
        rewrite E in E'; [done|]. injection E' as <-.
      pose proof (round_mag_nonneg (a' - b) 1). lia.
  - pose proof (round_mag_mono (a - b) 1 (a' - b) 1) as M.
    destruct (round_units_pos (a' - b) 1) as [[E _]|[E B]]; [lia..| |];
      rewrite E in E'; [done|]. injection E' as <-.
    destruct (round_units_pos (a - b) 1) as [[_ O]|[F _]]; [lia..| |].
    + lia.
    + eexists. split; [exact F|].
      pose proof (round_mag_nonneg (a - b) 1). lia.
Qed.

(** The quotient of two numbers in order lies between 0 and 1. *)
Lemma fdiv_unit (x y : Z) :
  0 <= x <= y -> 0 < y ->
  exists k, fdiv (Fin x) (Fin y) = Some (Fin k) /\ 0 <= k <= ONE.
Proof.
  intros Hx Hy.
  assert (E : fdiv (Fin x) (Fin y) = Some (round_units (x * ONE) y)).
  { destruct y as [|y|y]; [lia| |lia]. unfold fdiv.
    change (Z.sgn (Z.pos y)) with 1. change (Z.abs (Z.pos y)) with (Z.pos y).
    by rewrite Z.mul_1_l. }
  rewrite E. clear E.
  destruct (Z.eq_dec x 0) as [->|Hne].
  - exists 0. split; [done|]. pose proof ONE_pos. lia.
  - pose proof ONE_pos. pose proof ONE_lt_OVERFLOW.
    pose proof (round_mag_mono (x * ONE) y ONE 1) as M.
    rewrite round_mag_ONE in M.
    pose proof (round_mag_nonneg (x * ONE) y).
    destruct (round_units_pos (x * ONE) y) as [[_ O]|[E _]];
      [nia|lia|nia|].
    eexists. split; [by rewrite E|]. nia.
Qed.

(** ** The order of the floats that are numbers or infinities *)

Lemma fltb_false (x y : float) :
  not_nan x -> not_nan y -> (fltb x y = false <-> fle y x).
Proof.
  unfold not_nan. destruct x as [a|[]|], y as [b|[]|]; simpl; try done.
  all: try (split; congruence).
  split; [intros ?%Z.ltb_ge|intros ?; apply Z.ltb_ge]; lia.
Qed.

Lemma fltb_true (x y : float) :
  not_nan x -> not_nan y -> fltb x y = true -> fle x y.
Proof.
  unfold not_nan. destruct x as [a|[]|], y as [b|[]|]; simpl; try done.
  intros _ _ ?%Z.ltb_lt. lia.
Qed.

Lemma fle_refl (x : float) : not_nan x -> fle x x.
Proof. unfold not_nan. destruct x as [a|[]|]; simpl; try done. Qed.

Lemma fle_trans (x y z : float) : fle x y -> fle y z -> fle x z.
Proof.
  destruct x as [a|[]|], y as [b|[]|], z as [c|[]|]; simpl; try done. lia.
Qed.

Lemma fle_antisym (x y : float) : fle x y -> fle y x -> x = y.
Proof.
  destruct x as [a|[]|], y as [b|[]|]; simpl; try done.
  intros. f_equal. lia.
Qed.

Lemma fneb_true (x y : float) :
  not_nan x -> not_nan y -> (fneb x y = true <-> x <> y).
Proof.
  unfold not_nan. destruct x as [a|[]|], y as [b|[]|]; simpl; try done.
  destruct (Z.eqb_spec a b); simpl; split; congruence.
Qed.

Lemma f_max_spec (x : float) (xs : list float) :
  Forall not_nan (x :: xs) ->
  In (f_max x xs) (x :: xs)
  /\ forall y, In y (x :: xs) -> fle y (f_max x xs).
Proof.
  revert x. induction xs as [|z xs IH]; intros x Hn.
  - split; [by left|]. intros y [<-|[]]. apply fle_refl.
    by apply Forall_inv in Hn.
  - apply Forall_cons in Hn as [Hx Hn].
    pose proof Hn as Hn'. apply Forall_cons in Hn' as [Hz Hxs].
    cbn [f_max].
    destruct (fltb x z) eqn:E.
    + destruct (IH z Hn) as [Hin Hle]. split; [by right|].
      intros y [<-|Hy]; [|by apply Hle].
      eapply fle_trans; [exact (fltb_true x z Hx Hz E)|]. apply Hle. by left.
    + destruct (IH x) as [Hin Hle]; [by constructor|]. split.
      * destruct Hin as [<-|Hin]; [by left|]. right. by right.
      * intros y [<-|[<-|Hy]].
        -- apply Hle. by left.
        -- eapply fle_trans; [exact (proj1 (fltb_false x z Hx Hz) E)|].
           apply Hle. by left.
        -- apply Hle. by right.
Qed.

Lemma f_min_spec (x : float) (xs : list float) :
  Forall not_nan (x :: xs) ->
  In (f_min x xs) (x :: xs)
  /\ forall y, In y (x :: xs) -> fle (f_min x xs) y.
Proof.
  revert x. induction xs as [|z xs IH]; intros x Hn.
  - split; [by left|]. intros y [<-|[]]. apply fle_refl.
    by apply Forall_inv in Hn.
  - apply Forall_cons in Hn as [Hx Hn].
    pose proof Hn as Hn'. apply Forall_cons in Hn' as [Hz Hxs].
    cbn [f_min].
    destruct (fltb z x) eqn:E.
    + destruct (IH z Hn) as [Hin Hle]. split; [by right|].
      intros y [<-|Hy]; [|by apply Hle].
      eapply fle_trans; [|exact (fltb_true z x Hz Hx E)]. apply Hle. by left.
    + destruct (IH x) as [Hin Hle]; [by constructor|]. split.
      * destruct Hin as [<-|Hin]; [by left|]. right. by right.
      * intros y [<-|[<-|Hy]].
        -- apply Hle. by left.
        -- eapply fle_trans; [|exact (proj1 (fltb_false z x Hz Hx) E)].
           apply Hle. by left.
        -- apply Hle. by right.
Qed.

Lemma of_Q_not_nan (q : Q) : not_nan (of_Q q).
Proof.
  unfold not_nan, of_Q, round_units.
  destruct (_ =? 0); [done|]. by destruct (_ <=? _).
Qed.

(** ** The model and the specification of the Standard Library *)

(** On these numbers the operations of the model give what
    [Floats.SpecFloat] gives for binary64: a quotient that is rounded, a
    difference that is rounded, a tie, a subnormal quotient, the number
    nearest to [1e308], a difference that overflows, and the quotient of two
    infinities. *)
Example model_agrees_with_SpecFloat :
  of_spec (SpecFloat.SFdiv 53 1024 (b64 1) (b64 10)) = of_Q (1 # 10)
  /\ of_spec (SpecFloat.SFsub 53 1024
                (SpecFloat.SFdiv 53 1024 (b64 1) (b64 10))
                (SpecFloat.SFdiv 53 1024 (b64 3) (b64 10)))
     = fsub (of_Q (1 # 10)) (of_Q (3 # 10))
  /\ Some (of_spec (SpecFloat.SFdiv 53 1024 (b64 (2 ^ 53 + 1)) (b64 3)))
     = fdiv (of_Q (Qmake (2 ^ 53 + 1) 1)) (of_Q (3 # 1))
  /\ Some (of_spec (SpecFloat.SFdiv 53 1024
                      (SpecFloat.SFdiv 53 1024 (b64 1) (b64 (10 ^ 308)))
                      (b64 (10 ^ 16))))
     = fdiv (of_Q (Qmake 1 (10 ^ 308))) (of_Q (Qmake (10 ^ 16) 1))
  /\ of_spec (b64 (10 ^ 308)) = of_Q (Qmake (10 ^ 308) 1)
  /\ of_spec (SpecFloat.SFsub 53 1024 (b64 (10 ^ 308)) (b64 (- 10 ^ 308)))
     = fsub (of_Q (Qmake (10 ^ 308) 1)) (of_Q (Qmake (- 10 ^ 308) 1))
  /\ Some (of_spec
             (SpecFloat.SFdiv 53 1024
                (SpecFloat.SFsub 53 1024 (b64 (10 ^ 308)) (b64 (- 10 ^ 308)))
                (SpecFloat.SFsub 53 1024 (b64 (10 ^ 308))
                   (b64 (- 10 ^ 308)))))
     = fdiv (fsub (of_Q (Qmake (10 ^ 308) 1)) (of_Q (Qmake (- 10 ^ 308) 1)))
            (fsub (of_Q (Qmake (10 ^ 308) 1)) (of_Q (Qmake (- 10 ^ 308) 1)))
  /\ Some (of_spec (SpecFloat.SFdiv 53 1024
                      (SpecFloat.SFsub 53 1024 (b64 21) (b64 20))
                      (SpecFloat.SFsub 53 1024 (b64 22) (b64 20))))
     = fdiv (fsub (of_Q (21 # 1)) (of_Q (20 # 1)))
            (fsub (of_Q (22 # 1)) (of_Q (20 # 1))).
Proof. vm_compute. repeat split; reflexivity. Qed.

(** ** The position *)

(** The difference of the high and the low of a window is a positive
    number or the positive infinity. *)
Lemma spread_positive (low high : float) :
  fle low high -> low <> high ->
  fsub high low = Inf false
  \/ exists k, fsub high low = Fin k /\ 1 <= k.
Proof.
  destruct low as [b|[]|], high as [h|[]|]; simpl; try done;
    intros Hle Hne; try (by left).
  destruct (fsub_ordered h b Hle) as [E|(k & E & _ & Hk)]; [by left|].
  right. exists k. split; [done|]. apply Hk.
  destruct (Z.eq_dec b h) as [->|]; [done|lia].
Qed.

Lemma range_20_spec (c1 : float) (closes : list float) :
  Forall not_nan closes -> In c1 closes ->
  exists low_20 high_20 range_pos,
    range_20 c1 closes = Some (low_20, high_20, range_pos)
    /\ In low_20 closes /\ In high_20 closes
    /\ (forall c, In c closes -> fle low_20 c /\ fle c high_20)
    /\ (high_20 = low_20 -> range_pos = Fin HALF)
    /\ (high_20 <> low_20 ->
        (in_unit range_pos <-> is_finite (fsub c1 low_20))).
Proof.
  intros Hn Hin. destruct closes as [|x xs]; [done|].
  destruct (f_max_spec x xs Hn) as [Hmax_in Hmax].
  destruct (f_min_spec x xs Hn) as [Hmin_in Hmin].
  assert (Nmax : not_nan (f_max x xs)).
  { eapply Forall_forall in Hn; [exact Hn|]. by apply list_elem_of_In. }
  assert (Nmin : not_nan (f_min x xs)).
  { eapply Forall_forall in Hn; [exact Hn|]. by apply list_elem_of_In. }
  cbn [range_20].
  set (high := f_max x xs) in *. set (low := f_min x xs) in *.
  destruct (fneb high low) eqn:E.
  - apply fneb_true in E; [|done..].
    assert (Hlh : fle low high) by (apply Hmax; exact Hmin_in).
    destruct (spread_positive low high Hlh ltac:(congruence)) as [D|(k' & D & Hk')].
    + (* the spread overflows *)
      rewrite D.
      destruct (fsub c1 low) as [k| |] eqn:N; cbn [fdiv].
      * exists low, high, (Fin 0). split; [done|].
        split; [done|]. split; [done|]. split; [by split; auto|].
        split; [done|]. intros _. unfold in_unit, is_finite. rewrite N.
        pose proof ONE_pos. split; [done|intros _; lia].
      * exists low, high, NaN. split; [done|].
        split; [done|]. split; [done|]. split; [by split; auto|].
        split; [done|]. intros _. unfold in_unit, is_finite. rewrite N. tauto.
      * exists low, high, NaN. split; [done|].
        split; [done|]. split; [done|]. split; [by split; auto|].
        split; [done|]. intros _. unfold in_unit, is_finite. rewrite N. tauto.
    + rewrite D.
      assert (Hlc : fle low c1) by (by apply Hmin).
      assert (Hch : fle c1 high) by (by apply Hmax).
      destruct low as [b|lb|]; [| |done].
      * destruct high as [h|hb|]; [|by destruct hb|done].
        destruct c1 as [a|[]|]; [|done..]. simpl in Hlc, Hch.
        destruct (fsub_mono a h b k' Hlc Hch D) as (k & N & Hk).
        rewrite N.
        destruct (fdiv_unit k k' ltac:(lia) ltac:(lia)) as (p & P & Hp).
        rewrite P. exists (Fin b), (Fin h), (Fin p). split; [done|].
        split; [done|]. split; [done|]. split; [by split; auto|].
        split; [congruence|]. intros _. unfold in_unit, is_finite. rewrite N.
        tauto.
      * destruct high as [h|hb|]; [| |done].
        -- destruct lb; simpl in D; done.
        -- destruct lb, hb; simpl in D; done.
  - exists low, high, (Fin HALF). split; [done|].
    split; [done|]. split; [done|]. split; [by split; auto|].
    split; [done|]. intros Hne. apply fneb_true in Hne; [|done..]. congruence.
Qed.

(** The rounding of a number that is not negative. *)
Lemma of_Q_nonneg (q : Q) :
  (0 <= q)%Q -> is_finite (of_Q q) ->
  exists k, of_Q q = Fin k /\ 0 <= k <= MAXFIN.
Proof.
  intros Hq. unfold of_Q. destruct q as [n d]. unfold Qle in Hq.
  cbn [Qnum Qden] in *. rewrite Z.mul_1_r in Hq. change (0 * _) with 0 in Hq.
  pose proof ONE_pos. pose proof MAXFIN_lt_OVERFLOW.
  destruct (Z.eq_dec n 0) as [->|Hne].
  - intros _. exists 0. split; [done|lia].
  - destruct (round_units_pos (n * ONE) (Z.pos d)) as [[E _]|[E B]];
      [nia|lia| |]; rewrite E; [done|]. intros _.
    eexists. split; [done|]. split; [apply round_mag_nonneg; nia|].
    apply round_mag_le_MAXFIN; [nia|lia|done].
Qed.

(** The difference of two numbers that are not negative is a number. *)
Lemma fsub_plain (a b : Z) :
  0 <= b <= a -> a <= MAXFIN -> is_finite (fsub (Fin a) (Fin b)).
Proof.
  intros Hb Ha. rewrite fsub_fin. pose proof MAXFIN_lt_OVERFLOW.
  destruct (Z.eq_dec a b) as [->|Hne].
  - by rewrite Z.sub_diag.
  - pose proof (round_mag_mono (a - b) 1 MAXFIN 1) as M.
    rewrite round_mag_MAXFIN in M.
    destruct (round_units_pos (a - b) 1) as [[_ O]|[E _]]; [lia..| |].
    + lia.
    + by rewrite E.
Qed.

Lemma range_of_spec (c1 : Q) (closes : list Q) :
  In c1 closes ->
  exists low_20 high_20 range_pos,
    range_of c1 closes = Some (low_20, high_20, range_pos)
    /\ (high_20 = low_20 -> range_pos = Fin HALF)
    /\ (high_20 <> low_20 ->
        (in_unit range_pos <-> is_finite (fsub (of_Q c1) low_20)))
    /\ (high_20 <> low_20 -> Forall plain_close closes -> in_unit range_pos).
Proof.
  intros Hin. unfold range_of.
  destruct (range_20_spec (of_Q c1) (List.map of_Q closes))
    as (low & high & pos & E & Hlow & _ & Hord & Heq & Hne).
  { apply Forall_forall. intros x (q & <- & _)%list_elem_of_In%in_map_iff.
    apply of_Q_not_nan. }
  { by apply in_map. }
  exists low, high, pos. split; [done|]. split; [done|]. split; [done|].
  intros Hd Hplain. apply Hne; [done|].
  apply in_map_iff in Hlow as (l & <- & Hl).
  rewrite Forall_forall in Hplain.
  destruct (Hplain c1 ltac:(by apply list_elem_of_In)) as [P1 F1].
  destruct (Hplain l ltac:(by apply list_elem_of_In)) as [Pl Fl].
  destruct (of_Q_nonneg c1 P1 F1) as (a & Ea & Ha).
  destruct (of_Q_nonneg l Pl Fl) as (b & Eb & Hb).
  destruct (Hord (of_Q c1) ltac:(by apply in_map)) as [Hle _].
  rewrite Ea, Eb in *. simpl in Hle. apply fsub_plain; lia.
Qed.

End F64Facts.

(** ** The parser on the lines of the generator *)

Module RoundTrip.
Import Fmt Gen Spec Parser ParserFacts.

Lemma alter_last {A} (f : A -> A) (l : list A) (x : A) :
  alter f (length l) (l ++ [x]) = l ++ [f x].
Proof.
  induction l as [|y l IH]; simpl; [done|]. by rewrite <- IH.
Qed.

Ltac step_line H :=
  unfold step; rewrite (rstrip_nl_no_break _ H); cbv zeta;
  try match goal with
      | |- context [startswith P_H2 ?l] =>
          change (startswith P_H2 l) with false; rewrite andb_false_r
      end;
  reflexivity.

Lemma step_empty st : step st [] = Ok st.
Proof.
  destruct st as [rep [cur|] md ln]; unfold step;
    change (rstrip_nl []) with (@nil N); cbv zeta;
    change (startswith P_H2 []) with false; rewrite andb_false_r;
    [by destruct md|done].
Qed.

Lemma step_title_line st x :
  no_break (S_TITLE ++ x) ->
  step st (S_TITLE ++ x)
  = Ok (mkState (set_title (strip (T_TITLE ++ x)) (report st))
                (current st) (mode st) (last_news st)).
Proof. intros H. step_line H. Qed.

Lemma step_h3_line st t :
  no_break (S_H3 ++ t) ->
  step st (S_H3 ++ t)
  = Ok (mkState (flush (report st) (current st))
                (Some (mkSection (strip t) ∅ [] [])) MNone None).
Proof. intros H. step_line H. Qed.

Lemma step_date_line rep cur md ln x :
  no_break (S_DATE ++ x) ->
  step (mkState rep (Some cur) md ln) (S_DATE ++ x)
  = Ok (mkState rep (Some (set_kv "date" (strip x) cur)) md ln).
Proof. intros H. step_line H. Qed.

Lemma step_close_line rep cur md ln x :
  no_break (S_CLOSE ++ x) ->
  step (mkState rep (Some cur) md ln) (S_CLOSE ++ x)
  = Ok (mkState rep (Some (set_kv "close" (strip x) cur)) md ln).
Proof. intros H. step_line H. Qed.

Lemma step_volume_line rep cur md ln x :
  no_break (S_VOLUME ++ x) ->
  step (mkState rep (Some cur) md ln) (S_VOLUME ++ x)
  = Ok (mkState rep (Some (set_kv "volume" (strip x) cur)) md ln).
Proof. intros H. step_line H. Qed.

Lemma step_range_line rep cur md ln x :
  no_break (S_RANGE_LOW ++ x) ->
  step (mkState rep (Some cur) md ln) (S_RANGE_LOW ++ x)
  = Ok (mkState rep (Some (set_kv "range" (strip (T_LOW ++ x)) cur)) md ln).
Proof. intros H. step_line H. Qed.

Lemma step_latest_line rep cur ln x :
  no_break (S_LATEST ++ x) ->
  step (mkState rep (Some cur) MNone ln) (S_LATEST ++ x)
  = Ok (mkState rep (Some cur) MNone ln).
Proof. intros H. step_line H. Qed.

Lemma step_news_header rep cur md ln :
  step (mkState rep (Some cur) md ln) S_NEWS
  = Ok (mkState rep (Some cur) MNews None).
Proof.
  assert (H : no_break S_NEWS) by (repeat constructor). step_line H.
Qed.

Lemma step_summary_header rep cur md ln :
  step (mkState rep (Some cur) md ln) S_SUMMARY
  = Ok (mkState rep (Some cur) MAi ln).
Proof.
  assert (H : no_break S_SUMMARY) by (repeat constructor). step_line H.
Qed.

Lemma step_news_bullet rep cur ln x :
  no_break (S_BULLET2 ++ x) ->
  step (mkState rep (Some cur) MNews ln) (S_BULLET2 ++ x)
  = Ok (mkState rep
          (Some (set_news (news cur ++ [mkNews (strip (lstrip x)) [] []]) cur))
          MNews (Some (length (news cur)))).
Proof. intros H. step_line H. Qed.

Lemma step_narrative_bullet rep cur ln x :
  no_break (S_BULLET2 ++ x) -> ai cur = [] ->
  step (mkState rep (Some cur) MAi ln) (S_BULLET2 ++ x)
  = Ok (mkState rep (Some (set_ai (strip (lstrip x)) cur)) MAi ln).
Proof.
  intros H Hai. destruct cur as [tk kvs ns a]. simpl in Hai. subst a.
  step_line H.
Qed.

(** The step on a sub-bullet of a news item. *)
Lemma step_sub_bullet rep cur i x :
  no_break (S_BULLET4 ++ x) ->
  step (mkState rep (Some cur) MNews (Some i)) (S_BULLET4 ++ x)
  = (let txt := strip (lstrip x) in
     if lower_startswith_summary txt then
       rbind (split_colon_1 txt) (fun v =>
         Ok (mkState rep
               (Some (set_news (alter (set_summary (strip v)) i (news cur))
                               cur))
               MNews (Some i)))
     else if is_url txt then
       Ok (mkState rep
             (Some (set_news (alter (set_url txt) i (news cur)) cur))
             MNews (Some i))
     else Ok (mkState rep (Some cur) MNews (Some i))).
Proof. intros H. step_line H. Qed.

Lemma step_news_summary rep cur i s :
  no_break (S_NEWS_SUMMARY ++ s) ->
  step (mkState rep (Some cur) MNews (Some i)) (S_NEWS_SUMMARY ++ s)
  = Ok (mkState rep
          (Some (set_news (alter (set_summary (strip s)) i (news cur)) cur))
          MNews (Some i)).
Proof.
  intros H.
  change (S_NEWS_SUMMARY ++ s) with (S_BULLET4 ++ (U_SUMMARY ++ 32 :: s))
    in H |- *.
  rewrite (step_sub_bullet _ _ _ _ H). cbv zeta.
  change (lstrip (U_SUMMARY ++ 32 :: s)) with (U_SUMMARY ++ 32 :: s).
  assert (E : strip (U_SUMMARY ++ 32 :: s) = U_SUMMARY ++ rstrip (32 :: s)).
  { unfold strip.
    change (lstrip (U_SUMMARY ++ 32 :: s)) with (U_SUMMARY ++ 32 :: s).
    by apply rstrip_app_keep. }
  rewrite E.
  change (lower_startswith_summary (U_SUMMARY ++ rstrip (32 :: s))) with true.
  change (split_colon_1 (U_SUMMARY ++ rstrip (32 :: s)))
    with (Ok (rstrip (32 :: s))).
  cbn [rbind]. by rewrite strip_rstrip, strip_space.
Qed.

Lemma is_url_not_summary u :
  is_url u = true -> lower_startswith_summary (strip u) = false.
Proof.
  unfold is_url. intros H. apply orb_true_iff in H as [H|H];
    apply startswith_true in H as [r ->]; done.
Qed.

Lemma is_url_strip u : is_url (strip u) = is_url u.
Proof. unfold is_url. by rewrite strip_idemp. Qed.

Lemma step_news_url rep cur i u :
  no_break (S_BULLET4 ++ u) -> is_url u = true ->
  step (mkState rep (Some cur) MNews (Some i)) (S_BULLET4 ++ u)
  = Ok (mkState rep
          (Some (set_news (alter (set_url (strip u)) i (news cur)) cur))
          MNews (Some i)).
Proof.
  intros H Hu. rewrite (step_sub_bullet _ _ _ _ H). cbv zeta.
  rewrite strip_lstrip, (is_url_not_summary _ Hu), is_url_strip, Hu. done.
Qed.

Ltac nb :=
  unfold no_break in *;
  repeat match goal with
  | |- Forall _ (_ ++ _) => apply Forall_app_2
  | |- Forall _ (_ :: _) => constructor; [reflexivity|]
  | |- Forall _ [] => constructor
  | |- Forall _ (fmt_2f _) => apply FmtFacts.fmt_2f_no_break
  | |- Forall _ (fmt_signed_2f _) => apply FmtFacts.fmt_signed_2f_no_break
  | |- Forall _ (fmt_comma _) => apply FmtFacts.fmt_comma_no_break
  | |- Forall _ (lit _) => unfold lit; cbn [list_ascii_of_string List.map]
  | |- Forall _ ?c => assumption || (is_const c; unfold c)
  end.

(** The lines of one news row give one item. *)
Lemma run_news_lines rep cur ln n :
  wf_news n ->
  run (mkState rep (Some cur) MNews ln) (news_lines n)
  = Ok (mkState rep
          (Some (set_news (news cur ++ [normalize_news (model_news n)]) cur))
          MNews (Some (length (news cur)))).
Proof.
  intros (Hp & Hs & Hh & Hsum & Hurl & Hu).
  unfold news_lines, normalize_news, model_news. cbn [Parser.line Parser.summary Parser.url].
  rewrite run_app. cbn [run].
  rewrite step_news_bullet by nb. cbn [rbind]. rewrite strip_lstrip.
  rewrite run_app.
  set (disp := strip _).
  assert (E1 : run (mkState rep
                 (Some (set_news (news cur ++ [mkNews disp [] []]) cur))
                 MNews (Some (length (news cur))))
                 (if is_empty (Gen.summary n) then []
                  else [S_NEWS_SUMMARY ++ Gen.summary n])
               = Ok (mkState rep
                 (Some (set_news
                    (news cur ++ [mkNews disp (strip (Gen.summary n)) []]) cur))
                 MNews (Some (length (news cur))))).
  { destruct (Gen.summary n) as [|c s] eqn:Es; [done|]. cbn [is_empty run].
    rewrite step_news_summary by nb. cbn [rbind news set_news].
    by rewrite alter_last. }
  rewrite E1. cbn [rbind].
  destruct Hu as [Hu|Hu].
  - rewrite Hu. done.
  - destruct (Gen.url n) as [|c u] eqn:Eu; [done|]. cbn [is_empty run].
    rewrite step_news_url by (done || nb). cbn [rbind news set_news].
    by rewrite alter_last.
Qed.

Lemma run_news_items ns : forall rep cur ln,
  Forall wf_news ns -> ns <> [] ->
  exists ln',
    run (mkState rep (Some cur) MNews ln) (concat (List.map news_lines ns))
    = Ok (mkState rep
            (Some (set_news
                     (news cur
                        ++ List.map (fun n => normalize_news (model_news n)) ns)
                     cur))
            MNews ln').
Proof.
  induction ns as [|n ns IH]; intros rep cur ln Hwf Hne; [done|].
  inversion Hwf as [|? ? Hn Hns]; subst.
  change (concat (List.map news_lines (n :: ns)))
    with (news_lines n ++ concat (List.map news_lines ns)).
  rewrite run_app, run_news_lines by done. cbn [rbind].
  destruct ns as [|n' ns].
  - simpl. eexists. done.
  - destruct (IH rep
      (set_news (news cur ++ [normalize_news (model_news n)]) cur)
      (Some (length (news cur))) Hns) as [ln' Hrun]; [done|].
    rewrite Hrun. eexists. cbn [news set_news]. rewrite <- app_assoc. done.
Qed.

(** The lines of the news of a section. *)
Lemma run_news_block rep cur ln ns :
  Forall wf_news ns ->
  exists ln',
    run (mkState rep (Some cur) MNews ln) (news_block ns)
    = Ok (mkState rep
            (Some (set_news
                     (news cur
                        ++ match ns with
                           | [] => [mkNews T_NO_NEWS [] []]
                           | _ => List.map
                                    (fun n => normalize_news (model_news n)) ns
                           end)
                     cur))
            MNews ln').
Proof.
  intros Hwf. destruct ns as [|n ns].
  - eexists. simpl news_block. cbn [run].
    change S_NO_NEWS with (S_BULLET2 ++ T_NO_NEWS).
    rewrite step_news_bullet by nb. done.
  - apply run_news_items; done.
Qed.

Lemma run_head_lines rep cur ln d1 c1 v1 rest :
  no_break d1 ->
  match rest with (d0, _, _) :: _ => no_break d0 | [] => True end ->
  run (mkState rep (Some cur) MNone ln) (head_lines d1 c1 v1 rest)
  = Ok (mkState rep
          (Some match rest with
                | (d0, c0, _) :: _ =>
                    set_kv "volume" (strip (fmt_comma v1))
                      (set_kv "close"
                         (strip (fmt_2f c0 ++ S_ARROW ++ fmt_2f c1 ++ S_LPAREN
                                   ++ fmt_signed_2f (pct_change c0 c1)
                                   ++ S_PCT_RPAREN))
                         (set_kv "date" (strip (d0 ++ S_ARROW ++ d1)) cur))
                | [] => cur
                end)
          MNone ln).
Proof.
  intros H1 H0. destruct rest as [|[[d0 c0] v0] rest]; cbn [head_lines run].
  - rewrite step_latest_line by nb. done.
  - rewrite step_date_line by nb. cbn [rbind].
    rewrite step_close_line by nb. cbn [rbind].
    rewrite step_volume_line by nb. done.
Qed.

Lemma run_narrative_lines summarize rep cur ln pct args :
  ai cur = [] ->
  match pct with
  | Some p => wf_outcome (summarize (args p))
  | None => True
  end ->
  run (mkState rep (Some cur) MAi ln) (narrative_lines summarize pct args)
  = Ok (mkState rep
          (Some (set_ai (strip (model_ai summarize pct args)) cur)) MAi ln).
Proof.
  intros Hai Hwf. unfold narrative_lines, model_ai.
  destruct pct as [p|]; [destruct (summarize (args p)) as [text|msg]|];
    cbn [run].
  - rewrite step_narrative_bullet by (done || nb). cbn [rbind].
    by rewrite strip_lstrip.
  - change (S_ERROR ++ msg ++ S_RPAREN)
      with (S_BULLET2 ++ (T_ERROR ++ msg ++ S_RPAREN)).
    simpl in Hwf.
    rewrite step_narrative_bullet by (done || nb). cbn [rbind].
    by rewrite strip_lstrip.
  - change S_NEED_2 with (S_BULLET2 ++ T_NEED_2).
    rewrite step_narrative_bullet by (done || nb). cbn [rbind].
    by rewrite strip_lstrip.
Qed.

(** The lines of the block of a ticker give the section of the ticker,
    after the section that was open is closed. *)
Lemma run_block iso_minutes summarize db m rd t d1 c1 v1 rest st :
  m !! t = Some ((d1, c1, v1) :: rest) ->
  no_break t ->
  Forall wf_news (news_items_of iso_minutes db t) ->
  wf_block iso_minutes summarize db rd t ((d1, c1, v1) :: rest) ->
  exists ln,
    run st (block_lines iso_minutes summarize db rd t d1 c1 v1 rest)
    = Ok (mkState (flush (report st) (current st))
                  (Some (recovered iso_minutes summarize db m rd t))
                  MAi ln).
Proof.
  intros Hm Ht Hnews [Hd1 Hrest].
  unfold recovered, model_section, block_lines. rewrite Hm.
  destruct (range_20 c1 (closes_20 db t)) as [[lo hi] pos] eqn:Er.
  rewrite run_app. cbn [run]. rewrite step_h3_line by nb. cbn [rbind].
  rewrite run_app, run_head_lines;
    [|done|by destruct rest as [|[[d0 c0] v0] rest]; [|destruct Hrest]].
  cbn [rbind]. rewrite run_app. cbn [run].
  rewrite step_news_header. cbn [rbind]. rewrite run_app.
  set (cur1 := match rest with [] => _ | _ => _ end).
  destruct (run_news_block (flush (report st) (current st)) cur1 None
              _ Hnews) as [ln Hrun].
  rewrite Hrun. cbn [rbind]. rewrite run_app. cbn [run].
  unfold range_line.
  rewrite step_range_line by nb. cbn [rbind]. rewrite run_app. cbn [run].
  rewrite step_summary_header. cbn [rbind]. rewrite run_app.
  rewrite run_narrative_lines.
  2:{ subst cur1. by destruct rest as [|[[d0 c0] v0] rest]. }
  2:{ destruct rest as [|[[d0 c0] v0] rest]; [done|]. apply Hrest. }
  cbn [rbind run]. rewrite step_empty. cbn [rbind].
  exists ln. do 3 f_equal.
  unfold normalize, with_placeholder, model_kv, range_text. subst cur1.
  destruct rest as [|[[d0 c0] v0] rest];
    destruct (news_items_of iso_minutes db t) as [|n ns];
    cbn [List.map Parser.news Parser.kv Parser.ai Parser.ticker set_news
         set_kv set_ai news kv ai ticker app fst snd];
    rewrite ?fmap_insert, ?fmap_empty, ?List.map_map; done.
Qed.

Lemma news_lines_no_break n : wf_news n -> Forall no_break (news_lines n).
Proof.
  intros (Hp & Hs & Hh & Hsum & Hurl & Hu). unfold news_lines.
  apply Forall_app_2; [|apply Forall_app_2].
  - constructor; [nb|constructor].
  - destruct (is_empty _); constructor; [nb|constructor].
  - destruct (is_empty _); constructor; [nb|constructor].
Qed.

Lemma news_block_no_break ns :
  Forall wf_news ns -> Forall no_break (news_block ns).
Proof.
  intros Hwf. unfold news_block. destruct ns as [|n ns].
  - constructor; [nb|constructor].
  - generalize dependent (n :: ns). clear. intros l Hl.
    induction Hl as [|x l Hx Hl IH]; [constructor|].
    change (concat (List.map news_lines (x :: l)))
      with (news_lines x ++ concat (List.map news_lines l)).
    apply Forall_app_2; [by apply news_lines_no_break|done].
Qed.

Lemma block_no_break iso_minutes summarize db rd t d1 c1 v1 rest :
  no_break t ->
  Forall wf_news (news_items_of iso_minutes db t) ->
  wf_block iso_minutes summarize db rd t ((d1, c1, v1) :: rest) ->
  Forall no_break (block_lines iso_minutes summarize db rd t d1 c1 v1 rest).
Proof.
  intros Ht Hnews [Hd1 Hrest]. unfold block_lines.
  destruct (range_20 c1 (closes_20 db t)) as [[lo hi] pos].
  repeat apply Forall_app_2.
  - constructor; [nb|constructor].
  - destruct rest as [|[[d0 c0] v0] rest]; cbn [head_lines].
    + constructor; [nb|constructor].
    + destruct Hrest as [Hd0 _]. repeat (constructor; [nb|]). constructor.
  - constructor; [nb|constructor].
  - by apply news_block_no_break.
  - constructor; [unfold range_line; nb|constructor].
  - constructor; [nb|constructor].
  - unfold narrative_lines.
    destruct rest as [|[[d0 c0] v0] rest]; cbn [prior snd].
    + constructor; [nb|constructor].
    + destruct Hrest as [_ Ho].
      destruct (summarize _); simpl in Ho; (constructor; [nb|constructor]).
  - constructor; [nb|constructor].
Qed.

(** Reading back lines that were joined gives the same run of the
    parser: only empty lines may differ. *)
Lemma run_join ls : forall st,
  Forall no_break ls -> run st (splitlines (join_nl ls)) = run st ls.
Proof.
  induction ls as [|l ls IH]; intros st Hls; [done|].
  inversion Hls as [|? ? Hl Hls']; subst.
  destruct ls as [|l' ls].
  - simpl join_nl. unfold splitlines. rewrite splitlines_from_last by done.
    simpl. destruct l; [|done]. simpl. by rewrite step_empty.
  - change (join_nl (l :: l' :: ls)) with (l ++ LF :: join_nl (l' :: ls)).
    unfold splitlines. rewrite splitlines_from_line by done.
    change (rev [] ++ l) with l. cbn [run].
    destruct (step st l) as [st'|e]; [|done]. cbn [rbind]. by apply IH.
Qed.

Lemma join_nl_title x bs :
  join_nl ((x ++ [LF]) :: bs) = join_nl (x :: [] :: bs).
Proof.
  destruct bs as [|b bs]; simpl; [done|]. by rewrite <- app_assoc.
Qed.

Lemma finish_eq st :
  finish st
  = mkReport (title (report st)) (meta (report st)) (all_sections st).
Proof.
  unfold finish, all_sections.
  destruct st as [[ti me secs] [cur|] md ln]; simpl; [done|].
  by rewrite app_nil_r.
Qed.

Section Blocks.
Variable iso_minutes : pystr -> option pystr.
Variable summarize : SummArgs -> Outcome.
Variable db : Store.
Variable m : gmap pystr (list Item).
Variable rd : pystr.
Hypothesis Hlatest : latest_of db m.
Hypothesis Hwf : forall t items, m !! t = Some items ->
  no_break t
  /\ Forall wf_news (news_items_of iso_minutes db t)
  /\ wf_block iso_minutes summarize db rd t items.

Lemma blocks_no_break ts :
  Forall no_break
    (concat (List.map (block_of iso_minutes summarize db m rd) ts)).
Proof.
  induction ts as [|t ts IH]; [constructor|].
  change (concat (List.map (block_of iso_minutes summarize db m rd) (t :: ts)))
    with (block_of iso_minutes summarize db m rd t
            ++ concat (List.map (block_of iso_minutes summarize db m rd) ts)).
  apply Forall_app_2; [|done]. unfold block_of.
  destruct (m !! t) as [[|[[d1 c1] v1] rest]|] eqn:Hm; try constructor.
  destruct (Hwf _ _ Hm) as (Ht & Hn & Hb). by apply block_no_break.
Qed.

Lemma run_blocks ts : forall st,
  (forall t, In t ts -> is_Some (m !! t)) ->
  exists st',
    run st (concat (List.map (block_of iso_minutes summarize db m rd) ts))
    = Ok st'
    /\ title (report st') = title (report st)
    /\ meta (report st') = meta (report st)
    /\ all_sections st'
       = all_sections st
           ++ List.map (recovered iso_minutes summarize db m rd) ts.
Proof.
  induction ts as [|t ts IH]; intros st Hts.
  - exists st. simpl. by rewrite app_nil_r.
  - change (concat (List.map (block_of iso_minutes summarize db m rd)
                             (t :: ts)))
      with (block_of iso_minutes summarize db m rd t
              ++ concat (List.map (block_of iso_minutes summarize db m rd)
                                  ts)).
    rewrite run_app.
    destruct (Hts t) as [items Hm]; [by left|].
    pose proof (GenFacts.latest_nonempty _ _ _ _ Hlatest Hm) as Hne.
    destruct items as [|[[d1 c1] v1] rest]; [done|].
    destruct (Hwf _ _ Hm) as (Ht & Hn & Hb).
    destruct (run_block iso_minutes summarize db m rd t d1 c1 v1 rest st
                Hm Ht Hn Hb) as [ln Hrun].
    unfold block_of at 1. rewrite Hm, Hrun. cbn [rbind].
    destruct (IH (mkState (flush (report st) (current st))
                    (Some (recovered iso_minutes summarize db m rd t))
                    MAi ln)) as (st' & Hrun' & Hti & Hme & Hsec).
    { intros t' Ht'. apply Hts. by right. }
    exists st'. split; [done|]. rewrite Hti, Hme, Hsec.
    cbn [report]. rewrite flush_title, flush_meta.
    split; [done|]. split; [done|].
    unfold all_sections. cbn [report current option_list].
    rewrite flush_sections, <- !app_assoc. done.
Qed.

End Blocks.

Lemma str_max_In xs : forall x, In (str_max x xs) (x :: xs).
Proof.
  induction xs as [|y ys IH]; intros x; simpl; [by left|].
  destruct (IH (if str_ltb x y then y else x)) as [H|H]; [|tauto].
  rewrite <- H. destruct (str_ltb x y); tauto.
Qed.

Lemma report_date_no_break (today : pystr) (m : gmap pystr (list Item)) :
  no_break today ->
  (forall t d1 c1 v1 rest,
     m !! t = Some ((d1, c1, v1) :: rest) -> no_break d1) ->
  no_break (report_date_of today m).
Proof.
  intros Htoday Hm. unfold report_date_of.
  set (f := fun kv : pystr * list Item =>
              match snd kv with (d, _, _) :: _ => Some d | [] => None end).
  destruct (omap f (map_to_list m)) as [|d ds] eqn:E; [done|].
  pose proof (str_max_In ds d) as Hin. rewrite <- E in Hin.
  apply list_elem_of_In, list_elem_of_omap in Hin as ([k items] & Hk & Hf).
  apply elem_of_map_to_list in Hk. unfold f in Hf. simpl in Hf.
  destruct items as [|[[d1 c1] v1] rest]; [done|].
  injection Hf as <-. by eapply Hm.
Qed.

End RoundTrip.

Section ParserProperties.
Import Parser Spec ParserFacts.

(** ** Title and meta line *)

(** C4, as stated, fails: a second [# ] line replaces the title, and a
    [## ] line after a [### ] line still sets the meta line. *)
Lemma title_meta_first_only_fails :
  ~ (forall md r, parse_report md = Ok r ->
       title r = first_title (splitlines md)) /\
  ~ (forall md r, parse_report md = Ok r ->
       meta r = meta_before_sections (splitlines md)).
Proof.
  split; intros H.
  - specialize (H text_two_titles _ eq_refl). vm_compute in H. discriminate.
  - specialize (H text_late_meta _ eq_refl). vm_compute in H. discriminate.
Qed.

(** C4, amended. The title of the parsed report is the text of the last
    line that starts with [# ], and its meta line is the first text that is
    not empty among the lines that start with [## ], wherever these stand
    with respect to the [### ] lines; both are empty when there is no such
    line. *)
Theorem title_last_meta_first (md_text : pystr) :
  exists r, parse_report md_text = Ok r
    /\ title r = last_title (splitlines md_text)
    /\ meta r = first_meta (splitlines md_text).
Proof.
  unfold parse_report, parse_lines, rmap.
  destruct (ParserTotal.run_ok (splitlines md_text) init) as [st Hrun].
  rewrite Hrun. simpl. eexists. split; [done|].
  unfold finish. rewrite flush_title, flush_meta.
  pose proof (splitlines_no_break md_text) as Hnb.
  rewrite (run_title _ _ _ Hnb Hrun), (run_meta _ _ _ Hnb Hrun). done.
Qed.

(** ** Sections with the same symbol *)

(** C5, as stated, fails: of two blocks that declare the same symbol the
    first stays in the report with its own fields, so the last one does not
    win. *)
Lemma last_declared_wins_fails :
  ~ (forall md r, parse_report md = Ok r -> last_declared_wins r).
Proof.
  intros H. specialize (H text_same_symbol _ eq_refl).
  unfold last_declared_wins in H.
  specialize (H (mkSection (lit "A") {["date" := lit "1"]} [] [])).
  assert (Hin : In (mkSection (lit "A") {["date" := lit "1"]} [] [])
                   (sections (mkReport [] []
                      [mkSection (lit "A") {["date" := lit "1"]} [] [];
                       mkSection (lit "A") {["date" := lit "2"]} [] []]))).
  { left. done. }
  specialize (H Hin). vm_compute in H.
  discriminate.
Qed.

(** C5, amended. The sections of the parsed report are one per [### ]
    line, in the order of these lines, each with the text of its line as
    symbol, also when symbols repeat; and the sections of a text are kept,
    unchanged and in place, when a further [### ] block follows it. *)
Theorem sections_by_position :
  (forall md_text, exists r, parse_report md_text = Ok r
     /\ List.map ticker (sections r) = declared (splitlines md_text)) /\
  (forall a b, exists r1 r2,
     parse_report (a ++ [LF]) = Ok r1
     /\ parse_report (a ++ LF :: P_H3 ++ b) = Ok r2
     /\ sections r1 `prefix_of` sections r2).
Proof.
  split.
  - intros md_text. unfold parse_report, parse_lines, rmap.
    destruct (ParserTotal.run_ok (splitlines md_text) init) as [st Hrun].
    rewrite Hrun. simpl. eexists. split; [done|].
    rewrite finish_sections.
    by rewrite (run_tickers _ _ _ (splitlines_no_break md_text) Hrun).
  - intros a b. unfold parse_report, parse_lines, rmap.
    rewrite (splitlines_app_nl a (P_H3 ++ b)), run_app.
    destruct (ParserTotal.run_ok (splitlines (a ++ [LF])) init) as [st Hrun].
    rewrite Hrun. cbn [rbind].
    pose proof (splitlines_no_break (P_H3 ++ b)) as Hnb.
    unfold splitlines in Hnb |- *.
    rewrite splitlines_from_prefix in Hnb |- * by (repeat constructor).
    destruct (splitlines_from_nonempty b (rev P_H3 ++ [])) as (l0 & rest & E);
      [done|].
    rewrite E in Hnb |- *. inversion Hnb as [|? ? Hl Hrest]; subst.
    destruct (ParserFacts.step_header st (rev (rev P_H3 ++ []) ++ l0) Hl)
      as (st1 & Hstep & Hsec);
      [rewrite app_nil_r, rev_involutive; apply startswith_app|].
    cbn [run rbind]. rewrite Hstep. cbn [rbind].
    destruct (ParserTotal.run_ok rest st1) as [st2 Hrun2]. rewrite Hrun2.
    cbn [rbind]. do 2 eexists. split; [done|]. split; [done|].
    rewrite !finish_sections, <- Hsec.
    etrans; [by eapply ParserFacts.run_sections_prefix|].
    by eexists.
Qed.

(** ** Lines of unknown shape *)

(** C3, as stated, fails: in narrative mode a line of unknown shape that
    is not blank and does not start with [- ] is added to the narrative. *)
Lemma unknown_line_in_narrative_kept :
  no_break line_plain /\ unknown_shape line_plain = true /\
  parse_report (text_narrative ++ LF :: line_plain ++ LF :: text_next_block)
  <> parse_report (text_narrative ++ LF :: text_next_block).
Proof.
  split; [repeat constructor|]. split; [done|].
  vm_compute. intros H. discriminate.
Qed.

(** C3, amended. A line of unknown shape between two lines of a text is
    ignored when it is blank or starts with [- ], or when the parser is not
    in narrative mode at that place: the parsed report is the one of the
    text without the line. *)
Theorem unknown_line_ignored (a L b : pystr) :
  no_break L -> unknown_shape L = true ->
  continuation L = false \/ mode_after (splitlines (a ++ [LF])) <> MAi ->
  parse_report (a ++ LF :: L ++ LF :: b) = parse_report (a ++ LF :: b).
Proof.
  intros Hnb Hu Hc. unfold parse_report, parse_lines.
  rewrite (splitlines_app_nl a (L ++ LF :: b)), (splitlines_app_nl a b).
  unfold splitlines at 2.
  rewrite splitlines_from_line by done. simpl. rewrite !run_app.
  unfold mode_after in Hc.
  destruct (run init (splitlines (a ++ [LF]))) as [st|e]; [|done].
  simpl. by rewrite ParserFacts.step_unknown.
Qed.

Lemma unknown_line_ignored_witness :
  no_break line_latest /\ unknown_shape line_latest = true /\
  (continuation line_latest = false
   \/ mode_after (splitlines (text_narrative ++ [LF])) <> MAi) /\
  parse_report (text_narrative ++ LF :: line_latest ++ LF :: text_next_block)
  = parse_report (text_narrative ++ LF :: text_next_block).
Proof.
  assert (H1 : no_break line_latest) by repeat constructor.
  assert (H2 : unknown_shape line_latest = true) by reflexivity.
  assert (H3 : continuation line_latest = false
               \/ mode_after (splitlines (text_narrative ++ [LF])) <> MAi)
    by (left; reflexivity).
  split; [exact H1|]. split; [exact H2|]. split; [exact H3|].
  exact (unknown_line_ignored text_narrative line_latest text_next_block
           H1 H2 H3).
Defined.

End ParserProperties.

Section RangeProperties.
Import Gen Spec GenFacts F64 F64Facts.

(** ** The position in the 20-row range *)

(** C2, as stated, fails on the binary64 numbers of the code: with the
    closes [1e308] and [-1e308] the difference of the latest close and the
    low is the positive infinity, so is the difference of the high and the
    low, and the position is their quotient, which is not a number. *)
Lemma range_position_overflow_nan :
  F64.range_of (Qmake (10 ^ 308) 1) (closes_20 store_extreme (lit "ACME"))
  = Some (of_Q (Qmake (- 10 ^ 308) 1), of_Q (Qmake (10 ^ 308) 1), NaN)
  /\ fsub (of_Q (Qmake (10 ^ 308) 1)) (of_Q (Qmake (- 10 ^ 308) 1))
     = Inf false
  /\ ~ range_bounds_as_stated.
Proof.
  assert (E : F64.range_of (Qmake (10 ^ 308) 1)
                (closes_20 store_extreme (lit "ACME"))
              = Some (of_Q (Qmake (- 10 ^ 308) 1),
                      of_Q (Qmake (10 ^ 308) 1), NaN))
    by (vm_compute; reflexivity).
  split; [exact E|]. split; [vm_compute; reflexivity|].
  intros H.
  assert (H1 : build ∅ (prices store_extreme)
               = Ok (latest_map_of store_extreme))
    by (vm_compute; reflexivity).
  assert (H2 : latest_map_of store_extreme !! lit "ACME"
               = Some [(lit "2026-01-11", Qmake (10 ^ 308) 1, 100000%Z);
                       (lit "2026-01-10", Qmake (- 10 ^ 308) 1, 90000%Z)])
    by (vm_compute; reflexivity).
  destruct (H store_extreme _ _ _ _ _ _ H1 H2)
    as (low & high & pos & E' & Hne & _).
  rewrite E in E'. clear E H1 H2.
  assert (Hd : of_Q (Qmake (10 ^ 308) 1) <> of_Q (Qmake (- 10 ^ 308) 1))
    by (vm_compute; discriminate).
  set (lo := of_Q (Qmake (- 10 ^ 308) 1)) in *.
  set (hi := of_Q (Qmake (10 ^ 308) 1)) in *.
  clearbody lo hi. injection E' as <- <- <-.
  exact (Hne Hd).
Qed.

(** C2, amended. For a ticker of [latest_map] the latest close is one of
    the closes of the window, and the division of line 116 does not raise.
    The position is 0.5 when the high and the low of the window are equal.
    When they differ, the position lies between 0 and 1 exactly when the
    difference of the latest close and the low is a number, and it is one
    whenever no close of the window is negative or reads as an infinity. *)
Theorem range_position_binary64 (db : Store) (m : gmap pystr (list Item))
        (t d1 : pystr) (c1 : Q) (v1 : Z) (rest : list Item) :
  build ∅ (prices db) = Ok m ->
  m !! t = Some ((d1, c1, v1) :: rest) ->
  In c1 (closes_20 db t) /\
  exists low_20 high_20 range_pos,
    F64.range_of c1 (closes_20 db t) = Some (low_20, high_20, range_pos)
    /\ (high_20 = low_20 -> range_pos = Fin HALF)
    /\ (high_20 <> low_20 ->
        (in_unit range_pos <-> is_finite (fsub (of_Q c1) low_20)))
    /\ (high_20 <> low_20 -> Forall plain_close (closes_20 db t) ->
        in_unit range_pos).
Proof.
  intros Hb Hm.
  destruct (latest_first db m t _ _ (build_latest _ _ Hb) Hm)
    as (r & rs & Hrows & Hitem).
  unfold item_of in Hitem.
  destruct (p_close r) as [c|] eqn:Hc; [|done]. simplify_eq.
  assert (Hin : In c1 (closes_20 db t)).
  { rewrite (closes_20_first _ _ _ _ _ Hrows Hc). by left. }
  split; [exact Hin|]. by apply range_of_spec.
Qed.

Lemma range_position_binary64_witness :
  build ∅ (prices store_acme) = Ok (latest_map_of store_acme) /\
  latest_map_of store_acme !! lit "ACME"
  = Some [(lit "2026-01-11", (21 # 2)%Q, 100000%Z);
          (lit "2026-01-10", (10 # 1)%Q, 90000%Z)] /\
  (In (21 # 2)%Q (closes_20 store_acme (lit "ACME")) /\
   exists low_20 high_20 range_pos,
     F64.range_of (21 # 2)%Q (closes_20 store_acme (lit "ACME"))
     = Some (low_20, high_20, range_pos)
     /\ (high_20 = low_20 -> range_pos = Fin HALF)
     /\ (high_20 <> low_20 ->
         (in_unit range_pos <-> is_finite (fsub (of_Q (21 # 2)%Q) low_20)))
     /\ (high_20 <> low_20 ->
         Forall plain_close (closes_20 store_acme (lit "ACME")) ->
         in_unit range_pos)).
Proof.
  assert (H1 : build ∅ (prices store_acme) = Ok (latest_map_of store_acme))
    by (vm_compute; reflexivity).
  assert (H2 : latest_map_of store_acme !! lit "ACME"
               = Some [(lit "2026-01-11", (21 # 2)%Q, 100000%Z);
                       (lit "2026-01-10", (10 # 1)%Q, 90000%Z)])
    by (vm_compute; reflexivity).
  split; [exact H1|]. split; [exact H2|].
  exact (range_position_binary64 store_acme _ _ _ _ _ _ H1 H2).
Defined.

End RangeProperties.

Section GeneratorProperties.
Import Fmt Gen Spec GenFacts.

(** ** A prior close of zero *)




(** ** A ticker with one price row *)




(** ** The order of the lines of a block *)

(** C6, as stated, fails: in the block of a ticker with two price rows the
    [- 20D Range:] line stands after the [- News] block, not before it. *)
Lemma range_line_before_news_fails :
  ~ (forall iso_minutes summarize db rd t i1 i0 rest lines,
       ticker_block iso_minutes summarize db rd t (i1 :: i0 :: rest)
       = Ok lines ->
       grammar_order lines).
Proof.
  intros H.
  specialize (H iso_never summarize_fine store_acme today_sample (lit "ACME")
                (lit "2026-01-11", (21 # 2)%Q, 100000%Z)
                (lit "2026-01-10", (10 # 1)%Q, 90000%Z) [] _ eq_refl).
  destruct H as (i & j & k & Hi & Hj & Hk & Hij & Hjk).
  vm_compute in Hj, Hk. simplify_eq. lia.
Qed.

(** C6, amended. The block of a ticker with two price rows or more is, in
    this order: the [### ] line, the [- Date:], [- Close:] and [- Volume:]
    lines, the [- News (headline + summary):] line with its bullets, the
    [- 20D Range:] line, the [- Summary:] line with the narrative, and an
    empty line; so the [- Volume:] line comes first, then the news block,
    then the [- 20D Range:] line. *)
Theorem block_order_two_samples (today : pystr)
        (iso_minutes : pystr -> option pystr)
        (summarize : SummArgs -> Outcome) (db : Store)
        (m : gmap pystr (list Item)) (t : pystr) (r1 r0 : PriceRow)
        (rs : list PriceRow) :
  build ∅ (prices db) = Ok m ->
  rows_of db t = r1 :: r0 :: rs ->
  exists c1 c0 lines rd block,
    m !! t = Some [(p_date r1, c1, default 0%Z (p_volume r1));
                   (p_date r0, c0, default 0%Z (p_volume r0))]
    /\ report_lines today iso_minutes summarize db = Ok (lines, rd)
    /\ has_block lines block
    /\ ticker_block iso_minutes summarize db rd t
         [(p_date r1, c1, default 0%Z (p_volume r1));
          (p_date r0, c0, default 0%Z (p_volume r0))] = Ok block
    /\ block =
         [S_H3 ++ t;
          S_DATE ++ p_date r0 ++ S_ARROW ++ p_date r1;
          S_CLOSE ++ fmt_2f c0 ++ S_ARROW ++ fmt_2f c1
            ++ S_LPAREN ++ fmt_signed_2f (pct_change c0 c1) ++ S_PCT_RPAREN;
          S_VOLUME ++ fmt_comma (default 0%Z (p_volume r1));
          S_NEWS]
         ++ news_block (news_items_of iso_minutes db t)
         ++ [range_line (fst (fst (range_20 c1 (closes_20 db t))))
                        (snd (fst (range_20 c1 (closes_20 db t))))
                        (snd (range_20 c1 (closes_20 db t)));
             S_SUMMARY]
         ++ narrative_lines summarize (Some (pct_change c0 c1))
              (summarize_args iso_minutes db rd t (p_date r1) c1
                 (default 0%Z (p_volume r1))
                 [(p_date r0, c0, default 0%Z (p_volume r0))])
         ++ [[]]
    /\ index_of Parser.P_VOLUME block = Some 3%nat
    /\ index_of Parser.P_NEWS block = Some 4%nat
    /\ index_of Parser.P_RANGE block
       = Some (5 + length (news_block (news_items_of iso_minutes db t)))%nat.
Proof.
  intros Hb Hrows.
  destruct (latest_pair _ _ _ _ _ _ Hb Hrows) as (c1 & c0 & Hc1 & Hc0 & Hm).
  destruct (report_has_block today iso_minutes summarize db m t Hb)
    as (lines & rd & Hrl & -> & Hhas); [by eexists|].
  unfold block_of in Hhas. rewrite Hm, block_lines_pair in Hhas.
  exists c1, c0, lines. do 2 eexists.
  split; [done|]. split; [done|]. split; [exact Hhas|].
  split; [simpl; f_equal; apply block_lines_pair|].
  split; [done|].
  split; [|split].
  - rewrite <- !app_comm_cons.
    do 3 (rewrite index_of_cons_false by reflexivity).
    by rewrite index_of_cons_true.
  - rewrite <- !app_comm_cons.
    do 4 (rewrite index_of_cons_false by reflexivity).
    by rewrite index_of_cons_true.
  - rewrite <- !app_comm_cons.
    do 5 (rewrite index_of_cons_false by reflexivity).
    rewrite app_nil_l, index_of_skip
      by (intros l Hl; by eapply news_block_not_dash).
    rewrite index_of_cons_true by reflexivity.
    simpl. do 2 f_equal. lia.
Qed.

Lemma block_order_two_samples_witness :
  build ∅ (prices store_acme) = Ok (latest_map_of store_acme) /\
  rows_of store_acme (lit "ACME")
  = [mkPrice (lit "ACME") (lit "2026-01-11") (Some (21 # 2)%Q)
             (Some 100000%Z);
     mkPrice (lit "ACME") (lit "2026-01-10") (Some (10 # 1)%Q)
             (Some 90000%Z)] /\
  exists c1 c0 lines rd block,
    latest_map_of store_acme !! lit "ACME"
    = Some [(lit "2026-01-11", c1, 100000%Z); (lit "2026-01-10", c0, 90000%Z)]
    /\ report_lines today_sample iso_never summarize_fine store_acme
       = Ok (lines, rd)
    /\ has_block lines block
    /\ ticker_block iso_never summarize_fine store_acme rd (lit "ACME")
         [(lit "2026-01-11", c1, 100000%Z); (lit "2026-01-10", c0, 90000%Z)]
       = Ok block
    /\ block =
         [S_H3 ++ lit "ACME";
          S_DATE ++ lit "2026-01-10" ++ S_ARROW ++ lit "2026-01-11";
          S_CLOSE ++ fmt_2f c0 ++ S_ARROW ++ fmt_2f c1
            ++ S_LPAREN ++ fmt_signed_2f (pct_change c0 c1) ++ S_PCT_RPAREN;
          S_VOLUME ++ fmt_comma 100000%Z;
          S_NEWS]
         ++ news_block (news_items_of iso_never store_acme (lit "ACME"))
         ++ [range_line
               (fst (fst (range_20 c1 (closes_20 store_acme (lit "ACME")))))
               (snd (fst (range_20 c1 (closes_20 store_acme (lit "ACME")))))
               (snd (range_20 c1 (closes_20 store_acme (lit "ACME"))));
             S_SUMMARY]
         ++ narrative_lines summarize_fine (Some (pct_change c0 c1))
              (summarize_args iso_never store_acme rd (lit "ACME")
                 (lit "2026-01-11") c1 100000%Z
                 [(lit "2026-01-10", c0, 90000%Z)])
         ++ [[]]
    /\ index_of Parser.P_VOLUME block = Some 3%nat
    /\ index_of Parser.P_NEWS block = Some 4%nat
    /\ index_of Parser.P_RANGE block
       = Some (5 + length (news_block
                             (news_items_of iso_never store_acme
                                            (lit "ACME"))))%nat.
Proof.
  assert (H1 : build ∅ (prices store_acme) = Ok (latest_map_of store_acme))
    by (vm_compute; reflexivity).
  assert (H2 : rows_of store_acme (lit "ACME")
               = [mkPrice (lit "ACME") (lit "2026-01-11") (Some (21 # 2)%Q)
                          (Some 100000%Z);
                  mkPrice (lit "ACME") (lit "2026-01-10") (Some (10 # 1)%Q)
                          (Some 90000%Z)])
    by (vm_compute; reflexivity).
  split; [exact H1|]. split; [exact H2|].
  exact (block_order_two_samples today_sample iso_never summarize_fine
           store_acme _ _ _ _ _ H1 H2).
Defined.

(** ** A failure of the collaborator *)




(** The report of the store of the witness, line by line: the collaborator
    fails for [ZED], and the block of [ACME] carries its narrative. *)
Example narrative_failure_sample_report :
  generate today_sample iso_never summarize_zed_fails store_zero
  = Ok (join_nl
          [lit "# Daily Market Report (2026-01-11)" ++ [LF];
           lit "### ACME";
           lit "- Date: 2026-01-10" ++ S_ARROW ++ lit "2026-01-11";
           lit "- Close: 10.00" ++ S_ARROW ++ lit "10.50 (+5.00%)";
           lit "- Volume: 100,000";
           lit "- News (headline + summary):";
           lit "  - (no recent news)";
           lit "- 20D Range: low 10.00, high 10.50, position 1.00";
           lit "- Summary:";
           lit "  - Quiet session.";
           [];
           lit "### ZED";
           lit "- Date: 2026-01-10" ++ S_ARROW ++ lit "2026-01-11";
           lit "- Close: 0.00" ++ S_ARROW ++ lit "3.00 (+0.00%)";
           lit "- Volume: 0";
           lit "- News (headline + summary):";
           lit "  - (no recent news)";
           lit "- 20D Range: low 0.00, high 3.00, position 1.00";
           lit "- Summary:";
           lit "  - (Error: boom)";
           []],
        lit "2026-01-11").
Proof. vm_compute. reflexivity. Qed.

End GeneratorProperties.

Section RoundTripProperties.
Import Fmt Gen Spec Parser ParserFacts GenFacts RoundTrip.

(** ** Writing a report and reading it back *)


Lemma latest_map_store_single :
  latest_map_of store_single
  = {[ lit "ACME" := [(lit "2026-01-11", (21 # 2)%Q, 100000%Z)] ]}.
Proof. vm_compute. reflexivity. Qed.

Lemma well_formed_store_single :
  well_formed today_sample iso_never summarize_fine store_single
              (latest_map_of store_single).
Proof.
  split; [nb|]. intros t items Hm. rewrite latest_map_store_single in Hm.
  apply lookup_singleton_Some in Hm as [<- <-].
  split; [nb|]. split; [vm_compute; constructor|].
  split; [nb|done].
Qed.


(** What is read back of the report of a ticker with one price row, and
    of the report with a narrative of two lines. *)
Example single_sample_read_back :
  (let* out := generate today_sample iso_never summarize_fine store_single in
   let* r := parse_report (fst out) in
   Ok (List.map (fun s => map_to_list (Parser.kv s)) (sections r)))
  = Ok [[("range", lit "low 10.50, high 10.50, position 0.50")]].
Proof. vm_compute. reflexivity. Qed.

Example two_lines_read_back :
  (let* out := generate today_sample iso_never summarize_two_lines
                        store_acme in
   let* r := parse_report (fst out) in
   Ok (List.map (fun s => (Parser.ticker s, Parser.ai s)) (sections r)))
  = Ok [(lit "ACME", lit "Quiet session."); (lit "Outlook", [])].
Proof. vm_compute. reflexivity. Qed.

Lemma latest_map_store_news :
  latest_map_of store_news
  = {[ lit "ACME" := [(lit "2026-01-11", (21 # 2)%Q, 100000%Z);
                      (lit "2026-01-10", (10 # 1)%Q, 90000%Z)] ]}.
Proof. vm_compute. reflexivity. Qed.

Lemma well_formed_store_news :
  well_formed today_sample iso_never summarize_fine store_news
              (latest_map_of store_news).
Proof.
  split; [nb|]. intros t items Hm. rewrite latest_map_store_news in Hm.
  apply lookup_singleton_Some in Hm as [<- <-].
  split; [nb|]. split.
  - constructor; [|constructor].
    repeat split; try (vm_compute; nb). by right.
  - split; [nb|]. split; [nb|]. simpl. nb.
Qed.


End RoundTripProperties.

(** ** Escaping and shortening *)

Module RenderFacts.
Import Parser Fmt StrOps Render.

Lemma replace_char (c : N) (new s : pystr) :
  replace [c] new s = flat_map (fun x => if x =? c then new else [x]) s.
Proof.
  unfold replace. induction s as [|x s IH]; [done|].
  cbn [replace_from flat_map length].
  change (startswith [c] (x :: s)) with ((c =? x) && true).
  rewrite andb_true_r, (N.eqb_sym c x).
  destruct (x =? c); simpl; by rewrite IH.
Qed.

Lemma esc_flat_map (s : pystr) : esc s = flat_map esc_char s.
Proof.
  unfold esc. rewrite !replace_char.
  induction s as [|c s IH]; [done|].
  cbn [flat_map]. rewrite !flat_map_app, IH. f_equal.
  unfold esc_char.
  destruct (c =? 38) eqn:E1; [reflexivity|].
  cbn [flat_map]. rewrite app_nil_r.
  destruct (c =? 60) eqn:E2; [reflexivity|].
  cbn [flat_map]. rewrite app_nil_r. done.
Qed.

Lemma esc_char_cases (c : N) :
  (c = 38 /\ esc_char c = E_AMP) \/ (c = 60 /\ esc_char c = E_LT)
  \/ (c = 62 /\ esc_char c = E_GT)
  \/ (c <> 38 /\ c <> 60 /\ c <> 62 /\ esc_char c = [c]).
Proof.
  unfold esc_char.
  destruct (N.eqb_spec c 38); [by left|].
  destruct (N.eqb_spec c 60); [by right; left|].
  destruct (N.eqb_spec c 62); [by right; right; left|].
  by right; right; right.
Qed.

Lemma esc_cons (c : N) (s : pystr) : esc (c :: s) = esc_char c ++ esc s.
Proof. by rewrite !esc_flat_map. Qed.


Lemma esc_no_lt_gt (s : pystr) : ~ In 60 (esc s) /\ ~ In 62 (esc s).
Proof.
  induction s as [|c s [IH1 IH2]]; [by simpl; tauto|].
  rewrite esc_cons.
  destruct (esc_char_cases c) as [[-> ->]|[[-> ->]|[[-> ->]|(N1&N2&N3& ->)]]];
    split; intros H; apply in_app_or in H as [H|H]; try tauto;
    simpl in H; intuition (try discriminate; congruence).
Qed.

Lemma esc_amp_entity (s pre post : pystr) :
  esc s = pre ++ 38 :: post ->
  startswith (lit "amp;") post || startswith (lit "lt;") post
  || startswith (lit "gt;") post = true.
Proof.
  revert pre. induction s as [|c s IH]; intros pre H.
  - by destruct pre.
  - rewrite esc_cons in H.
    destruct (esc_char_cases c) as [[-> E]|[[-> E]|[[-> E]|(N1&N2&N3& E)]]];
      rewrite E in H; clear E.
    + destruct pre as [|p0 pre]; [by simplify_eq/=|].
      do 4 (destruct pre as [|? pre]; [by simplify_eq/=|]).
      simplify_eq/=. by eapply IH.
    + destruct pre as [|p0 pre]; [by simplify_eq/=|].
      do 3 (destruct pre as [|? pre]; [by simplify_eq/=|]).
      simplify_eq/=. by eapply IH.
    + destruct pre as [|p0 pre]; [by simplify_eq/=|].
      do 3 (destruct pre as [|? pre]; [by simplify_eq/=|]).
      simplify_eq/=. by eapply IH.
    + destruct pre as [|p0 pre]; [by simplify_eq/=|].
      simplify_eq/=. by eapply IH.
Qed.

Lemma until_slash_app (host path : pystr) :
  ~ In 47 host ->
  match path with [] => True | c :: _ => c = 47 end ->
  until_slash (host ++ path) = (host, path).
Proof.
  intros Hh Hp. induction host as [|c host IH]; simpl.
  - destruct path as [|c q]; [done|]. subst c. done.
  - destruct (N.eqb_spec c 47) as [->|_]; [by destruct Hh; left|].
    rewrite IH; [done|]. intros Hin. apply Hh. by right.
Qed.

Lemma dot_star_end_no_newline (q : pystr) :
  ~ In LF q -> dot_star_end q = true.
Proof.
  induction q as [|c q IH]; [done|]. intros Hin. simpl.
  destruct (N.eqb_spec c LF) as [->|_]; [by destruct Hin; left|].
  apply IH. intros H. apply Hin. by right.
Qed.

Lemma url_domain_scheme (scheme host path : pystr) :
  scheme = P_HTTP \/ scheme = P_HTTPS ->
  host <> [] -> ~ In 47 host ->
  match path with [] => True | c :: q => c = 47 /\ ~ In LF q end ->
  url_domain (scheme ++ host ++ path) = Some host.
Proof.
  intros Hs Hne Hh Hp. unfold url_domain.
  assert (Hrest : (if startswith P_HTTP (scheme ++ host ++ path)
                   then Some (drop 7 (scheme ++ host ++ path))
                   else if startswith P_HTTPS (scheme ++ host ++ path)
                        then Some (drop 8 (scheme ++ host ++ path))
                        else None) = Some (host ++ path)).
  { destruct Hs as [-> | ->].
    - by rewrite startswith_app.
    - rewrite (startswith_app P_HTTPS). done. }
  rewrite Hrest, until_slash_app; [|done|by destruct path as [|c q]; [|destruct Hp]].
  destruct host as [|h host]; [done|]. cbn [is_empty].
  destruct path as [|c q]; [done|]. destruct Hp as [_ Hq].
  by rewrite dot_star_end_no_newline.
Qed.

Lemma is_empty_nil (s : pystr) : is_empty s = true <-> s = [].
Proof. by destruct s. Qed.

Lemma url_domain_nonempty (u d : pystr) : url_domain u = Some d -> d <> [].
Proof.
  unfold url_domain.
  destruct (if startswith P_HTTP u then _ else _) as [r|]; [|done].
  destruct (until_slash r) as [dom path]. destruct dom as [|c dom]; [done|].
  cbn [is_empty]. destruct path as [|x q]; [by intros [= <-]|].
  destruct (dot_star_end q); [by intros [= <-]|done].
Qed.

Lemma url_domain_not_url (u : pystr) :
  startswith P_HTTP u = false -> startswith P_HTTPS u = false ->
  url_domain u = None.
Proof. intros H1 H2. unfold url_domain. by rewrite H1, H2. Qed.

Lemma cut_60_length (u : pystr) : (length (cut_60 u) <= 61)%nat.
Proof.
  unfold cut_60. rewrite length_app, length_take.
  destruct (60 <? length u)%nat; cbn [length]; lia.
Qed.

Lemma cut_60_short (u : pystr) : (length u <= 60)%nat -> cut_60 u = u.
Proof.
  intros H. unfold cut_60. rewrite take_ge by lia.
  destruct (Nat.ltb_spec 60 (length u)); [lia|]. by rewrite app_nil_r.
Qed.

Lemma slice_from_tail (k : Z) (u : pystr) :
  (0 < k)%Z ->
  (if (k <? Z.of_nat (length u))%Z then slice_from (- k) u else u)
  = drop (length u - Z.to_nat k) u.
Proof.
  intros Hk. destruct (Z.ltb_spec k (Z.of_nat (length u))) as [Hlt|Hge].
  - unfold slice_from. destruct (Z.leb_spec 0 (- k)); [lia|].
    f_equal. lia.
  - replace (length u - Z.to_nat k)%nat with O by lia. done.
Qed.

End RenderFacts.

Section RenderProperties.
Import Parser Fmt StrOps Render RenderFacts.

(** X1. [esc] leaves no angle bracket in a text, and every ampersand of its
    result begins one of the three entities that it writes. *)
Theorem esc_no_markup (s : pystr) :
  ~ In 60 (esc s) /\ ~ In 62 (esc s)
  /\ forall pre post, esc s = pre ++ 38 :: post ->
       startswith (lit "amp;") post || startswith (lit "lt;") post
       || startswith (lit "gt;") post = true.
Proof.
  destruct (esc_no_lt_gt s) as [H1 H2]. split; [done|]. split; [done|].
  intros pre post. apply esc_amp_entity.
Qed.

(** X2. [esc] loses nothing: two texts with the same escaped form are the
    same text. *)
Theorem esc_one_to_one (s t : pystr) : esc s = esc t <-> s = t.
Proof.
  split; [|by intros ->].
  revert t. induction s as [|c s IH]; intros [|d t] H.
  - done.
  - rewrite esc_cons in H.
    destruct (esc_char_cases d) as [[-> E]|[[-> E]|[[-> E]|(N1&N2&N3& E)]]];
      rewrite E in H; discriminate.
  - rewrite esc_cons in H.
    destruct (esc_char_cases c) as [[-> E]|[[-> E]|[[-> E]|(N1&N2&N3& E)]]];
      rewrite E in H; discriminate.
  - rewrite !esc_cons in H.
    destruct (esc_char_cases c) as [[-> E]|[[-> E]|[[-> E]|(N1&N2&N3& E)]]];
    destruct (esc_char_cases d) as [[-> F]|[[-> F]|[[-> F]|(M1&M2&M3& F)]]];
      rewrite ?E, ?F in H; clear E F; simplify_eq/=;
      try congruence; f_equal; by apply IH.
Qed.

(** X3. [short_url] returns the empty text for a blank url and for no other. *)
Theorem short_url_blank (url : pystr) (keep_tail : Z) :
  short_url url keep_tail = [] <-> strip url = [].
Proof.
  unfold short_url. destruct (strip url) as [|c u] eqn:E; [done|].
  cbn [is_empty]. split; [|done].
  destruct (url_domain (c :: u)) as [d|] eqn:Ed.
  - by destruct d.
  - unfold cut_60. done.
Qed.

(** X4. A text that does not start with [http://] or [https://] is cut to
    its first 60 code points, with an ellipsis when something is cut: the
    result has at most 61 code points, and a text of at most 60 code points
    is returned as it is, stripped. *)
Theorem short_url_plain_text (url : pystr) (keep_tail : Z) :
  is_url url = false ->
  short_url url keep_tail = cut_60 (strip url)
  /\ (length (short_url url keep_tail) <= 61)%nat
  /\ ((length (strip url) <= 60)%nat ->
       short_url url keep_tail = strip url).
Proof.
  intros H. unfold is_url in H. apply orb_false_iff in H as [H1 H2].
  assert (E : short_url url keep_tail = cut_60 (strip url)).
  { unfold short_url. destruct (strip url) as [|c u] eqn:Eu; [done|].
    cbn [is_empty]. by rewrite url_domain_not_url. }
  rewrite E. split; [done|]. split; [apply cut_60_length|].
  apply cut_60_short.
Qed.

(** X5. For a url made of a scheme, a host without a slash and a path, the
    result is the host, an ellipsis and the last [keep_tail] code points of
    the url (the whole url when it is not longer than that). *)
Theorem short_url_host_and_tail (scheme host path : pystr) (keep_tail : Z) :
  let url := scheme ++ host ++ path in
  scheme = P_HTTP \/ scheme = P_HTTPS ->
  host <> [] -> ~ In 47 host ->
  match path with [] => True | c :: q => c = 47 /\ ~ In LF q end ->
  strip url = url ->
  (0 < keep_tail)%Z ->
  short_url url keep_tail
  = host ++ ELLIPSIS :: drop (length url - Z.to_nat keep_tail) url.
Proof.
  intros url Hs Hne Hh Hp Hstrip Hk. unfold short_url. rewrite Hstrip.
  assert (Hu : is_empty url = false).
  { destruct Hs as [-> | ->]; done. }
  rewrite Hu. unfold url. rewrite url_domain_scheme by done.
  fold url. by rewrite slice_from_tail.
Qed.

Lemma short_url_plain_text_witness :
  is_url (lit "see page 4") = false
  /\ short_url (lit "see page 4") 10 = lit "see page 4".
Proof.
  split; [reflexivity|].
  apply (short_url_plain_text (lit "see page 4") 10); [reflexivity|].
  vm_compute. lia.
Defined.

Lemma short_url_host_and_tail_witness :
  short_url (lit "https://example.com/news/2026/acme.html") 10
  = lit "example.com" ++ ELLIPSIS :: lit "/acme.html".
Proof.
  apply (short_url_host_and_tail P_HTTPS (lit "example.com")
           (lit "/news/2026/acme.html") 10).
  - by right.
  - done.
  - vm_compute. intuition discriminate.
  - split; [reflexivity|]. vm_compute. intuition discriminate.
  - vm_compute. reflexivity.
  - lia.
Defined.

End RenderProperties.

(** ** From the generator to the renderer *)

Module PipelineFacts.
Import Fmt Gen Spec Parser ParserFacts GenFacts RoundTrip.

(** The report that [parse_report] reads from the text of [generate]. *)
Lemma parse_generated (today : pystr) (iso_minutes : pystr -> option pystr)
      (summarize : SummArgs -> Outcome) (db : Store)
      (m : gmap pystr (list Item)) :
  build ∅ (prices db) = Ok m ->
  well_formed today iso_minutes summarize db m ->
  exists text,
    generate today iso_minutes summarize db
    = Ok (text, report_date_of today m)
    /\ parse_report text
       = Ok (mkReport
               (strip (T_TITLE ++ report_date_of today m ++ S_RPAREN)) []
               (List.map (recovered iso_minutes summarize db m
                                    (report_date_of today m))
                         (tickers_of m))).
Proof.
  intros Hb [Htoday Hwf].
  pose proof (build_latest _ _ Hb) as Hlatest.
  unfold generate. rewrite (report_lines_ok _ _ _ _ _ Hb). cbn [rbind fst snd].
  eexists. split; [done|].
  set (rd := report_date_of today m) in *.
  assert (Hrd : no_break rd).
  { apply report_date_no_break; [done|].
    intros t d1 c1 v1 rest Hm. by destruct (Hwf _ _ Hm) as (_ & _ & [H _]). }
  unfold parse_report, parse_lines.
  replace (S_TITLE ++ rd ++ S_RPAREN ++ [LF])
    with ((S_TITLE ++ rd ++ S_RPAREN) ++ [LF])
    by (by rewrite <- !app_assoc).
  rewrite join_nl_title, run_join.
  2:{ constructor; [nb|]. constructor; [constructor|].
      by apply (blocks_no_break iso_minutes summarize db m rd). }
  cbn [run]. rewrite step_title_line by nb.
  cbn [rbind]. rewrite step_empty. cbn [rbind].
  destruct (run_blocks iso_minutes summarize db m rd Hlatest Hwf
              (tickers_of m)
              (mkState (set_title (strip (T_TITLE ++ rd ++ S_RPAREN))
                                  (report init))
                       (current init) (mode init) (last_news init)))
    as (st' & Hrun & Hti & Hme & Hsec).
  { intros t. apply In_tickers_of. }
  rewrite Hrun. unfold rmap. cbn [rbind].
  rewrite finish_eq, Hti, Hme, Hsec. done.
Qed.


Import Render RenderFacts StrOps.

Lemma In_lstrip (c : N) (s : pystr) :
  is_space c = false -> In c s -> In c (lstrip s).
Proof.
  intros Hc. induction s as [|x s IH]; [done|]. intros [->|Hin]; simpl.
  - rewrite Hc. by left.
  - destruct (is_space x); [by apply IH|by right].
Qed.

Lemma In_strip (c : N) (s : pystr) :
  is_space c = false -> In c s -> In c (strip s).
Proof.
  intros Hc Hin. unfold strip, rstrip.
  apply in_rev. rewrite rev_involutive. apply In_lstrip; [done|].
  apply in_rev. rewrite rev_involutive. by apply In_lstrip.
Qed.

Lemma strip_not_empty (c : N) (s : pystr) :
  is_space c = false -> In c s -> is_empty (strip s) = false.
Proof.
  intros Hc Hin. pose proof (In_strip c s Hc Hin) as H.
  by destruct (strip s).
Qed.

Lemma digits_of_uint_digit (d : Decimal.uint) :
  Forall (fun c => is_space c = false) (digits_of_uint d).
Proof. induction d; simpl; by constructor. Qed.

Lemma digits_not_empty (n : N) : digits n <> [].
Proof.
  unfold digits. destruct n as [|p]; [done|]. simpl.
  pose proof (Unsigned.to_uint_nonnil p) as H.
  by destruct (Pos.to_uint p).
Qed.

Lemma commas_head (ds : pystr) :
  match ds with [] => True | c :: _ => In c (commas ds) end.
Proof.
  destruct ds as [|a [|b [|c [|d ds]]]]; simpl; auto.
Qed.

Lemma fmt_comma_not_blank (z : Z) : is_empty (strip (fmt_comma z)) = false.
Proof.
  destruct (rev (digits (Z.abs_N z))) as [|c r] eqn:E.
  { apply (f_equal (@rev N)) in E. rewrite rev_involutive in E.
    by destruct (digits_not_empty (Z.abs_N z)). }
  apply (strip_not_empty c).
  - pose proof (digits_of_uint_digit (N.to_uint (Z.abs_N z))) as H.
    fold (digits (Z.abs_N z)) in H. apply Forall_rev in H. rewrite E in H.
    by inversion H.
  - unfold fmt_comma. apply in_or_app. right. apply in_rev.
    rewrite rev_involutive, E. apply (commas_head (c :: r)).
Qed.

Lemma recovered_ticker iso_minutes summarize db m rd t :
  ticker (recovered iso_minutes summarize db m rd t) = strip t.
Proof.
  unfold recovered, normalize. cbn [ticker].
  unfold with_placeholder, model_section.
  destruct (m !! t) as [[|[[d1 c1] v1] rest]|]; cbn [news ticker];
    try done. by destruct (List.map _ _).
Qed.

Lemma recovered_news_not_empty iso_minutes summarize db m rd t :
  news (recovered iso_minutes summarize db m rd t) <> [].
Proof.
  unfold recovered, normalize. cbn [news].
  unfold with_placeholder.
  destruct (news (model_section iso_minutes summarize db m rd t)) eqn:E.
  - done.
  - rewrite E. done.
Qed.

Lemma recovered_news_stub iso_minutes summarize db m rd t :
  take 3 (news_of db t) = [] ->
  news (recovered iso_minutes summarize db m rd t)
  = [mkNews T_NO_NEWS [] []].
Proof.
  intros Hn. unfold recovered, normalize. cbn [news].
  assert (E : news (model_section iso_minutes summarize db m rd t) = []).
  { unfold model_section, news_items_of. rewrite Hn.
    destruct (m !! t) as [[|[[d1 c1] v1] rest]|]; done. }
  unfold with_placeholder. rewrite E. done.
Qed.

Lemma get_truthy_Some (kv : gmap string pystr) (k : string) (v : pystr) :
  kv !! k = Some v -> is_empty v = false -> get_truthy kv k = Some v.
Proof. intros H1 H2. unfold get_truthy. by rewrite H1, H2. Qed.

Lemma get_truthy_None (kv : gmap string pystr) (k : string) :
  kv !! k = None -> get_truthy kv k = None.
Proof. intros H1. unfold get_truthy. by rewrite H1. Qed.

Lemma range_text_not_blank (rng : Q * Q * Q) :
  is_empty (strip (range_text rng)) = false.
Proof. apply (strip_not_empty 108); [done|]. by left. Qed.

Lemma arrow_not_blank (a b : pystr) :
  is_empty (strip (a ++ S_ARROW ++ b)) = false.
Proof.
  apply (strip_not_empty 8594); [done|].
  apply in_or_app. right. right. by left.
Qed.

(** The rows of the table for a ticker with one item in [latest_map]. *)
Lemma kv_rows_single d1 c1 v1 rng :
  kv_rows (strip <$> model_kv d1 c1 v1 [] rng)
  = [[CText L_RANGE;
      CText (esc (replace [SQUARE] [] (strip (range_text rng))))]].
Proof.
  unfold kv_rows, model_kv.
  rewrite (get_truthy_None _ "date"), (get_truthy_None _ "close"),
    (get_truthy_None _ "volume"); try (by rewrite lookup_fmap).
  erewrite (get_truthy_Some _ "range").
  - done.
  - by rewrite lookup_fmap, lookup_insert_eq.
  - apply range_text_not_blank.
Qed.

(** The rows of the table for a ticker with two items. *)
Lemma kv_rows_pair d1 c1 v1 d0 c0 v0 rest rng :
  kv_rows (strip <$> model_kv d1 c1 v1 ((d0, c0, v0) :: rest) rng)
  = [[CText L_DATE; CText (esc (strip (d0 ++ S_ARROW ++ d1)))];
     [CText L_CLOSE;
      CText (esc (strip (fmt_2f c0 ++ S_ARROW ++ fmt_2f c1 ++ S_LPAREN
                           ++ fmt_signed_2f (pct_change c0 c1)
                           ++ S_PCT_RPAREN)))];
     [CText L_VOLUME; CText (esc (strip (fmt_comma v1)))];
     [CText L_RANGE;
      CText (esc (replace [SQUARE] [] (strip (range_text rng))))]].
Proof.
  unfold kv_rows, model_kv.
  erewrite (get_truthy_Some _ "date"), (get_truthy_Some _ "close"),
    (get_truthy_Some _ "volume"), (get_truthy_Some _ "range").
  - done.
  - by rewrite lookup_fmap, lookup_insert_eq.
  - apply range_text_not_blank.
  - rewrite lookup_fmap, lookup_insert_ne, lookup_insert_eq by done. done.
  - apply fmt_comma_not_blank.
  - rewrite lookup_fmap, !lookup_insert_ne, lookup_insert_eq by done. done.
  - apply (arrow_not_blank (fmt_2f c0)).
  - rewrite lookup_fmap, !lookup_insert_ne, lookup_insert_eq by done. done.
  - apply arrow_not_blank.
Qed.

Lemma recovered_kv iso_minutes summarize db m rd t d1 c1 v1 rest :
  m !! t = Some ((d1, c1, v1) :: rest) ->
  kv (recovered iso_minutes summarize db m rd t)
  = strip <$> model_kv d1 c1 v1 rest (range_20 c1 (closes_20 db t)).
Proof.
  intros Hm. unfold recovered, normalize. cbn [kv].
  unfold with_placeholder, model_section. rewrite Hm.
  by destruct (List.map _ _).
Qed.

End PipelineFacts.

Section PipelineProperties.
Import Fmt Gen Spec Parser GenFacts StrOps Render RenderFacts PipelineFacts.

(** X6. When the texts of the store are well formed (today's date, the
    tickers, the dates of the items, the fields of the news and the
    narratives hold no line break, and every url is empty or starts with
    [http://] or [https://]), no section that [parse_report] reads from the
    report of [generate] is without a news item, so the renderer does not
    take its branch [if not news] for such a section: the sections are those
    of the tickers, in their order, and for a ticker without news rows the
    one item is the line [(no recent news)], without summary and url. *)
Theorem generated_report_never_without_news (today : pystr)
        (iso_minutes : pystr -> option pystr)
        (summarize : SummArgs -> Outcome) (db : Store)
        (m : gmap pystr (list Item)) :
  build ∅ (prices db) = Ok m ->
  well_formed today iso_minutes summarize db m ->
  exists text rd r,
    generate today iso_minutes summarize db = Ok (text, rd)
    /\ parse_report text = Ok r
    /\ length (sections r) = length (tickers_of m)
    /\ forall i t sec,
         tickers_of m !! i = Some t -> sections r !! i = Some sec ->
         ticker sec = strip t
         /\ news sec <> []
         /\ (news_of db t = [] -> news sec = [mkNews T_NO_NEWS [] []]).
Proof.
  intros Hb Hwf.
  destruct (parse_generated _ _ _ _ _ Hb Hwf) as (text & Hgen & Hparse).
  exists text, (report_date_of today m). eexists.
  split; [done|]. split; [exact Hparse|]. cbn [sections].
  split; [by rewrite length_map|].
  intros i t sec Ht Hsec. rewrite list_lookup_fmap, Ht in Hsec.
  injection Hsec as <-. split; [|split].
  - apply recovered_ticker.
  - apply recovered_news_not_empty.
  - intros Hn. apply recovered_news_stub. by rewrite Hn.
Qed.

(** X7. When the texts of the store are well formed (no line break in
    today's date, the tickers, the dates of the items, the fields of the
    news and the narratives; every url empty or starting with [http://] or
    [https://]), the list [data] that [kv_table] fills for a section read
    from the report of [generate] has, for a ticker with two items in
    [latest_map], the four rows [Date], [Close], [Volume] and [20D Range]
    with the escaped texts of the report, and for a ticker with one item the
    row [20D Range] alone, since the parser reads no key from its [-
    Latest:] line. *)
Theorem generated_report_table_rows (today : pystr)
        (iso_minutes : pystr -> option pystr)
        (summarize : SummArgs -> Outcome) (db : Store)
        (m : gmap pystr (list Item)) :
  build ∅ (prices db) = Ok m ->
  well_formed today iso_minutes summarize db m ->
  exists text rd r,
    generate today iso_minutes summarize db = Ok (text, rd)
    /\ parse_report text = Ok r
    /\ forall i t sec,
         tickers_of m !! i = Some t -> sections r !! i = Some sec ->
         (forall d1 c1 v1, m !! t = Some [(d1, c1, v1)] ->
            kv_rows (kv sec)
            = [[CText L_RANGE;
                CText (esc (replace [SQUARE] []
                              (strip (range_text
                                        (range_20 c1 (closes_20 db t))))))]])
         /\ (forall d1 c1 v1 d0 c0 v0 rest,
               m !! t = Some ((d1, c1, v1) :: (d0, c0, v0) :: rest) ->
               kv_rows (kv sec)
               = [[CText L_DATE; CText (esc (strip (d0 ++ S_ARROW ++ d1)))];
                  [CText L_CLOSE;
                   CText (esc (strip (fmt_2f c0 ++ S_ARROW ++ fmt_2f c1
                                        ++ S_LPAREN
                                        ++ fmt_signed_2f (pct_change c0 c1)
                                        ++ S_PCT_RPAREN)))];
                  [CText L_VOLUME; CText (esc (strip (fmt_comma v1)))];
                  [CText L_RANGE;
                   CText (esc (replace [SQUARE] []
                                 (strip (range_text
                                           (range_20 c1
                                              (closes_20 db t))))))]]).
Proof.
  intros Hb Hwf.
  destruct (parse_generated _ _ _ _ _ Hb Hwf) as (text & Hgen & Hparse).
  exists text, (report_date_of today m). eexists.
  split; [done|]. split; [exact Hparse|]. cbn [sections].
  intros i t sec Ht Hsec. rewrite list_lookup_fmap, Ht in Hsec.
  injection Hsec as <-. split.
  - intros d1 c1 v1 Hm. rewrite (recovered_kv _ _ _ _ _ _ _ _ _ _ Hm).
    apply kv_rows_single.
  - intros d1 c1 v1 d0 c0 v0 rest Hm.
    rewrite (recovered_kv _ _ _ _ _ _ _ _ _ _ Hm).
    apply kv_rows_pair.
Qed.

(** X8. The head line of a rendered news item is the display line of the
    item in which every capital [T] is replaced by a blank and every black
    square is removed, escaped: no capital [T] of a headline is shown. *)
Theorem news_head_loses_capital_T (i : N) (it : NewsItem) :
  exists text rest,
    news_paragraphs i it
    = Paragraph (digits i ++ L_DOT ++ esc text) St_news_item :: rest
    /\ text = List.filter (fun c => negb (c =? SQUARE))
                (List.map (fun c => if c =? 84 then 32 else c) (line it))
    /\ ~ In 84 (esc text).
Proof.
  unfold news_paragraphs. do 2 eexists. split; [reflexivity|].
  rewrite !replace_char.
  assert (E : forall s : pystr,
             flat_map (fun x => if x =? SQUARE then [] else [x])
               (flat_map (fun x => if x =? 84 then [32] else [x]) s)
             = List.filter (fun c => negb (c =? SQUARE))
                 (List.map (fun c => if c =? 84 then 32 else c) s)).
  { induction s as [|c s IH]; [done|]. cbn [flat_map List.map].
    rewrite flat_map_app, IH.
    destruct (c =? 84); cbn [flat_map List.filter app];
      [done|]. rewrite app_nil_r. by destruct (c =? SQUARE). }
  rewrite E. split; [done|].
  generalize (line it). intros s. rewrite esc_flat_map.
  intros Hin. apply in_flat_map in Hin as (c & Hc & Hin).
  apply filter_In in Hc as [Hc _]. apply in_map_iff in Hc as (x & <- & _).
  destruct (x =? 84) eqn:Hx.
  - destruct Hin as [H|[]]. discriminate.
  - apply N.eqb_neq in Hx.
    destruct (esc_char_cases x) as [[Hc E1]|[[Hc E1]|[[Hc E1]|(N1&N2&N3& E1)]]];
      rewrite E1 in Hin; clear E1.
    + repeat (destruct Hin as [Hin|Hin]; [discriminate|]). done.
    + repeat (destruct Hin as [Hin|Hin]; [discriminate|]). done.
    + repeat (destruct Hin as [Hin|Hin]; [discriminate|]). done.
    + destruct Hin as [Hin|[]]. congruence.
Qed.

Lemma generated_report_never_without_news_witness :
  build ∅ (prices store_news) = Ok (latest_map_of store_news)
  /\ well_formed today_sample iso_never summarize_fine store_news
                 (latest_map_of store_news)
  /\ exists text rd r,
       generate today_sample iso_never summarize_fine store_news
       = Ok (text, rd)
       /\ parse_report text = Ok r
       /\ length (sections r) = length (tickers_of (latest_map_of store_news))
       /\ forall i t sec,
            tickers_of (latest_map_of store_news) !! i = Some t ->
            sections r !! i = Some sec ->
            ticker sec = strip t
            /\ news sec <> []
            /\ (news_of store_news t = [] ->
                news sec = [mkNews T_NO_NEWS [] []]).
Proof.
  assert (H1 : build ∅ (prices store_news) = Ok (latest_map_of store_news))
    by (vm_compute; reflexivity).
  split; [exact H1|]. split; [exact well_formed_store_news|].
  exact (generated_report_never_without_news today_sample iso_never
           summarize_fine store_news _ H1 well_formed_store_news).
Defined.

Lemma generated_report_table_rows_witness :
  build ∅ (prices store_single) = Ok (latest_map_of store_single)
  /\ well_formed today_sample iso_never summarize_fine store_single
                 (latest_map_of store_single)
  /\ exists text rd r,
       generate today_sample iso_never summarize_fine store_single
       = Ok (text, rd)
       /\ parse_report text = Ok r
       /\ forall i t sec,
            tickers_of (latest_map_of store_single) !! i = Some t ->
            sections r !! i = Some sec ->
            (forall d1 c1 v1,
               latest_map_of store_single !! t = Some [(d1, c1, v1)] ->
               kv_rows (kv sec)
               = [[CText L_RANGE;
                   CText (esc (replace [SQUARE] []
                                 (strip (range_text
                                           (range_20 c1
                                              (closes_20 store_single
                                                         t))))))]])
            /\ (forall d1 c1 v1 d0 c0 v0 rest,
                  latest_map_of store_single !! t
                  = Some ((d1, c1, v1) :: (d0, c0, v0) :: rest) ->
                  kv_rows (kv sec)
                  = [[CText L_DATE;
                      CText (esc (strip (d0 ++ S_ARROW ++ d1)))];
                     [CText L_CLOSE;
                      CText (esc (strip (fmt_2f c0 ++ S_ARROW ++ fmt_2f c1
                                           ++ S_LPAREN
                                           ++ fmt_signed_2f
                                                (pct_change c0 c1)
                                           ++ S_PCT_RPAREN)))];
                     [CText L_VOLUME; CText (esc (strip (fmt_comma v1)))];
                     [CText L_RANGE;
                      CText (esc (replace [SQUARE] []
                                    (strip (range_text
                                              (range_20 c1
                                                 (closes_20 store_single
                                                            t))))))]]).
Proof.
  assert (H1 : build ∅ (prices store_single)
               = Ok (latest_map_of store_single))
    by (vm_compute; reflexivity).
  split; [exact H1|]. split; [exact well_formed_store_single|].
  exact (generated_report_table_rows today_sample iso_never
           summarize_fine store_single _ H1 well_formed_store_single).
Defined.

End PipelineProperties.

(** ** The texts that the parser stores *)

Module CleanFacts.
Import Parser ParserFacts Clean.

Lemma stripped_strip (s : pystr) : stripped (strip s).
Proof. apply strip_idemp. Qed.

Lemma stripped_nil : stripped [].
Proof. done. Qed.

Lemma clean_kv_empty : clean_kv ∅.
Proof. intros k v H. by rewrite lookup_empty in H. Qed.

Lemma clean_kv_insert (kv : gmap string pystr) (k : string) (v : pystr) :
  In k KEYS -> clean_kv kv -> clean_kv (<[k := strip v]> kv).
Proof.
  intros Hk Hkv k' v' H. destruct (decide (k = k')) as [<-|Hne].
  - rewrite lookup_insert_eq in H. injection H as <-.
    split; [done|apply stripped_strip].
  - rewrite lookup_insert_ne in H by done. by apply Hkv.
Qed.

Lemma clean_flush (r : Report) (cur : option Section) :
  clean_report r ->
  match cur with Some c => clean_section c | None => True end ->
  clean_report (flush r cur).
Proof.
  intros (Ht & Hm & Hs) Hc. destruct cur as [c|]; [|done].
  split; [done|]. split; [done|]. simpl. apply Forall_app. split; [done|].
  by constructor.
Qed.

Lemma clean_news_alter (f : NewsItem -> NewsItem) (i : nat)
      (ns : list NewsItem) :
  (forall n, clean_news n -> clean_news (f n)) ->
  Forall clean_news ns -> Forall clean_news (alter f i ns).
Proof. intros Hf Hns. apply Forall_alter; [done|]. intros n _. apply Hf. Qed.

Lemma step_clean (st st' : PState) (l : pystr) :
  clean_state st -> step st l = Ok st' -> clean_state st'.
Proof.
  intros [(Ht & Hm & Hs) Hc] H. destruct st as [rep cur md ln].
  cbn [report current] in *.
  unfold step in H. cbn [report current mode last_news] in H.
  destruct (startswith P_H1 _).
  { injection H as <-. split; [|done].
    split; [apply stripped_strip|by split]. }
  destruct (_ && startswith P_H2 _).
  { injection H as <-. split; [|done].
    split; [done|]. split; [apply stripped_strip|done]. }
  destruct (startswith P_H3 _).
  { injection H as <-. split.
    - by apply clean_flush.
    - split; [apply stripped_strip|]. split; [apply clean_kv_empty|].
      constructor. }
  destruct cur as [cur|]; [|injection H as <-; by split].
  destruct Hc as (Hct & Hck & Hcn).
  assert (Hcur : clean_section cur) by (split; [done|by split]).
  assert (Hrep : clean_report rep) by (split; [done|by split]).
  assert (Hkv : forall k,
             In k KEYS -> kv_line (mkState rep (Some cur) md ln) cur k
                            (rstrip_nl l) = Ok st' -> clean_state st').
  { intros k Hk Hl. unfold kv_line, rbind in Hl.
    destruct (split_colon_1 (rstrip_nl l)) as [v|]; [|done].
    injection Hl as <-. split; [exact Hrep|]. cbn [current].
    split; [done|]. split; [by apply clean_kv_insert|done]. }
  destruct (startswith P_DATE _); [refine (Hkv _ _ H); vm_compute; tauto|].
  destruct (startswith P_CLOSE _); [refine (Hkv _ _ H); vm_compute; tauto|].
  destruct (startswith P_VOLUME _); [refine (Hkv _ _ H); vm_compute; tauto|].
  destruct (startswith P_RANGE _); [refine (Hkv _ _ H); vm_compute; tauto|].
  clear Hkv.
  destruct (startswith P_NEWS _); [injection H as <-; split; [exact Hrep|exact Hcur]|].
  destruct (_ || _); [injection H as <-; split; [exact Hrep|exact Hcur]|].
  destruct (is_news md && bullet_match 2 _).
  { injection H as <-. split; [exact Hrep|]. cbn [current].
    split; [done|]. split; [done|]. cbn [news set_news]. apply Forall_app.
    split; [done|]. constructor; [|done].
    split; [apply stripped_strip|]. split; [done|]. split; [done|by left]. }
  destruct (if is_news md && bullet_match 4 _ then _ else _) as [i|].
  - destruct (lower_startswith_summary _).
    + unfold rbind in H. destruct (split_colon_1 _) as [v|]; [|done].
      injection H as <-. split; [exact Hrep|]. cbn [current].
      split; [done|]. split; [done|]. cbn [news set_news].
      apply clean_news_alter; [|done].
      intros n (H1 & H2 & H3 & H4).
      split; [done|]. split; [apply stripped_strip|by split].
    + destruct (is_url _) eqn:Hu; [|by injection H as <-].
      injection H as <-. split; [exact Hrep|]. cbn [current].
      split; [done|]. split; [done|]. cbn [news set_news].
      apply clean_news_alter; [|done].
      intros n (H1 & H2 & H3 & H4).
      split; [done|]. split; [done|]. split; [apply stripped_strip|by right].
  - destruct (is_ai md && bullet_match 2 _); [injection H as <-; split; [exact Hrep|exact Hcur]|].
    destruct (_ && _); injection H as <-; (split; [exact Hrep|exact Hcur]).
Qed.

Lemma run_clean (ls : list pystr) : forall st st',
  clean_state st -> run st ls = Ok st' -> clean_state st'.
Proof.
  induction ls as [|l ls IH]; intros st st' Hst H; simpl in H.
  - by injection H as <-.
  - destruct (step st l) as [st1|] eqn:E; [|done]. simpl in H.
    eapply IH; [|done]. by eapply step_clean.
Qed.

Lemma clean_init : clean_state init.
Proof. split; [|done]. split; [done|]. split; [done|constructor]. Qed.

End CleanFacts.

Section CleanProperties.
Import Parser ParserFacts Clean CleanFacts.

(** X9. Whatever the text, the report of [parse_report] holds no text with
    whitespace at its ends in its title, its meta line, its symbols, its
    key/value strings and its news items, and the [kv] of a section holds no
    key other than [date], [close], [volume] and [range]. *)
Theorem parsed_texts_stripped (md_text : pystr) :
  exists r,
    parse_report md_text = Ok r
    /\ strip (title r) = title r /\ strip (meta r) = meta r
    /\ forall sec, In sec (sections r) ->
         strip (ticker sec) = ticker sec
         /\ (forall k v, kv sec !! k = Some v ->
               In k ["date"; "close"; "volume"; "range"]%string
               /\ strip v = v)
         /\ forall n, In n (news sec) ->
              strip (line n) = line n /\ strip (summary n) = summary n
              /\ strip (url n) = url n.
Proof.
  unfold parse_report, parse_lines.
  destruct (ParserTotal.run_ok (splitlines md_text) init) as [st Hrun].
  rewrite Hrun. eexists. split; [reflexivity|].
  destruct (run_clean _ _ _ clean_init Hrun) as [Hrep Hcur].
  destruct (clean_flush _ _ Hrep Hcur) as (Ht & Hm & Hs).
  split; [exact Ht|]. split; [exact Hm|].
  intros sec Hsec. rewrite Forall_forall in Hs.
  destruct (Hs sec) as (H1 & H2 & H3); [by apply list_elem_of_In|].
  split; [exact H1|]. split; [exact H2|].
  intros n Hn. rewrite Forall_forall in H3.
  destruct (H3 n) as (L1 & L2 & L3 & _); [by apply list_elem_of_In|]. done.
Qed.

(** X10. The url of a news item of the report is empty or passes [is_url]: a
    sub-bullet with any other text never becomes the link of an item. *)
Theorem parsed_urls_are_urls (md_text : pystr) :
  exists r,
    parse_report md_text = Ok r
    /\ forall sec n, In sec (sections r) -> In n (news sec) ->
         url n = [] \/ is_url (url n) = true.
Proof.
  unfold parse_report, parse_lines.
  destruct (ParserTotal.run_ok (splitlines md_text) init) as [st Hrun].
  rewrite Hrun. eexists. split; [reflexivity|].
  destruct (run_clean _ _ _ clean_init Hrun) as [Hrep Hcur].
  destruct (clean_flush _ _ Hrep Hcur) as (_ & _ & Hs).
  intros sec n Hsec Hn. rewrite Forall_forall in Hs.
  destruct (Hs sec) as (_ & _ & H3); [by apply list_elem_of_In|].
  rewrite Forall_forall in H3.
  destruct (H3 n) as (_ & _ & _ & L4); [by apply list_elem_of_In|]. done.
Qed.

End CleanProperties.

(** ** Sections are parsed one by one *)

Module LocalFacts.
Import Parser Spec ParserFacts.

(** On a line that is no [## ] line, a step does not read the report: from
    two states with the same locals it leads to two states with the same
    locals, and it appends the same sections to both reports. *)
Lemma step_same_locals rep rep0 cur md ln l st st0 :
  startswith P_H2 (rstrip_nl l) = false ->
  step (mkState rep cur md ln) l = Ok st ->
  step (mkState rep0 cur md ln) l = Ok st0 ->
  current st = current st0 /\ mode st = mode st0
  /\ last_news st = last_news st0
  /\ exists added,
       sections (report st) = sections rep ++ added
       /\ sections (report st0) = sections rep0 ++ added.
Proof.
  intros H2 H H0. unfold step in H, H0.
  cbn [report current mode last_news] in H, H0.
  rewrite H2, andb_false_r in H, H0.
  destruct (startswith P_H1 _).
  { injection H as <-. injection H0 as <-. cbn.
    repeat split. exists []. by rewrite !app_nil_r. }
  destruct (startswith P_H3 _).
  { injection H as <-. injection H0 as <-. cbn [current mode last_news report].
    repeat split. exists (option_list cur). by rewrite !flush_sections. }
  assert (Hsame : forall s, Ok (A := PState) s = Ok st ->
            forall s0, Ok s0 = Ok st0 ->
            current s = current s0 -> mode s = mode s0 ->
            last_news s = last_news s0 ->
            report s = rep -> report s0 = rep0 ->
            current st = current st0 /\ mode st = mode st0
            /\ last_news st = last_news st0
            /\ exists added,
                 sections (report st) = sections rep ++ added
                 /\ sections (report st0) = sections rep0 ++ added).
  { intros s [= <-] s0 [= <-] E1 E2 E3 E4 E5. repeat split; try done.
    exists []. by rewrite !app_nil_r, E4, E5. }
  destruct cur as [cur|]; [|by eapply Hsame].
  unfold kv_line, rbind in H, H0.
  cbn [report current mode last_news] in H, H0.
  destruct (startswith P_DATE _).
  { destruct (split_colon_1 (rstrip_nl l)); [by eapply Hsame|done]. }
  destruct (startswith P_CLOSE _).
  { destruct (split_colon_1 (rstrip_nl l)); [by eapply Hsame|done]. }
  destruct (startswith P_VOLUME _).
  { destruct (split_colon_1 (rstrip_nl l)); [by eapply Hsame|done]. }
  destruct (startswith P_RANGE _).
  { destruct (split_colon_1 (rstrip_nl l)); [by eapply Hsame|done]. }
  destruct (startswith P_NEWS _); [by eapply Hsame|].
  destruct (_ || _); [by eapply Hsame|].
  destruct (is_news md && bullet_match 2 _); [by eapply Hsame|].
  destruct (if is_news md && bullet_match 4 _ then _ else _) as [i|].
  - destruct (lower_startswith_summary _).
    + destruct (split_colon_1 _); [by eapply Hsame|done].
    + destruct (is_url _); by eapply Hsame.
  - destruct (is_ai md && bullet_match 2 _); [by eapply Hsame|].
    destruct (_ && _); by eapply Hsame.
Qed.

Lemma run_same_locals ls : forall rep rep0 cur md ln st st0,
  Forall (fun l => startswith P_H2 (rstrip_nl l) = false) ls ->
  run (mkState rep cur md ln) ls = Ok st ->
  run (mkState rep0 cur md ln) ls = Ok st0 ->
  current st = current st0
  /\ exists added,
       sections (report st) = sections rep ++ added
       /\ sections (report st0) = sections rep0 ++ added.
Proof.
  induction ls as [|l ls IH]; intros rep rep0 cur md ln st st0 Hls H H0.
  - simpl in H, H0. injection H as <-. injection H0 as <-.
    split; [done|]. exists []. by rewrite !app_nil_r.
  - inversion Hls as [|? ? Hl Hls']; subst. simpl in H, H0.
    destruct (step (mkState rep cur md ln) l) as [s|] eqn:E; [|done].
    destruct (step (mkState rep0 cur md ln) l) as [s0|] eqn:E0; [|done].
    cbn [rbind] in H, H0.
    destruct (step_same_locals _ _ _ _ _ _ _ _ Hl E E0)
      as (Hc & Hm & Hn & added & Ha & Ha0).
    destruct s as [r1 c1 m1 n1], s0 as [r2 c2 m2 n2].
    cbn [current mode last_news report] in *. subst c2 m2 n2.
    destruct (IH _ _ _ _ _ _ _ Hls' H H0) as (Hcur & added' & Hb & Hb0).
    split; [done|]. exists (added ++ added').
    by rewrite Hb, Hb0, Ha, Ha0, <- !app_assoc.
Qed.

Lemma step_header_eq st l :
  no_break l -> startswith P_H3 l = true ->
  step st l
  = Ok (mkState (flush (report st) (current st))
                (Some (mkSection (strip (drop 4 l)) ∅ [] [])) MNone None).
Proof.
  intros Hnb H3. unfold step. rewrite (rstrip_nl_no_break _ Hnb), H3.
  destruct (startswith P_H1 l) eqn:E1.
  { apply H1_not_H3 in E1. congruence. }
  destruct (startswith P_H2 l) eqn:E2.
  { apply H2_not_H3 in E2. congruence. }
  by rewrite andb_false_r.
Qed.

End LocalFacts.

Section LocalProperties.
Import Parser Spec ParserFacts LocalFacts.

(** X11. The sections of a text that continues after a line break with a
    [### ] line are the sections of the text before, followed by the
    sections of the continuation parsed alone, when no line of the
    continuation starts with [## ]: what stands before a symbol header has
    no effect on the sections from this header on. *)
Theorem sections_parse_independently (a b : pystr) :
  Forall (fun l => startswith P_H2 l = false) (splitlines (P_H3 ++ b)) ->
  exists r1 r2 r,
    parse_report (a ++ [LF]) = Ok r1
    /\ parse_report (P_H3 ++ b) = Ok r2
    /\ parse_report (a ++ LF :: P_H3 ++ b) = Ok r
    /\ sections r = sections r1 ++ sections r2.
Proof.
  intros Hno. unfold parse_report, parse_lines, rmap.
  rewrite (splitlines_app_nl a (P_H3 ++ b)), run_app.
  destruct (ParserTotal.run_ok (splitlines (a ++ [LF])) init) as [st Hrun].
  rewrite Hrun. cbn [rbind].
  pose proof (splitlines_no_break (P_H3 ++ b)) as Hnb.
  unfold splitlines in Hnb, Hno |- *.
  rewrite splitlines_from_prefix in Hnb, Hno |- * by (repeat constructor).
  destruct (splitlines_from_nonempty b (rev P_H3 ++ [])) as (l0 & rest & E);
    [done|].
  rewrite E in Hnb, Hno |- *.
  inversion Hnb as [|? ? Hl Hrest]; subst.
  inversion Hno as [|? ? _ Hno']; subst.
  set (l := rev (rev P_H3 ++ []) ++ l0) in *.
  assert (H3 : startswith P_H3 l = true).
  { unfold l. rewrite app_nil_r, rev_involutive. apply startswith_app. }
  cbn [run]. rewrite !(step_header_eq _ l Hl H3). cbn [rbind].
  set (sec := mkSection (strip (drop 4 l)) ∅ [] []).
  destruct (ParserTotal.run_ok rest
              (mkState (flush (report st) (current st)) (Some sec) MNone
                       None)) as [st1 Hrun1].
  destruct (ParserTotal.run_ok rest
              (mkState (flush (report init) (current init)) (Some sec) MNone
                       None)) as [st2 Hrun2].
  rewrite Hrun1, Hrun2. cbn [rbind].
  do 3 eexists. split; [reflexivity|]. split; [reflexivity|].
  split; [reflexivity|].
  assert (Hlines : Forall (fun l => startswith P_H2 (rstrip_nl l) = false)
                     rest).
  { apply Forall_forall. intros x Hx. rewrite Forall_forall in Hrest, Hno'.
    rewrite (rstrip_nl_no_break _ (Hrest x Hx)). by apply Hno'. }
  destruct (run_same_locals _ _ _ _ _ _ _ _ Hlines Hrun1 Hrun2)
    as (Hcur & added & Ha & Ha0).
  rewrite !finish_sections. unfold all_sections.
  rewrite Ha, Ha0, Hcur, !flush_sections. cbn [report current init sections].
  unfold all_sections. cbn [option_list app].
  by rewrite <- !app_assoc.
Qed.

Lemma sections_parse_independently_witness :
  exists r1 r2 r,
    parse_report (text_narrative ++ [LF]) = Ok r1
    /\ parse_report (P_H3 ++ lit "B") = Ok r2
    /\ parse_report (text_narrative ++ LF :: P_H3 ++ lit "B") = Ok r
    /\ sections r = sections r1 ++ sections r2.
Proof.
  apply (sections_parse_independently text_narrative (lit "B")).
  vm_compute. repeat constructor.
Defined.

End LocalProperties.

(** ** The links of the rendered news *)

Module LinkFacts.
Import Parser Fmt StrOps Render RenderFacts Clean CleanFacts.



(** [esc] leaves a double quote as it is: a url with a double quote
    writes it into the value of [href]. *)
Example link_markup_double_quote :
  link_markup (lit "http://a" ++ [34] ++ lit "b")
  = lit "<link href=" ++ [34] ++ lit "http://a" ++ [34] ++ lit "b"
      ++ [34; 62] ++ lit "a" ++ [34] ++ lit "b" ++ [ELLIPSIS]
      ++ lit "http://a" ++ [34] ++ lit "b" ++ lit "</link>".
Proof. vm_compute. reflexivity. Qed.

End LinkFacts.

Section LinkProperties.
Import Parser Fmt StrOps Render RenderFacts Clean CleanFacts LinkFacts.


End LinkProperties.

(** ** The cache of summaries *)

Module SummFacts.
Import Gen Summ.

Lemma get_saved now tbl rd t mdl s :
  get_cached_summary (save_summary now tbl rd t mdl s) rd t mdl = Some s.
Proof. unfold get_cached_summary, save_summary. by rewrite lookup_insert_eq. Qed.

Lemma get_saved_other now tbl rd t mdl s rd' t' mdl' :
  (rd, t, mdl) <> (rd', t', mdl') ->
  get_cached_summary (save_summary now tbl rd t mdl s) rd' t' mdl'
  = get_cached_summary tbl rd' t' mdl'.
Proof.
  intros H. unfold get_cached_summary, save_summary.
  by rewrite lookup_insert_ne.
Qed.

Lemma get_cleared tbl rd t mdl :
  get_cached_summary (clear_ai_cache tbl rd) rd t mdl = None.
Proof.
  unfold get_cached_summary, clear_ai_cache.
  destruct (filter _ tbl !! (rd, t, mdl)) as [row|] eqn:E; [|done].
  apply map_lookup_filter_Some in E as [_ H]. by destruct H.
Qed.

Lemma get_cleared_other tbl rd rd' t mdl :
  rd' <> rd ->
  get_cached_summary (clear_ai_cache tbl rd) rd' t mdl
  = get_cached_summary tbl rd' t mdl.
Proof.
  intros Hne. unfold get_cached_summary, clear_ai_cache.
  destruct (tbl !! (rd', t, mdl)) as [row|] eqn:E.
  - erewrite (proj2 (map_lookup_filter_Some _ _ _ _)); [done|]. by split.
  - destruct (filter _ tbl !! (rd', t, mdl)) as [row|] eqn:F; [|done].
    apply map_lookup_filter_Some in F as [F _]. congruence.
Qed.

Lemma summarize_miss MODEL complete now tbl rd a :
  match get_cached_summary tbl rd (b_ticker a) MODEL with
  | Some (_ :: _) => False
  | _ => True
  end ->
  snd (summarize MODEL complete now tbl rd a)
  = answered (complete MODEL (build_prompt a)).
Proof.
  intros H. unfold summarize.
  destruct (get_cached_summary _ _ _ _) as [[|c cs]|]; try done;
    by destruct (complete _ _).
Qed.

End SummFacts.

Section SummaryCacheProperties.
Import Gen Summ SummFacts.

(** X13. After [save_summary] the cache gives the saved text for its date,
    ticker and model, whatever was stored before, and gives what it gave
    before for every other key. *)
Theorem saved_summary_is_cached (now : pystr) (tbl : Cache)
        (rd t mdl s rd' t' mdl' : pystr) :
  get_cached_summary (save_summary now tbl rd t mdl s) rd' t' mdl'
  = if decide ((rd, t, mdl) = (rd', t', mdl')) then Some s
    else get_cached_summary tbl rd' t' mdl'.
Proof.
  destruct (decide _) as [E|Hne].
  - injection E as <- <- <-. apply get_saved.
  - by apply get_saved_other.
Qed.

(** X14. After [clear_ai_cache] for a date the cache holds no text for that
    date, for any ticker and model, and gives what it gave before for every
    other date. *)
Theorem cleared_cache_lookup (tbl : Cache) (rd rd' t mdl : pystr) :
  get_cached_summary (clear_ai_cache tbl rd) rd' t mdl
  = if decide (rd' = rd) then None else get_cached_summary tbl rd' t mdl.
Proof.
  destruct (decide _) as [->|Hne].
  - apply get_cleared.
  - by apply get_cleared_other.
Qed.

(** X15. Once [summarize] has returned a text that is not empty for a date
    and a ticker, every later call for this date and ticker returns this
    text and leaves the table as it is: whatever the prices and the news of
    the call are, the service is not asked again. *)
Theorem summary_served_from_cache (MODEL now : pystr)
        (complete : pystr -> pystr -> Outcome) (tbl tbl' : Cache)
        (rd : pystr) (a : PromptArgs) (text : pystr) :
  summarize MODEL complete now tbl rd a = (tbl', Returned text) ->
  text <> [] ->
  forall (complete' : pystr -> pystr -> Outcome) (now' : pystr)
         (a' : PromptArgs),
    b_ticker a' = b_ticker a ->
    summarize MODEL complete' now' tbl' rd a' = (tbl', Returned text).
Proof.
  intros H Hne complete' now' a' Ht.
  assert (Hc : get_cached_summary tbl' rd (b_ticker a) MODEL = Some text).
  { unfold summarize in H.
    destruct (get_cached_summary tbl rd (b_ticker a) MODEL)
      as [[|c cs]|] eqn:E.
    - destruct (complete _ _); [|done]. injection H as <- <-.
      apply get_saved.
    - by injection H as <- <-.
    - destruct (complete _ _); [|done]. injection H as <- <-.
      apply get_saved. }
  unfold summarize. rewrite Ht, Hc. by destruct text.
Qed.

(** X16. A completion that is blank is stored as the empty text, and the
    empty text does not count as cached: the next call for the same date and
    ticker asks the service again. *)
Theorem blank_summary_asked_again (MODEL now : pystr)
        (complete : pystr -> pystr -> Outcome) (tbl : Cache)
        (rd : pystr) (a : PromptArgs) (content : pystr) :
  get_cached_summary tbl rd (b_ticker a) MODEL = None ->
  complete MODEL (build_prompt a) = Returned content ->
  strip content = [] ->
  exists tbl',
    summarize MODEL complete now tbl rd a = (tbl', Returned [])
    /\ get_cached_summary tbl' rd (b_ticker a) MODEL = Some []
    /\ forall (complete' : pystr -> pystr -> Outcome) (now' : pystr),
         snd (summarize MODEL complete' now' tbl' rd a)
         = answered (complete' MODEL (build_prompt a)).
Proof.
  intros Hmiss Hc Hblank. eexists. unfold summarize at 1.
  rewrite Hmiss, Hc, Hblank. split; [reflexivity|].
  split; [apply get_saved|].
  intros complete' now'. apply summarize_miss. by rewrite get_saved.
Qed.

(** X17. After [clear_ai_cache] for a date, [summarize] for this date
    returns what the service answers, stripped, or raises as the service
    does: no text of the table is used. *)
Theorem summary_after_clear (MODEL now : pystr)
        (complete : pystr -> pystr -> Outcome) (tbl : Cache)
        (rd : pystr) (a : PromptArgs) :
  snd (summarize MODEL complete now (clear_ai_cache tbl rd) rd a)
  = answered (complete MODEL (build_prompt a)).
Proof.
  unfold summarize. rewrite get_cleared.
  by destruct (complete MODEL (build_prompt a)).
Qed.

(** X18. [summarize] changes the cached text of no other date, ticker or
    model than its own. *)
Theorem summarize_keeps_other_keys (MODEL now : pystr)
        (complete : pystr -> pystr -> Outcome) (tbl : Cache)
        (rd : pystr) (a : PromptArgs) (rd' t' mdl' : pystr) :
  (rd', t', mdl') <> (rd, b_ticker a, MODEL) ->
  get_cached_summary (fst (summarize MODEL complete now tbl rd a))
                     rd' t' mdl'
  = get_cached_summary tbl rd' t' mdl'.
Proof.
  intros Hne. unfold summarize.
  destruct (get_cached_summary tbl rd (b_ticker a) MODEL) as [[|c cs]|];
    try done; destruct (complete _ _); try done; cbn [fst];
    apply get_saved_other; congruence.
Qed.

Lemma summary_served_from_cache_witness :
  summarize model_sample complete_text now_sample ∅ date_sample args_sample
  = (cache_sample, Returned (lit "Quiet session."))
  /\ summarize model_sample complete_blank now_sample cache_sample
               date_sample args_sample
     = (cache_sample, Returned (lit "Quiet session.")).
Proof.
  assert (H : summarize model_sample complete_text now_sample ∅ date_sample
                        args_sample
              = (cache_sample, Returned (lit "Quiet session."))).
  { unfold summarize, get_cached_summary. rewrite lookup_empty.
    reflexivity. }
  split; [exact H|].
  exact (summary_served_from_cache model_sample now_sample complete_text ∅
           cache_sample date_sample args_sample (lit "Quiet session.") H
           ltac:(discriminate) complete_blank now_sample args_sample
           eq_refl).
Defined.

Lemma blank_summary_asked_again_witness :
  exists tbl',
    summarize model_sample complete_blank now_sample ∅ date_sample
              args_sample = (tbl', Returned [])
    /\ get_cached_summary tbl' date_sample (b_ticker args_sample)
                          model_sample = Some []
    /\ forall (complete' : pystr -> pystr -> Outcome) (now' : pystr),
         snd (summarize model_sample complete' now' tbl' date_sample
                        args_sample)
         = answered (complete' model_sample (build_prompt args_sample)).
Proof.
  apply (blank_summary_asked_again model_sample now_sample complete_blank ∅
           date_sample args_sample (lit "  ")).
  - unfold get_cached_summary. by rewrite lookup_empty.
  - reflexivity.
  - reflexivity.
Defined.

Lemma summarize_keeps_other_keys_witness :
  get_cached_summary
    (fst (summarize model_sample complete_text now_sample ∅ date_sample
                    args_sample))
    (lit "2026-01-10") (lit "ACME") model_sample
  = get_cached_summary ∅ (lit "2026-01-10") (lit "ACME") model_sample.
Proof.
  apply (summarize_keeps_other_keys model_sample now_sample complete_text ∅
           date_sample args_sample).
  intros H. apply (f_equal (fun k : Key => fst (fst k))) in H.
  vm_compute in H. discriminate H.
Defined.

End SummaryCacheProperties.

(** ** The order of strings and [sorted] *)

Module SortFacts.
Import Gen GenFacts Order.

Lemma str_ltb_irrefl (a : pystr) : str_ltb a a = false.
Proof.
  induction a as [|x a IH]; [done|]. simpl.
  by rewrite N.ltb_irrefl, N.eqb_refl, IH.
Qed.

Lemma str_ltb_trans (a : pystr) : forall b c,
  str_ltb a b = true -> str_ltb b c = true -> str_ltb a c = true.
Proof.
  induction a as [|x a IH]; intros [|y b] [|z c] H1 H2; simpl in *;
    try done.
  apply orb_true_iff in H1, H2. apply orb_true_iff.
  destruct H1 as [H1|[H1 H1']%andb_true_iff];
    destruct H2 as [H2|[H2 H2']%andb_true_iff].
  - left. apply N.ltb_lt in H1, H2. apply N.ltb_lt. lia.
  - left. apply N.ltb_lt in H1. apply N.eqb_eq in H2. apply N.ltb_lt. lia.
  - left. apply N.eqb_eq in H1. apply N.ltb_lt in H2. apply N.ltb_lt. lia.
  - right. apply N.eqb_eq in H1, H2. subst. rewrite N.eqb_refl. simpl.
    by eapply IH.
Qed.

Lemma str_ltb_total (a : pystr) : forall b,
  str_ltb a b = false -> a <> b -> str_ltb b a = true.
Proof.
  induction a as [|x a IH]; intros [|y b] H Hne; simpl in *; try done.
  apply orb_false_iff in H as [H1 H2]. apply N.ltb_ge in H1.
  destruct (N.eqb_spec x y) as [->|Hxy].
  - simpl in H2. rewrite N.eqb_refl. simpl.
    rewrite (IH b H2); [by rewrite orb_true_r|]. congruence.
  - apply orb_true_iff. left. apply N.ltb_lt. lia.
Qed.

Lemma str_ltb_asym (a b : pystr) :
  str_ltb a b = true -> str_ltb b a = false.
Proof.
  intros H. destruct (str_ltb b a) eqn:E; [|done].
  pose proof (str_ltb_trans _ _ _ H E) as Haa.
  by rewrite str_ltb_irrefl in Haa.
Qed.

Lemma insert_sorted_ascending (x : pystr) (l : list pystr) :
  ~ In x l -> ascending l -> ascending (insert_sorted x l).
Proof.
  intros Hx Hl. induction Hl as [|y l Hl IH Hy]; simpl.
  - repeat constructor.
  - destruct (str_ltb y x) eqn:E.
    + constructor.
      * apply IH. intros Hin. apply Hx. by right.
      * apply Forall_forall. intros z Hz.
        apply list_elem_of_In, In_insert_sorted in Hz as [->|Hz]; [done|].
        rewrite Forall_forall in Hy. by apply Hy, list_elem_of_In.
    + assert (Hxy : str_ltb x y = true).
      { apply str_ltb_total; [done|]. intros ->. apply Hx. by left. }
      constructor; [by constructor|].
      constructor; [done|].
      eapply Forall_impl; [exact Hy|]. intros z Hz. simpl in Hz.
      by eapply str_ltb_trans.
Qed.

Lemma sorted_ascending (l : list pystr) : NoDup l -> ascending (sorted l).
Proof.
  induction 1 as [|x l Hx Hl IH]; simpl; [constructor|].
  apply insert_sorted_ascending; [|done].
  intros Hin. apply Hx. by apply list_elem_of_In, In_sorted.
Qed.

Lemma insert_sorted_length (x : pystr) (l : list pystr) :
  length (insert_sorted x l) = S (length l).
Proof.
  induction l as [|y l IH]; simpl; [done|].
  destruct (str_ltb y x); simpl; by rewrite ?IH.
Qed.

Lemma sorted_length (l : list pystr) : length (sorted l) = length l.
Proof.
  induction l as [|x l IH]; simpl; [done|].
  by rewrite insert_sorted_length, IH.
Qed.

Lemma ascending_rev (l : list pystr) : ascending l -> descending (rev l).
Proof.
  induction 1 as [|x l Hl IH Hx]; simpl; [constructor|].
  unfold descending. apply StronglySorted_app_2; [|done|repeat constructor].
  intros a b Ha Hb. apply list_elem_of_In in Ha, Hb.
  destruct Hb as [<-|[]]. apply in_rev in Ha.
  rewrite Forall_forall in Hx. by apply Hx, list_elem_of_In.
Qed.

Lemma ascending_NoDup (l : list pystr) : ascending l -> NoDup l.
Proof.
  induction 1 as [|x l Hl IH Hx]; constructor; [|done].
  intros Hin. rewrite Forall_forall in Hx. specialize (Hx x Hin).
  simpl in Hx. by rewrite str_ltb_irrefl in Hx.
Qed.

Lemma keys_NoDup {A} (m : gmap pystr A) :
  NoDup (List.map fst (map_to_list m)).
Proof. apply NoDup_fst_map_to_list. Qed.

End SortFacts.

(** ** The price collector *)

Module PricesFacts.
Import StrOps Gen GenFacts Order SortFacts Prices.

Lemma call_from_bounds (request : nat -> Data) (left : nat) :
  forall attempt,
    (requests_sent (fst (call_from request attempt left)) <= left)%nat
    /\ slept (fst (call_from request attempt left))
       <= 30 * N.of_nat left * (2 * N.of_nat attempt + N.of_nat left + 1)
    /\ forall d, snd (call_from request attempt left) = Some d ->
         is_Some (time_series d).
Proof.
  induction left as [|left IH]; intros attempt; simpl.
  - split; [lia|]. split; [lia|done].
  - destruct (time_series (request attempt)) as [ts|] eqn:Ets; simpl.
    { split; [lia|]. split; [lia|]. intros d [= <-]. by rewrite Ets. }
    destruct (info_of (request attempt)) as [info|]; simpl;
      [|split; [lia|split; [lia|done]]].
    destruct (_ || _); simpl; [split; [lia|split; [lia|done]]|].
    destruct (IH (S attempt)) as (H1 & H2 & H3).
    destruct (call_from request (S attempt) left) as [events r].
    cbn [fst snd requests_sent slept] in *.
    split; [lia|]. split; [lia|done].
Qed.

Lemma call_from_rate_limited (request : nat -> Data) (left : nat) :
  forall attempt,
    (forall k, (attempt <= k < attempt + left)%nat ->
               rate_limited (request k) = true) ->
    call_from request attempt left = (retries attempt left, None).
Proof.
  induction left as [|left IH]; intros attempt H; simpl; [done|].
  pose proof (H attempt ltac:(lia)) as Hr. unfold rate_limited in Hr.
  destruct (time_series (request attempt)); [done|].
  destruct (info_of (request attempt)) as [info|]; [|done].
  apply negb_true_iff in Hr. rewrite Hr.
  rewrite IH; [done|]. intros k Hk. apply H. lia.
Qed.

Lemma slept_retries (k : nat) : forall i,
  slept (retries i k) = 30 * N.of_nat k * (2 * N.of_nat i + N.of_nat k + 1).
Proof.
  induction k as [|k IH]; intros i; simpl; [lia|].
  rewrite IH. lia.
Qed.

Lemma requests_sent_retries (k : nat) : forall i,
  requests_sent (retries i k) = k.
Proof. induction k as [|k IH]; intros i; simpl; [done|]. by rewrite IH. Qed.

Section Records.
Variable float_of_str : pystr -> option Q.
Variable int_of_str : pystr -> option Z.

Lemma float_at_not_attribute x k :
  float_at float_of_str x k <> inl AttributeError.
Proof.
  unfold float_at. destruct (x !! k) as [s|]; [|done].
  by destruct (float_of_str s).
Qed.

Lemma int_at_not_attribute x k :
  int_at int_of_str x k <> inl AttributeError.
Proof.
  unfold int_at. destruct (x !! k) as [s|]; [|done].
  by destruct (int_of_str s).
Qed.

Lemma record_of_not_attribute ticker ts d :
  record_of float_of_str int_of_str ticker ts d <> inl AttributeError.
Proof.
  unfold record_of. destruct (ts !! d) as [x|]; [|done].
  pose proof (float_at_not_attribute x K_OPEN) as H1.
  pose proof (float_at_not_attribute x K_HIGH) as H2.
  pose proof (float_at_not_attribute x K_LOW) as H3.
  pose proof (float_at_not_attribute x K_CLOSE) as H4.
  pose proof (int_at_not_attribute x K_VOLUME) as H5.
  destruct (float_at float_of_str x K_OPEN) as [e|o]; [congruence|].
  destruct (float_at float_of_str x K_HIGH) as [e|h]; [congruence|].
  destruct (float_at float_of_str x K_LOW) as [e|l]; [congruence|].
  destruct (float_at float_of_str x K_CLOSE) as [e|c]; [congruence|].
  destruct (int_at int_of_str x K_VOLUME) as [e|v]; [congruence|done].
Qed.

Lemma records_of_not_attribute ticker ts dates :
  records_of float_of_str int_of_str ticker ts dates <> inl AttributeError.
Proof.
  induction dates as [|d dates IH]; simpl; [done|].
  pose proof (record_of_not_attribute ticker ts d).
  repeat case_match; congruence.
Qed.

Lemma float_at_reads x k q :
  float_at float_of_str x k = inr q ->
  (float_of_str <$> x !! k) = Some (Some q).
Proof.
  unfold float_at. destruct (x !! k) as [s|]; [|done]. simpl.
  destruct (float_of_str s); [|done]. by intros [= ->].
Qed.

Lemma int_at_reads x k z :
  int_at int_of_str x k = inr z ->
  (int_of_str <$> x !! k) = Some (Some z).
Proof.
  unfold int_at. destruct (x !! k) as [s|]; [|done]. simpl.
  destruct (int_of_str s); [|done]. by intros [= ->].
Qed.

Lemma record_of_fields ticker ts d r :
  record_of float_of_str int_of_str ticker ts d = inr r ->
  f_ticker r = ticker /\ f_date r = d /\ f_source r = T_ALPHAVANTAGE
  /\ exists x, ts !! d = Some x
       /\ (float_of_str <$> x !! K_OPEN) = Some (Some (f_open r))
       /\ (float_of_str <$> x !! K_HIGH) = Some (Some (f_high r))
       /\ (float_of_str <$> x !! K_LOW) = Some (Some (f_low r))
       /\ (float_of_str <$> x !! K_CLOSE) = Some (Some (f_close r))
       /\ (int_of_str <$> x !! K_VOLUME) = Some (Some (f_volume r)).
Proof.
  unfold record_of. intros H.
  destruct (ts !! d) as [x|]; [|done].
  destruct (float_at float_of_str x K_OPEN) as [|o] eqn:Eo; [done|].
  destruct (float_at float_of_str x K_HIGH) as [|h] eqn:Eh; [done|].
  destruct (float_at float_of_str x K_LOW) as [|l] eqn:El; [done|].
  destruct (float_at float_of_str x K_CLOSE) as [|c] eqn:Ec; [done|].
  destruct (int_at int_of_str x K_VOLUME) as [|v] eqn:Ev; [done|].
  injection H as <-. cbn [f_ticker f_date f_source f_open f_high f_low
                          f_close f_volume].
  split; [done|]. split; [done|]. split; [done|].
  exists x. split; [done|].
  split; [by apply float_at_reads|]. split; [by apply float_at_reads|].
  split; [by apply float_at_reads|]. split; [by apply float_at_reads|].
  by apply int_at_reads.
Qed.

Lemma records_of_dates ticker ts dates rs :
  records_of float_of_str int_of_str ticker ts dates = inr rs ->
  List.map f_date rs = dates
  /\ Forall (fun r => record_of float_of_str int_of_str ticker ts (f_date r)
                      = inr r) rs.
Proof.
  revert rs. induction dates as [|d dates IH]; intros rs H; simpl in H.
  - by injection H as <-.
  - destruct (record_of _ _ ticker ts d) as [e|r] eqn:Er; [done|].
    destruct (records_of _ _ ticker ts dates) as [e|rs'] eqn:Ers; [done|].
    injection H as <-. destruct (IH rs' eq_refl) as [IH1 IH2].
    destruct (record_of_fields _ _ _ _ Er) as (_ & Hd & _).
    simpl. rewrite Hd, IH1. split; [done|]. constructor; [|done].
    by rewrite Hd.
Qed.

End Records.

Lemma newest_dates_spec (ts : gmap pystr (gmap pystr pystr)) (n : Z) :
  (0 <= n)%Z ->
  descending (newest_dates ts n)
  /\ length (newest_dates ts n) = Nat.min (Z.to_nat n) (size ts)
  /\ (forall d, In d (newest_dates ts n) -> is_Some (ts !! d))
  /\ (forall d d', is_Some (ts !! d) -> ~ In d (newest_dates ts n) ->
        In d' (newest_dates ts n) -> str_ltb d d' = true).
Proof.
  intros Hn. unfold newest_dates, slice_to.
  destruct (Z.leb_spec 0 n) as [_|]; [|lia].
  set (keys := List.map fst (map_to_list ts)).
  set (l := rev (sorted keys)).
  assert (Hdesc : descending l).
  { apply ascending_rev, sorted_ascending, keys_NoDup. }
  assert (Hin : forall d, In d l <-> is_Some (ts !! d)).
  { intros d. unfold l. rewrite <- in_rev, In_sorted. unfold keys.
    rewrite in_map_iff. split.
    - intros ([k v] & <- & Hkv). simpl.
      apply list_elem_of_In, elem_of_map_to_list in Hkv. by eexists.
    - intros [v Hv]. exists (d, v). split; [done|].
      by apply list_elem_of_In, elem_of_map_to_list. }
  assert (Hlen : length l = size ts).
  { unfold l, keys. rewrite length_rev, sorted_length, length_map.
    apply length_map_to_list. }
  clearbody l. clear keys.
  assert (Hsplit : descending (take (Z.to_nat n) l ++ drop (Z.to_nat n) l))
    by (by rewrite take_drop).
  apply StronglySorted_app in Hsplit as (Hcross & Htake & _).
  split; [exact Htake|]. split; [by rewrite length_take, Hlen|].
  split.
  - intros d Hd. apply Hin. rewrite <- (take_drop (Z.to_nat n) l).
    apply in_or_app. by left.
  - intros d d' Hd Hnot Hd'. apply Hin in Hd.
    rewrite <- (take_drop (Z.to_nat n) l) in Hd.
    apply in_app_or in Hd as [Hd|Hd]; [done|].
    apply (Hcross d' d); by apply list_elem_of_In.
Qed.

End PricesFacts.

Section PricesProperties.
Import StrOps Gen GenFacts Order SortFacts Prices PricesFacts.

(** X19. A call of [_call_alpha_vantage] sends at most [max_retries]
    requests and sleeps at most [30 * max_retries * (max_retries + 1)]
    seconds in all, and the data that it returns, if any, holds a time
    series. *)
Theorem call_alpha_vantage_bounds (request : nat -> Data)
        (max_retries : nat) :
  let r := _call_alpha_vantage request max_retries in
  (requests_sent (fst r) <= max_retries)%nat
  /\ slept (fst r) <= 30 * N.of_nat max_retries * (N.of_nat max_retries + 1)
  /\ forall d, snd r = Some d -> is_Some (time_series d).
Proof.
  intros r. unfold r, _call_alpha_vantage.
  destruct (call_from_bounds request max_retries 0) as (H1 & H2 & H3).
  split; [exact H1|]. split; [|exact H3].
  etransitivity; [exact H2|]. simpl. lia.
Qed.

(** X20. When every answer is a rate limit note, the call sends
    [max_retries] requests, sleeps 60, 120, ... seconds after each of them,
    the last one included, which is [30 * max_retries * (max_retries + 1)]
    seconds in all, and returns [None]. *)
Theorem call_alpha_vantage_all_rate_limited (request : nat -> Data)
        (max_retries : nat) :
  (forall k, (k < max_retries)%nat -> rate_limited (request k) = true) ->
  _call_alpha_vantage request max_retries = (retries 0 max_retries, None)
  /\ requests_sent (retries 0 max_retries) = max_retries
  /\ slept (retries 0 max_retries)
     = 30 * N.of_nat max_retries * (N.of_nat max_retries + 1).
Proof.
  intros H. split; [|split].
  - apply call_from_rate_limited. intros k Hk. apply H. lia.
  - apply requests_sent_retries.
  - rewrite slept_retries. simpl. lia.
Qed.

Lemma call_alpha_vantage_all_rate_limited_witness :
  _call_alpha_vantage (fun _ => data_rate_limit) 3
  = ([EvRequest; EvSleep 60; EvRequest; EvSleep 120; EvRequest;
      EvSleep 180], None)
  /\ slept (retries 0 3) = 360.
Proof.
  destruct (call_alpha_vantage_all_rate_limited (fun _ => data_rate_limit) 3)
    as (H1 & _ & H3); [intros k _; reflexivity|].
  split; [exact H1|exact H3].
Defined.

(** X21. [fetch_last_n_days] raises [AttributeError] exactly when
    [_call_alpha_vantage] returns [None]; this is the case when the first
    answer holds no time series and is no rate limit note (a daily quota
    note, or an answer without a note). It returns no value then, so its
    caller gets no list to test. *)
Theorem fetch_fails_without_data (float_of_str : pystr -> option Q)
        (int_of_str : pystr -> option Z) (request : nat -> Data)
        (ticker : pystr) (n : Z) :
  let result := snd (fetch_last_n_days float_of_str int_of_str request
                                       ticker n) in
  (result = inl AttributeError
   <-> snd (_call_alpha_vantage request 3) = None)
  /\ (time_series (request O) = None ->
      rate_limited (request O) = false ->
      result = inl AttributeError).
Proof.
  intros result. unfold result, fetch_last_n_days.
  assert (Hiff : snd (let '(events, data) := _call_alpha_vantage request 3 in
                      (events,
                       match data with
                       | None => inl AttributeError
                       | Some data =>
                           let ts := default ∅ (time_series data) in
                           if bool_decide (ts = ∅) then inr []
                           else records_of float_of_str int_of_str ticker ts
                                  (newest_dates ts n)
                       end)) = inl AttributeError
                 <-> snd (_call_alpha_vantage request 3) = None).
  { destruct (_call_alpha_vantage request 3) as [events [data|]];
      cbn [snd]; [|done].
    split; [|done]. intros H. destruct (bool_decide _); [done|].
    by apply records_of_not_attribute in H. }
  split; [exact Hiff|].
  intros Hts Hrl. apply Hiff. unfold _call_alpha_vantage. simpl.
  unfold rate_limited in Hrl. rewrite Hts in *.
  destruct (info_of (request O)) as [info|]; [|done].
  apply negb_false_iff in Hrl. by rewrite Hrl.
Qed.

Lemma fetch_fails_without_data_witness :
  snd (fetch_last_n_days float_sample int_sample (fun _ => data_quota)
                         (lit "ACME") 5) = inl AttributeError.
Proof.
  apply (fetch_fails_without_data float_sample int_sample
           (fun _ => data_quota) (lit "ACME") 5); reflexivity.
Defined.

(** X22. The records that [fetch_last_n_days] returns for a time series and
    [n >= 0] are those of the [n] newest dates of the series, or of all
    dates when there are fewer, newest first: the dates are strictly
    descending, every date of the series that is left out is older than
    every date taken, and each record holds the ticker, its date and the
    numbers read from the five fields of the date. *)
Theorem fetched_records_are_newest (float_of_str : pystr -> option Q)
        (int_of_str : pystr -> option Z) (request : nat -> Data)
        (ticker : pystr) (n : Z) (data : Data)
        (ts : gmap pystr (gmap pystr pystr)) (records : list PriceRecord) :
  snd (_call_alpha_vantage request 3) = Some data ->
  time_series data = Some ts ->
  (0 <= n)%Z ->
  snd (fetch_last_n_days float_of_str int_of_str request ticker n)
  = inr records ->
  descending (List.map f_date records)
  /\ length records = Nat.min (Z.to_nat n) (size ts)
  /\ (forall d r, is_Some (ts !! d) -> ~ In d (List.map f_date records) ->
        In r records -> str_ltb d (f_date r) = true)
  /\ Forall (fun r =>
       f_ticker r = ticker /\ f_source r = T_ALPHAVANTAGE
       /\ exists x, ts !! f_date r = Some x
            /\ (float_of_str <$> x !! K_OPEN) = Some (Some (f_open r))
            /\ (float_of_str <$> x !! K_HIGH) = Some (Some (f_high r))
            /\ (float_of_str <$> x !! K_LOW) = Some (Some (f_low r))
            /\ (float_of_str <$> x !! K_CLOSE) = Some (Some (f_close r))
            /\ (int_of_str <$> x !! K_VOLUME) = Some (Some (f_volume r)))
       records.
Proof.
  intros Hcall Hts Hn H. unfold fetch_last_n_days in H.
  destruct (_call_alpha_vantage request 3) as [events d0].
  cbn [snd] in Hcall, H. subst d0. rewrite Hts in H. cbv [default from_option id] in H.
  destruct (newest_dates_spec ts n Hn) as (Hdesc & Hlen & Hin & Hold).
  destruct (bool_decide_reflect (ts = ∅)) as [->|Hne].
  - injection H as <-. rewrite map_size_empty, Nat.min_0_r.
    split; [constructor|]. split; [done|]. split; [done|constructor].
  - destruct (records_of_dates _ _ _ _ _ _ H) as [Hdates Hrec].
    rewrite Hdates. split; [exact Hdesc|].
    split; [by rewrite <- Hlen, <- Hdates, length_map|].
    split.
    + intros d r Hd Hnot Hr. apply (Hold d (f_date r) Hd Hnot).
      rewrite <- Hdates. by apply in_map.
    + eapply Forall_impl; [exact Hrec|]. intros r Hr. simpl in Hr.
      destruct (record_of_fields _ _ _ _ _ _ Hr) as (H1 & _ & H3 & H4).
      split; [exact H1|]. split; [exact H3|exact H4].
Qed.

Lemma fetched_records_are_newest_witness :
  snd (fetch_last_n_days float_sample int_sample (fun _ => data_one_day)
                         (lit "ACME") 5)
  = inr [mkRecord (lit "ACME") (lit "2026-01-11") (10 # 1)%Q (11 # 1)%Q
                  (19 # 2)%Q (21 # 2)%Q 100000%Z T_ALPHAVANTAGE]
  /\ descending [lit "2026-01-11"].
Proof.
  assert (H : snd (fetch_last_n_days float_sample int_sample
                     (fun _ => data_one_day) (lit "ACME") 5)
              = inr [mkRecord (lit "ACME") (lit "2026-01-11") (10 # 1)%Q
                              (11 # 1)%Q (19 # 2)%Q (21 # 2)%Q 100000%Z
                              T_ALPHAVANTAGE])
    by (vm_compute; reflexivity).
  split; [exact H|].
  exact (proj1 (fetched_records_are_newest float_sample int_sample
                  (fun _ => data_one_day) (lit "ACME") 5 data_one_day _ _
                  eq_refl eq_refl ltac:(lia) H)).
Defined.

End PricesProperties.

(** ** Failure, order and date of the report *)

Module LatestFacts.
Import Fmt Gen Spec Parser GenFacts RoundTrip Order SortFacts Latest.



(** The order [a <= b] of two strings: [b] is not before [a]. *)
Lemma str_le_trans (a b c : pystr) :
  str_ltb b a = false -> str_ltb c b = false -> str_ltb c a = false.
Proof.
  intros H1 H2. destruct (str_ltb c a) eqn:E; [|done].
  destruct (decide (b = c)) as [->|Hne]; [congruence|].
  pose proof (str_ltb_total _ _ H2 (not_eq_sym Hne)) as Hbc.
  pose proof (str_ltb_trans _ _ _ Hbc E). congruence.
Qed.

Lemma str_max_upper xs : forall x y,
  In y (x :: xs) -> str_ltb (str_max x xs) y = false.
Proof.
  induction xs as [|z xs IH]; intros x y Hy; simpl.
  - destruct Hy as [Hy|[]]. subst y. apply str_ltb_irrefl.
  - destruct Hy as [Hy|[Hy|Hy]].
    + subst y. destruct (str_ltb x z) eqn:E.
      * apply (str_le_trans x z); [by apply str_ltb_asym|].
        apply IH. by left.
      * apply IH. by left.
    + subst y. destruct (str_ltb x z) eqn:E.
      * apply IH. by left.
      * apply (str_le_trans z x); [done|]. apply IH. by left.
    + apply IH. by right.
Qed.

(** A greatest element of a list is the result of [max]. *)
Lemma str_max_unique x xs d :
  In d (x :: xs) -> (forall y, In y (x :: xs) -> str_ltb d y = false) ->
  str_max x xs = d.
Proof.
  intros Hd Hmax. pose proof (str_max_In xs x) as Hin.
  pose proof (str_max_upper xs x d Hd) as H1.
  pose proof (Hmax _ Hin) as H2.
  destruct (decide (str_max x xs = d)) as [|Hne]; [done|].
  pose proof (str_ltb_total _ _ H1 Hne). congruence.
Qed.

Lemma filter_nothing {A} (f : A -> bool) (ls : list A) :
  (forall l, In l ls -> f l = false) -> List.filter f ls = [].
Proof.
  induction ls as [|l ls IH]; intros H; simpl; [done|].
  rewrite (H l) by (by left). apply IH. intros l' Hl'. apply H. by right.
Qed.

Lemma head_lines_no_header d1 c1 v1 rest l :
  In l (head_lines d1 c1 v1 rest) -> startswith P_H3 l = false.
Proof.
  unfold head_lines. destruct rest as [|[[d0 c0] v0] rest]; simpl;
    intuition (subst; done).
Qed.

Lemma narrative_lines_no_header summarize pct args l :
  In l (narrative_lines summarize pct args) -> startswith P_H3 l = false.
Proof.
  unfold narrative_lines. destruct pct as [p|]; [|by intros [<-|[]]].
  destruct (summarize (args p)); by intros [<-|[]].
Qed.

(** The only line of a block that starts with [### ] is its first. *)
Lemma block_headers iso_minutes summarize db m rd t item rest :
  m !! t = Some (item :: rest) ->
  List.filter (startswith P_H3) (block_of iso_minutes summarize db m rd t)
  = [S_H3 ++ t].
Proof.
  intros Hm. unfold block_of. rewrite Hm. destruct item as [[d1 c1] v1].
  unfold block_lines. destruct (range_20 _ _) as [[lo hi] pos].
  rewrite !List.filter_app.
  rewrite (filter_nothing _ (head_lines _ _ _ _))
    by apply head_lines_no_header.
  rewrite (filter_nothing _ (news_block _)).
  2:{ intros l [r ->]%news_block_indent. done. }
  rewrite (filter_nothing _ (narrative_lines _ _ _))
    by apply narrative_lines_no_header.
  cbn [List.filter app].
  change (startswith P_H3 (S_H3 ++ t)) with (startswith P_H3 (P_H3 ++ t)).
  by rewrite startswith_app.
Qed.

Lemma blocks_headers iso_minutes summarize db m rd ts :
  latest_of db m -> (forall t, In t ts -> is_Some (m !! t)) ->
  List.filter (startswith P_H3)
    (concat (List.map (block_of iso_minutes summarize db m rd) ts))
  = List.map (fun t => S_H3 ++ t) ts.
Proof.
  intros Hl. induction ts as [|t ts IH]; intros Hts; [done|].
  cbn [List.map concat]. rewrite List.filter_app, IH
    by (intros; apply Hts; by right).
  destruct (Hts t) as [items Hi]; [by left|].
  pose proof (latest_nonempty _ _ _ _ Hl Hi) as Hne.
  destruct items as [|item rest]; [done|].
  by rewrite (block_headers _ _ _ _ _ _ _ _ Hi).
Qed.

(** Reading back lines that were joined gives the same lines, but for
    empty ones. *)
Lemma splitlines_join_filter (f : pystr -> bool) (ls : list pystr) :
  f [] = false -> Forall no_break ls ->
  List.filter f (splitlines (join_nl ls)) = List.filter f ls.
Proof.
  intros Hf. induction ls as [|l ls IH]; intros Hls; [done|].
  inversion Hls as [|? ? Hl Hls']; subst.
  destruct ls as [|l' ls].
  - simpl join_nl. unfold splitlines. rewrite splitlines_from_last by done.
    change (rev [] ++ l) with l. destruct l; [|done].
    cbn [List.filter]. by rewrite Hf.
  - change (join_nl (l :: l' :: ls)) with (l ++ LF :: join_nl (l' :: ls)).
    unfold splitlines. rewrite splitlines_from_line by done.
    change (rev [] ++ l) with l. fold (splitlines (join_nl (l' :: ls))).
    cbn [List.filter]. by rewrite IH.
Qed.

(** The dates from which the report date is taken. *)
Lemma latest_dates_spec db m d :
  latest_of db m ->
  In d (omap (fun kv : pystr * list Item =>
                match snd kv with (d, _, _) :: _ => Some d | [] => None end)
             (map_to_list m))
  <-> exists r rs, rows_of db (p_ticker r) = r :: rs /\ p_date r = d.
Proof.
  intros Hl. split.
  - intros Hin.
    apply list_elem_of_In, list_elem_of_omap in Hin as ([k items] & Hk & Hf).
    apply elem_of_map_to_list in Hk. simpl in Hf.
    destruct items as [|[[d1 c1] v1] rest]; [done|]. injection Hf as ->.
    destruct (latest_first _ _ _ _ _ Hl Hk) as (r & rs & Hrows & Hitem).
    exists r, rs. unfold item_of in Hitem.
    destruct (p_close r); [|done]. injection Hitem as Hd _ _.
    split; [|done].
    assert (Hr : In r (rows_of db k)) by (rewrite Hrows; by left).
    apply filter_In in Hr as [_ Hr]. apply bool_decide_eq_true in Hr.
    by rewrite Hr.
  - intros (r & rs & Hrows & <-).
    pose proof (Hl (p_ticker r)) as Ht. rewrite Hrows in Ht.
    destruct Ht as (items & Hm & Hmap). simpl in Hmap.
    destruct items as [|[[d1 c1] v1] rest]; [done|].
    injection Hmap as Hitem _. unfold item_of in Hitem.
    destruct (p_close r); [|done]. injection Hitem as -> _ _.
    apply list_elem_of_In, list_elem_of_omap.
    exists (p_ticker r, (p_date r, c1, v1) :: rest). split; [|done].
    by apply elem_of_map_to_list.
Qed.

End LatestFacts.

Section GeneratorMoreProperties.
Import Fmt Gen Spec Parser GenFacts RoundTrip PipelineFacts.
Import Order SortFacts Latest LatestFacts.



(** X24. For a table without price rows, [generate] writes the title line
    with the date of today and a newline, returns this date, and
    [parse_report] reads a report with this title and no section;
    [get_latest_report_date] returns [None] then. *)
Theorem empty_table_report (today : pystr)
        (iso_minutes : pystr -> option pystr)
        (summarize : SummArgs -> Outcome) (db : Store) :
  prices db = [] -> no_break today ->
  generate today iso_minutes summarize db
  = Ok (S_TITLE ++ today ++ S_RPAREN ++ [LF], today)
  /\ parse_report (S_TITLE ++ today ++ S_RPAREN ++ [LF])
     = Ok (mkReport (strip (T_TITLE ++ today ++ S_RPAREN)) [] [])
  /\ get_latest_report_date db = None.
Proof.
  intros Hp Hnb.
  assert (Hb : build ∅ (prices db) = Ok ∅) by (by rewrite Hp).
  assert (Hwf : well_formed today iso_minutes summarize db ∅).
  { split; [done|]. intros t items H. by rewrite lookup_empty in H. }
  destruct (parse_generated _ _ _ _ _ Hb Hwf) as (text & Hgen & Hparse).
  assert (Hrd : report_date_of today ∅ = today).
  { unfold report_date_of. by rewrite map_to_list_empty. }
  assert (Htext : text = S_TITLE ++ today ++ S_RPAREN ++ [LF]).
  { unfold generate in Hgen.
    rewrite (report_lines_ok _ _ _ _ _ Hb) in Hgen.
    cbn [rbind fst snd] in Hgen. injection Hgen as <-.
    unfold tickers_of. rewrite Hrd, map_to_list_empty. done. }
  rewrite Hrd in Hgen, Hparse. rewrite <- Htext.
  split; [exact Hgen|]. split.
  - rewrite Hparse. unfold tickers_of. by rewrite map_to_list_empty.
  - unfold get_latest_report_date. by rewrite Hp.
Qed.

Lemma empty_table_report_witness :
  generate today_sample iso_never summarize_fine store_empty
  = Ok (S_TITLE ++ today_sample ++ S_RPAREN ++ [LF], today_sample)
  /\ parse_report (S_TITLE ++ today_sample ++ S_RPAREN ++ [LF])
     = Ok (mkReport (strip (T_TITLE ++ today_sample ++ S_RPAREN)) [] [])
  /\ get_latest_report_date store_empty = None.
Proof.
  apply (empty_table_report today_sample iso_never summarize_fine
           store_empty); [reflexivity|].
  unfold no_break. vm_compute. repeat constructor.
Defined.

(** X25. When the texts of the store are well formed (no line break in
    today's date, the tickers, the dates of the items, the fields of the
    news and the narratives; every url empty or starting with [http://] or
    [https://]), the lines of the text of the report that start with [### ]
    are the headers of the tickers that have a price row, one for each
    ticker, in the strictly ascending order of the code points of the
    tickers. *)
Theorem report_headers_ascending (today : pystr)
        (iso_minutes : pystr -> option pystr)
        (summarize : SummArgs -> Outcome) (db : Store)
        (m : gmap pystr (list Item)) :
  build ∅ (prices db) = Ok m ->
  well_formed today iso_minutes summarize db m ->
  exists text rd,
    generate today iso_minutes summarize db = Ok (text, rd)
    /\ List.filter (startswith P_H3) (splitlines text)
       = List.map (fun t => S_H3 ++ t) (tickers_of m)
    /\ ascending (tickers_of m)
    /\ forall t, In t (tickers_of m) <-> rows_of db t <> [].
Proof.
  intros Hb [Htoday Hwf]. pose proof (build_latest _ _ Hb) as Hl.
  set (rd := report_date_of today m).
  assert (Hrd : no_break rd).
  { apply report_date_no_break; [done|].
    intros t d1 c1 v1 rest Hm. by destruct (Hwf _ _ Hm) as (_ & _ & [H _]). }
  exists (join_nl ((S_TITLE ++ rd ++ S_RPAREN ++ [LF])
                     :: concat (List.map (block_of iso_minutes summarize db m
                                            rd) (tickers_of m)))), rd.
  split; [unfold generate; by rewrite (report_lines_ok _ _ _ _ _ Hb)|].
  split.
  - replace (S_TITLE ++ rd ++ S_RPAREN ++ [LF])
      with ((S_TITLE ++ rd ++ S_RPAREN) ++ [LF])
      by (by rewrite <- !app_assoc).
    rewrite join_nl_title, splitlines_join_filter; [|done|].
    + cbn [List.filter].
      replace (startswith P_H3 (S_TITLE ++ _)) with false by done.
      apply blocks_headers; [done|]. intros t. apply In_tickers_of.
    + constructor; [nb|]. constructor; [constructor|].
      by apply (blocks_no_break iso_minutes summarize db m rd).
  - split; [apply sorted_ascending, keys_NoDup|].
    intros t. by apply tickers_of_rows.
Qed.

Lemma report_headers_ascending_witness :
  build ∅ (prices store_news) = Ok (latest_map_of store_news)
  /\ well_formed today_sample iso_never summarize_fine store_news
                 (latest_map_of store_news)
  /\ exists text rd,
       generate today_sample iso_never summarize_fine store_news
       = Ok (text, rd)
       /\ List.filter (startswith P_H3) (splitlines text)
          = List.map (fun t => S_H3 ++ t)
              (tickers_of (latest_map_of store_news))
       /\ ascending (tickers_of (latest_map_of store_news))
       /\ forall t, In t (tickers_of (latest_map_of store_news))
                    <-> rows_of store_news t <> [].
Proof.
  assert (H1 : build ∅ (prices store_news) = Ok (latest_map_of store_news))
    by (vm_compute; reflexivity).
  split; [exact H1|]. split; [exact well_formed_store_news|].
  exact (report_headers_ascending today_sample iso_never summarize_fine
           store_news _ H1 well_formed_store_news).
Defined.

(** X26. When the table has rows and the rows of each ticker come newest
    first, the report date of [generate] is the date of a row, no row has a
    later date, and it is the date that [get_latest_report_date] returns. *)
Theorem report_date_is_newest (today : pystr)
        (iso_minutes : pystr -> option pystr)
        (summarize : SummArgs -> Outcome) (db : Store)
        (m : gmap pystr (list Item)) :
  build ∅ (prices db) = Ok m ->
  newest_first db ->
  prices db <> [] ->
  exists text rd,
    generate today iso_minutes summarize db = Ok (text, rd)
    /\ In rd (List.map p_date (prices db))
    /\ (forall r, In r (prices db) -> str_ltb rd (p_date r) = false)
    /\ get_latest_report_date db = Some rd.
Proof.
  intros Hb Hsorted Hne. pose proof (build_latest _ _ Hb) as Hl.
  unfold generate. rewrite (report_lines_ok _ _ _ _ _ Hb).
  cbn [rbind fst snd]. do 2 eexists. split; [reflexivity|].
  set (f := fun kv : pystr * list Item =>
              match snd kv with (d, _, _) :: _ => Some d | [] => None end).
  assert (Hfirst : forall r, In r (prices db) ->
            exists r1 rs, rows_of db (p_ticker r) = r1 :: rs
                          /\ p_ticker r1 = p_ticker r
                          /\ str_ltb (p_date r1) (p_date r) = false).
  { intros r Hr.
    assert (Hin : In r (rows_of db (p_ticker r))).
    { apply filter_In. split; [done|]. by apply bool_decide_eq_true. }
    specialize (Hsorted (p_ticker r)).
    destruct (rows_of db (p_ticker r)) as [|r1 rs] eqn:Hrows; [done|].
    exists r1, rs. split; [done|]. split.
    - assert (H1 : In r1 (rows_of db (p_ticker r)))
        by (rewrite Hrows; by left).
      apply filter_In in H1 as [_ H1]. by apply bool_decide_eq_true in H1.
    - destruct Hin as [->|Hin]; [apply str_ltb_irrefl|].
      simpl in Hsorted. apply StronglySorted_inv in Hsorted as [_ Hall].
      rewrite Forall_forall in Hall. apply Hall, list_elem_of_In.
      by apply in_map. }
  assert (Hdates : exists d ds, omap f (map_to_list m) = d :: ds).
  { destruct (prices db) as [|r rows] eqn:Hp; [done|].
    destruct (Hfirst r) as (r1 & rs & Hrows & Ht & _); [by left|].
    assert (Hin : In (p_date r1) (omap f (map_to_list m))).
    { apply (latest_dates_spec db m _ Hl). exists r1, rs.
      split; [by rewrite Ht|done]. }
    destruct (omap f (map_to_list m)) as [|d ds]; [done|]. by eexists _, _. }
  destruct Hdates as (d & ds & Hdates).
  assert (Hrd : report_date_of today m = str_max d ds).
  { unfold report_date_of. fold f. by rewrite Hdates. }
  rewrite Hrd.
  assert (Hin : In (str_max d ds) (List.map p_date (prices db))).
  { pose proof (str_max_In ds d) as H. rewrite <- Hdates in H.
    apply (latest_dates_spec db m _ Hl) in H as (r & rs & Hrows & <-).
    apply in_map.
    assert (H1 : In r (rows_of db (p_ticker r))) by (rewrite Hrows; by left).
    by apply filter_In in H1 as [H1 _]. }
  assert (Hmax : forall r, In r (prices db) ->
            str_ltb (str_max d ds) (p_date r) = false).
  { intros r Hr. destruct (Hfirst r Hr) as (r1 & rs & Hrows & Ht & Hle).
    apply (str_le_trans _ (p_date r1)); [done|].
    apply str_max_upper. rewrite <- Hdates.
    apply (latest_dates_spec db m _ Hl). exists r1, rs.
    split; [by rewrite Ht|done]. }
  split; [exact Hin|]. split; [exact Hmax|].
  unfold get_latest_report_date.
  destruct (List.map p_date (prices db)) as [|x xs] eqn:Hp.
  { by destruct Hin. }
  f_equal. apply str_max_unique; [done|].
  intros y Hy. rewrite <- Hp in Hy.
  apply in_map_iff in Hy as (r & <- & Hr). by apply Hmax.
Qed.

Lemma report_date_is_newest_witness :
  exists text rd,
    generate today_sample iso_never summarize_fine store_zero = Ok (text, rd)
    /\ In rd (List.map p_date (prices store_zero))
    /\ (forall r, In r (prices store_zero) -> str_ltb rd (p_date r) = false)
    /\ get_latest_report_date store_zero = Some rd.
Proof.
  apply (report_date_is_newest today_sample iso_never summarize_fine
           store_zero (latest_map_of store_zero)).
  - vm_compute. reflexivity.
  - intros t.
    destruct (decide (t = lit "ACME")) as [->|H1];
      [vm_compute; repeat constructor|].
    destruct (decide (t = lit "ZED")) as [->|H2];
      [vm_compute; repeat constructor|].
    unfold rows_of. cbn [prices store_zero List.filter p_ticker].
    rewrite !bool_decide_eq_false_2 by congruence. constructor.
  - done.
Defined.

End GeneratorMoreProperties.
